(** * Trust scoring and market-cap validation of the token API

  A shallow embedding of the enhanced integration script (the price
  resolver [calculateWeightedPrice], the scorer [calculateTrustScore],
  the validator [validateMarketCap], [enhanceTokenData] and
  [generateMarketCapReport]) and the properties its specification
  states about them.

  Numbers.  The script computes on JavaScript numbers.  They are taken
  here as exact rationals ([Q]): every threshold of the script is an
  integer, [0.1], [0.95] or [0.000001], and every division the script
  performs is guarded by a positivity test on the divisor.  A property
  that is absent from an object ([undefined]) is an [option] field equal
  to [None]; a comparison with [undefined] is false, as in JavaScript.
  Scores and points only ever hold small integers and are in [Z]. *)

From Stdlib Require Import ZArith QArith Qround Bool List String Ascii Lia Lqa.
From Stdlib Require Import Permutation Sorted.
Import ListNotations.

Local Open Scope Z_scope.

(** ** JavaScript helpers *)

Module JS.

(** [a < b], [a > b], [a <= b], [a >= b] and [a === b] on numbers. *)
Definition lt (a b : Q) : bool := negb (Qle_bool b a).
Definition gt (a b : Q) : bool := lt b a.
Definition le (a b : Q) : bool := Qle_bool a b.
Definition ge (a b : Q) : bool := le b a.
Definition eq (a b : Q) : bool := Qeq_bool a b.

(** The same comparisons when an operand may be [undefined]: the
    operand becomes NaN and the comparison is false. *)
Definition gt_u (a : option Q) (b : Q) : bool :=
  match a with Some x => gt x b | None => false end.
Definition lt_uz (a : option Z) (b : Z) : bool :=
  match a with Some x => x <? b | None => false end.

(** Truthiness of a value that may be absent. *)
Definition truthy_bool (b : option bool) : bool :=
  match b with Some true => true | _ => false end.
Definition truthy_num (a : option Q) : bool :=
  match a with Some x => negb (eq x 0) | None => false end.
Definition truthy_str (s : option string) : bool :=
  match s with Some EmptyString => false | Some _ => true | None => false end.

(** The value of a truthy number: neither absent nor zero. *)
Definition truthy_value (a : option Q) : option Q :=
  match a with Some x => if eq x 0 then None else Some x | None => None end.

(** [a || 0] on a number that may be absent. *)
Definition or_zero (a : option Q) : Q :=
  match a with Some x => if eq x 0 then 0%Q else x | None => 0%Q end.

Definition Math_min (a b : Q) : Q := if lt b a then b else a.
Definition Math_maxZ (a b : Z) : Z := Z.max a b.

(** [Array.prototype.includes] on an array of strings. *)
Definition includes (l : list string) (x : string) : bool :=
  existsb (String.eqb x) l.

(** [String.prototype.startsWith], [endsWith] and [includes]. *)
Definition startsWith (s p : string) : bool := String.prefix p s.

Definition endsWith (s p : string) : bool :=
  let n := String.length s in
  let m := String.length p in
  (m <=? n)%nat && String.eqb (String.substring (n - m) m s) p.

Fixpoint str_includes (s p : string) : bool :=
  String.prefix p s ||
  match s with
  | EmptyString => false
  | String _ s' => str_includes s' p
  end.

(** [Array.prototype.sort] with a comparator [cmp]: [a] stays before
    [b] unless [cmp a b > 0].  The sort is stable; it is written as an
    insertion from the right, which on the consistent comparators of
    the script gives the order the language prescribes. *)
Section Sort.
Context {A : Type} (cmp : A -> A -> Q).

Fixpoint insert (x : A) (l : list A) : list A :=
  match l with
  | [] => [x]
  | y :: l' => if gt (cmp x y) 0 then y :: insert x l' else x :: y :: l'
  end.

Fixpoint sort (l : list A) : list A :=
  match l with
  | [] => []
  | x :: l' => insert x (sort l')
  end.
End Sort.

(** [Array.prototype.reduce] from an initial value. *)
Definition reduce {A B : Type} (f : B -> A -> B) (init : B) (l : list A) : B :=
  fold_left f l init.

End JS.

(** ** Regular expressions

  The tickers are tested against a handful of anchored patterns made
  of character classes, concatenation, [+], [?] and bounded
  repetition.  They are matched by derivatives. *)

Module Regex.

Inductive t : Type :=
| Void : t
| Eps : t
| Class (p : ascii -> bool) : t
| Cat (r s : t) : t
| Alt (r s : t) : t
| Star (r : t) : t.

Fixpoint nullable (r : t) : bool :=
  match r with
  | Void => false
  | Eps => true
  | Class _ => false
  | Cat r s => nullable r && nullable s
  | Alt r s => nullable r || nullable s
  | Star _ => true
  end.

Fixpoint deriv (c : ascii) (r : t) : t :=
  match r with
  | Void => Void
  | Eps => Void
  | Class p => if p c then Eps else Void
  | Cat r s =>
      if nullable r then Alt (Cat (deriv c r) s) (deriv c s)
      else Cat (deriv c r) s
  | Alt r s => Alt (deriv c r) (deriv c s)
  | Star r => Cat (deriv c r) (Star r)
  end.

(** [/^r$/.test(s)] *)
Fixpoint test (r : t) (s : string) : bool :=
  match s with
  | EmptyString => nullable r
  | String c s' => test (deriv c r) s'
  end.

Definition Plus (r : t) : t := Cat r (Star r).
Definition Opt (r : t) : t := Alt r Eps.

Definition in_range (lo hi : nat) (c : ascii) : bool :=
  let n := nat_of_ascii c in ((lo <=? n) && (n <=? hi))%nat.

Definition upper : ascii -> bool := in_range 65 90.
Definition lower : ascii -> bool := in_range 97 122.
Definition letter (c : ascii) : bool := upper c || lower c.

Definition to_upper (c : ascii) : ascii :=
  if lower c then ascii_of_nat (nat_of_ascii c - 32) else c.

(** One of the characters of [cs]. *)
Definition one_of (cs : string) (c : ascii) : bool :=
  existsb (Ascii.eqb c) (list_ascii_of_string cs).

(** One of the characters of [cs], under the [i] flag. *)
Definition one_of_i (cs : string) (c : ascii) : bool :=
  existsb (fun d => Ascii.eqb (to_upper c) (to_upper d)) (list_ascii_of_string cs).

(** The literal [cs], under the [i] flag. *)
Fixpoint lit_i (cs : string) : t :=
  match cs with
  | EmptyString => Eps
  | String d cs' => Cat (Class (fun c => Ascii.eqb (to_upper c) (to_upper d))) (lit_i cs')
  end.

End Regex.

(** ** Configuration *)

Definition BATCH_SIZE : nat := 10.
Definition MAX_REASONABLE_PRICE : Q := 1000.
Definition MIN_REASONABLE_PRICE : Q := 1 # 1000000.
Definition MIN_LIQUIDITY_THRESHOLD : Q := 500.
Definition MAX_MCAP_LIQUIDITY_RATIO : Q := 10000.
Definition MIN_POOLS_REQUIRED : Z := 3.
Definition HONEYPOT_BLACKLIST : list string :=
[ "f45b5a5a20bb18a37e6e18c4cfe17dbc9be5aa3d6fa0453c06ee8da5c77e80b346455448";
  "addr1w9zru...lfqw" ]%string.

(** ** Messages

    A message of the script is a template literal; it is kept as its
    fragments, so that an interpolated number is the number itself
    rather than its decimal rendering. *)

Inductive Frag : Type :=
| Lit (s : string)
| Fixed2 (x : Q)            (* x.toFixed(2) *)
| Num (x : Q)               (* a number interpolated as it is *)
| Int (n : Z).              (* an integer interpolated as it is *)

Definition Message : Type := list Frag.

Definition msg (s : string) : Message := [Lit s].

(** ** Trust scorer *)

Inductive TrustLevel : Type := VeryLow | Low | Moderate | Good | High.

Record Adjustment : Type := { reason : Message; points : Z }.

(** The three accumulators of [calculateTrustScore]. *)
Record Tally : Type := { score : Z; penalties : list Adjustment; bonuses : list Adjustment }.

(** In-place updates of an object or of a group of local variables are
    functions on its state; [f ;; g] runs [f] and then [g]. *)
Definition Upd (S : Type) : Type := S -> S.

Definition skip {S : Type} : Upd S := fun t => t.
Definition andThen {S : Type} (f g : Upd S) : Upd S := fun t => g (f t).
Definition when {S : Type} (b : bool) (f : Upd S) : Upd S := if b then f else skip.

Declare Scope step_scope.
Delimit Scope step_scope with step.
Bind Scope step_scope with Upd.
Notation "f ;; g" := (andThen f g) (at level 61, right associativity) : step_scope.

Definition Step : Type := Upd Tally.

(** [penalties.push({reason, points})], [bonuses.push({reason, points})],
    [score += n] and [score -= n]. *)
Definition push_penalty (r : Message) (p : Z) : Step := fun t =>
  {| score := score t;
     penalties := penalties t ++ [ {| reason := r; points := p |} ];
     bonuses := bonuses t |}.

Definition push_bonus (r : Message) (p : Z) : Step := fun t =>
  {| score := score t;
     penalties := penalties t;
     bonuses := bonuses t ++ [ {| reason := r; points := p |} ] |}.

Definition score_add (n : Z) : Step := fun t =>
  {| score := score t + n; penalties := penalties t; bonuses := bonuses t |}.

Definition score_sub (n : Z) : Step := fun t =>
  {| score := score t - n; penalties := penalties t; bonuses := bonuses t |}.

Definition TRUSTED_TOKENS : list string :=
[ "5b26e685cc5c9ad630bde3e3cd48c694436671f3d25df53777ca60ef4e564c" ]%string.

Definition COPYCAT_PATTERNS : list Regex.t :=
[ (* /^[Ii][A-Za-z]+$/ *)
  Regex.Cat (Regex.Class (Regex.one_of "Ii")) (Regex.Plus (Regex.Class Regex.letter));
  (* /^[A-Za-z]+[A-Z]{3,4}$/ *)
  Regex.Cat (Regex.Plus (Regex.Class Regex.letter))
    (Regex.Cat (Regex.Class Regex.upper) (Regex.Cat (Regex.Class Regex.upper)
      (Regex.Cat (Regex.Class Regex.upper) (Regex.Opt (Regex.Class Regex.upper)))));
  (* /^[A-Za-z]+[A-Z]{2,3}[A-Za-z]+$/ *)
  Regex.Cat (Regex.Plus (Regex.Class Regex.letter))
    (Regex.Cat (Regex.Class Regex.upper) (Regex.Cat (Regex.Class Regex.upper)
      (Regex.Cat (Regex.Opt (Regex.Class Regex.upper)) (Regex.Plus (Regex.Class Regex.letter))))) ].

Definition WRAPPED_TOKEN_PATTERNS : list Regex.t :=
[ (* /^[iwb]btc$/i *)
  Regex.Cat (Regex.Class (Regex.one_of_i "iwb")) (Regex.lit_i "btc");
  (* /^[iwbe]th$/i *)
  Regex.Cat (Regex.Class (Regex.one_of_i "iwbe")) (Regex.lit_i "th");
  (* /^[iw]usdc?$/i *)
  Regex.Cat (Regex.Class (Regex.one_of_i "iw"))
    (Regex.Cat (Regex.lit_i "usd") (Regex.Opt (Regex.lit_i "c")));
  (* /^[iw]usdt?$/i *)
  Regex.Cat (Regex.Class (Regex.one_of_i "iw"))
    (Regex.Cat (Regex.lit_i "usd") (Regex.Opt (Regex.lit_i "t"))) ].

(** [patterns.some(pattern => pattern.test(ticker))]; an absent ticker
    is only reached behind a truthiness test. *)
Definition some_test (patterns : list Regex.t) (ticker : option string) : bool :=
  match ticker with
  | Some s => existsb (fun r => Regex.test r s) patterns
  | None => false
  end.

Section TrustScore.

(** The parameters of [calculateTrustScore], the last two after their
    defaults have been applied. *)
Variables (tokenId : string) (poolCount : Z) (suspiciousLiquidity : option bool)
  (totalLiquidity marketCap circulatingSupply : Q) (ticker : option string)
  (tokenAge : Q) (priceFromAveragePrice : bool).

Local Open Scope step_scope.

Definition whitelistCheck : Step :=
  when (JS.includes TRUSTED_TOKENS tokenId)
    (push_bonus (msg "Token is in trusted whitelist") 50 ;; score_add 50).

Definition blacklistCheck : Step :=
  when (JS.includes HONEYPOT_BLACKLIST tokenId)
    (push_penalty (msg "Token is in honeypot blacklist") (-100) ;; score_sub 100).

Definition copycatCheck : Step :=
  when (JS.truthy_str ticker)
    (when (some_test COPYCAT_PATTERNS ticker && JS.gt marketCap 1000000)
      (push_penalty (msg "Possible copycat token with suspicious name pattern") (-25) ;;
       score_sub 25)).

Definition supplyDiscrepancyCheck : Step :=
  when (JS.gt marketCap 1000000)
    (when (JS.eq circulatingSupply 0 && JS.gt totalLiquidity 100000)
      (push_penalty (msg "High liquidity but zero circulating supply reported") (-50) ;;
       score_sub 50)).

Definition manipulationCheck : Step :=
  when (JS.gt totalLiquidity 0 && JS.gt marketCap 0)
    (let ratio := (marketCap / totalLiquidity)%Q in
     when (JS.gt ratio 50 && JS.gt marketCap 5000000)
       (push_penalty [Lit "Potential price manipulation ("; Fixed2 ratio;
                      Lit ":1 MCap/Liquidity ratio)"] (-40) ;;
        score_sub 40) ;;
     when (JS.lt circulatingSupply (totalLiquidity * (1 # 10))%Q && JS.gt marketCap 1000000)
       (push_penalty (msg "Suspicious circulating supply vs. liquidity ratio") (-30) ;;
        score_sub 30)).

Definition poolCountAssessment : Step :=
  if priceFromAveragePrice then
    when (poolCount =? 0)
      (push_penalty (msg "No liquidity pools found, using fallback price source") (-40) ;;
       score_sub 40 ;;
       when (JS.gt marketCap 1000000)
         (push_penalty (msg "High market cap with no visible liquidity pools") (-20) ;;
          score_sub 20) ;;
       when (JS.truthy_str ticker && some_test WRAPPED_TOKEN_PATTERNS ticker)
         (push_bonus (msg "Recognized wrapped token pattern") 30 ;; score_add 30))
  else
    if poolCount =? 0 then
      push_penalty (msg "No liquidity pools found") (-80) ;; score_sub 80
    else if poolCount =? 1 then
      push_penalty (msg "Single liquidity pool") (-30) ;; score_sub 30 ;;
      when (JS.gt marketCap 10000000 && JS.eq circulatingSupply 0)
        (push_penalty
           (msg "High market cap with single pool and no circulating supply data") (-50) ;;
         score_sub 50) ;;
      when (JS.gt marketCap 0 && JS.gt totalLiquidity 0)
        (let ratio := (marketCap / totalLiquidity)%Q in
         if JS.gt ratio 100 then
           push_penalty [Lit "Extremely high market cap to liquidity ratio ("; Fixed2 ratio;
                         Lit ":1)"] (-40) ;;
           score_sub 40
         else when (JS.gt ratio 50)
           (push_penalty [Lit "High market cap to liquidity ratio ("; Fixed2 ratio;
                          Lit ":1)"] (-20) ;;
            score_sub 20))
    else if (poolCount >=? 2) && (poolCount <? MIN_POOLS_REQUIRED) then
      push_penalty [Lit "Low number of liquidity pools ("; Int poolCount; Lit ")"] (-10) ;;
      score_sub 10
    else when (poolCount >=? MIN_POOLS_REQUIRED)
      (push_bonus [Lit "Good number of liquidity pools ("; Int poolCount; Lit ")"] 10 ;;
       score_add 10).

Definition liquidityAssessment : Step :=
  if JS.lt totalLiquidity 100 then
    push_penalty (msg "Extremely low liquidity") (-70) ;; score_sub 70
  else if JS.lt totalLiquidity 500 then
    push_penalty (msg "Very low liquidity") (-50) ;; score_sub 50
  else if JS.lt totalLiquidity MIN_LIQUIDITY_THRESHOLD then
    push_penalty [Lit "Low liquidity ("; Fixed2 totalLiquidity; Lit " ADA)"] (-30) ;;
    score_sub 30
  else if JS.gt totalLiquidity 100000 then
    push_bonus (msg "Very high liquidity") 20 ;; score_add 20
  else when (JS.gt totalLiquidity 20000)
    (push_bonus (msg "Good liquidity") 10 ;; score_add 10).

Definition distributionAssessment : Step :=
  when (JS.truthy_bool suspiciousLiquidity)
    (if JS.lt totalLiquidity 20000 then
       push_penalty (msg "Suspicious liquidity distribution with low total liquidity") (-30) ;;
       score_sub 30
     else if JS.lt totalLiquidity 50000 then
       push_penalty (msg "Suspicious liquidity distribution with moderate liquidity") (-15) ;;
       score_sub 15
     else
       push_penalty
         (msg "Suspicious liquidity distribution despite significant liquidity") (-5) ;;
       score_sub 5).

Definition ratioAssessment : Step :=
  when (JS.gt marketCap 0 && JS.gt totalLiquidity 0)
    (let ratio := (marketCap / totalLiquidity)%Q in
     when (JS.gt ratio MAX_MCAP_LIQUIDITY_RATIO)
       (push_penalty [Lit "Extreme market cap to liquidity ratio ("; Fixed2 ratio; Lit ":1)"]
          (-40) ;;
        score_sub 40)).

Definition ageAssessment : Step :=
  when (JS.gt tokenAge 0)
    (if JS.gt tokenAge 365 then
       push_bonus (msg "Token has existed for more than a year") 15 ;; score_add 15
     else if JS.gt tokenAge 180 then
       push_bonus (msg "Token has existed for more than 6 months") 10 ;; score_add 10
     else when (JS.gt tokenAge 30)
       (push_bonus (msg "Token has existed for more than a month") 5 ;; score_add 5)).

(** [score = Math.max(0, score)] *)
Definition floorScore : Step := fun t =>
  {| score := JS.Math_maxZ 0 (score t); penalties := penalties t; bonuses := bonuses t |}.

(** The adjustments, in the order of the script, from score 100 and two
    empty arrays. *)
Definition adjustments : Step :=
  whitelistCheck ;; blacklistCheck ;; copycatCheck ;; supplyDiscrepancyCheck ;;
  manipulationCheck ;; poolCountAssessment ;; liquidityAssessment ;;
  distributionAssessment ;; ratioAssessment ;; ageAssessment.

Definition initialTally : Tally := {| score := 100; penalties := []; bonuses := [] |}.

(** Trust level and honeypot flag from the floored score. *)
Definition classify (s : Z) : TrustLevel * bool :=
  if s <? 20 then (VeryLow, true)
  else if s <? 40 then (Low, JS.lt totalLiquidity 5000)
  else if s <? 60 then (Moderate, false)
  else if s <? 80 then (Good, false)
  else (High, false).

End TrustScore.

(** The object [calculateTrustScore] returns, with the properties
    [enhanceTokenData] attaches to it afterwards and the two properties
    [validateMarketCap] reads although nothing in the script writes
    them. *)
Module TA.
Record t : Type := {
  score : Z;
  trustLevel : TrustLevel;
  isHoneypot : bool;
  penalties : list Adjustment;
  bonuses : list Adjustment;
  priceFromAveragePrice : bool;
  (* attached by enhanceTokenData *)
  potentialCopycatDetected : option bool;
  supplyDiscrepancy : option bool;
  noPoolsFound : option bool;
  emptySuspiciousPools : option bool;
  circulatingSupply : option Q;
  (* read by validateMarketCap, set nowhere *)
  trustScore : option Z;
  reason : option Message
}.
End TA.

Definition calculateTrustScore (tokenId : string) (poolCount : Z)
    (suspiciousLiquidity : option bool) (totalLiquidity marketCap circulatingSupply : Q)
    (ticker : option string) (tokenAge : option Q) (priceFromAveragePrice : option bool)
  : TA.t :=
  let tokenAge := match tokenAge with Some a => a | None => 0%Q end in
  let priceFromAveragePrice :=
    match priceFromAveragePrice with Some b => b | None => false end in
  let t := floorScore
             (adjustments tokenId poolCount suspiciousLiquidity totalLiquidity marketCap
                circulatingSupply ticker tokenAge priceFromAveragePrice initialTally) in
  let '(trustLevel, isHoneypot) := classify totalLiquidity (score t) in
  {| TA.score := score t;
     TA.trustLevel := trustLevel;
     TA.isHoneypot := isHoneypot;
     TA.penalties := penalties t;
     TA.bonuses := bonuses t;
     TA.priceFromAveragePrice := priceFromAveragePrice;
     TA.potentialCopycatDetected := None;
     TA.supplyDiscrepancy := None;
     TA.noPoolsFound := None;
     TA.emptySuspiciousPools := None;
     TA.circulatingSupply := None;
     TA.trustScore := None;
     TA.reason := None |}.

(** ** Market cap validator *)

Module Validation.
Record t : Type := { valid : bool; reasons : list Message; trustScore : Z }.

Definition invalidate : Upd t := fun r =>
  {| valid := false; reasons := reasons r; trustScore := trustScore r |}.

Definition push (m : Message) : Upd t := fun r =>
  {| valid := valid r; reasons := reasons r ++ [m]; trustScore := trustScore r |}.
End Validation.

(** [`${x}`] for a property that may be absent. *)
Definition show_uz (x : option Z) : Frag :=
  match x with Some n => Int n | None => Lit "undefined" end.

Definition validateMarketCap (marketCap totalLiquidity : Q) (trustAssessment : TA.t)
  : Validation.t :=
  let result :=
    {| Validation.valid := true;
       Validation.reasons := [];
       Validation.trustScore :=
         match TA.trustScore trustAssessment with Some n => n | None => 0 end |} in
  ( when (JS.truthy_bool (TA.emptySuspiciousPools trustAssessment))
      (Validation.invalidate ;;
       Validation.push (msg
         "Suspicious token: Claims to have pools but no valid liquidity data available")) ;;
    when (JS.truthy_bool (TA.noPoolsFound trustAssessment) && JS.gt marketCap 1000000)
      (Validation.push (msg
         "No liquidity pools found despite significant market cap - exercise extreme caution")) ;;
    when (JS.truthy_bool (TA.supplyDiscrepancy trustAssessment))
      (Validation.invalidate ;;
       Validation.push (msg
         "Suspicious token: Significant discrepancy between reported supply and actual supply")) ;;
    when (JS.lt totalLiquidity MIN_LIQUIDITY_THRESHOLD)
      (Validation.push [Lit "Insufficient liquidity ("; Fixed2 totalLiquidity;
                        Lit " ADA) - minimum threshold is "; Num MIN_LIQUIDITY_THRESHOLD;
                        Lit " ADA"]) ;;
    when (JS.gt totalLiquidity 0 && JS.gt marketCap 0)
      (let mcapToLiquidityRatio := (marketCap / totalLiquidity)%Q in
       when (JS.gt mcapToLiquidityRatio MAX_MCAP_LIQUIDITY_RATIO)
         (Validation.push [Lit "Suspicious market cap to liquidity ratio (";
                           Fixed2 mcapToLiquidityRatio; Lit ":1) - maximum allowed is ";
                           Num MAX_MCAP_LIQUIDITY_RATIO; Lit ":1"] ;;
          when (JS.gt mcapToLiquidityRatio (MAX_MCAP_LIQUIDITY_RATIO * 10)%Q)
            (Validation.invalidate ;;
             Validation.push (msg
               "Extremely suspicious market cap to liquidity ratio - likely manipulated")))) ;;
    (if TA.isHoneypot trustAssessment then
       Validation.invalidate ;;
       Validation.push
         (Lit "Potential honeypot token: " ::
          match TA.reason trustAssessment with
          | Some (_ :: _ as m) => m
          | _ => [Lit "Low trust score"]
          end)
     else when (JS.lt_uz (TA.trustScore trustAssessment) 40)
       (Validation.push [Lit "Low trust score ("; show_uz (TA.trustScore trustAssessment);
                         Lit "/100) - exercise caution"])) ;;
    when (JS.gt marketCap 1000000 &&
          (match TA.circulatingSupply trustAssessment with
           | Some c => JS.eq c 0
           | None => false
           end || negb (JS.truthy_num (TA.circulatingSupply trustAssessment))))
      (Validation.push (msg
         "High market cap with zero or unreported circulating supply - potential manipulation") ;;
       when (JS.gt marketCap 5000000)
         (Validation.invalidate ;;
          Validation.push (msg
            "Invalid market cap calculation: Cannot have high market cap with zero circulating supply")))
  )%step result.

(** ** The outside world

    The script awaits the price source, reads the summaries directory
    and the clock.  Each answer is a field of [World]; a call either
    returns or throws, and a computation is a function of the world. *)

Inductive Outcome (A : Type) : Type :=
| Thrown (message : string)
| Returned (a : A).
Arguments Thrown {A} message.
Arguments Returned {A} a.

(** One element of the array of [/stats/pools/ADA/{id}]; the amounts
    are numbers, an absent one is [None]. *)
Record Pool : Type := { dex : string; token_1_amount : option Q; token_2_amount : option Q }.

(** The body of [/swap/averagePrice/{a}/{b}]. *)
Record AveragePrice : Type := { price_ba : option Q; price_ab : option Q }.

(** The body of [/swap/token/{id}]; the creation date in milliseconds. *)
Record TokenInfo : Type := { creation_date : option Z }.

(** A parsed [*_summary.json] file. *)
Record Summary : Type := { summary_ticker : option string; summary_circulating_supply : option Q }.

Record World : Type := {
  (* response.data of the pools endpoint: None when it is no array *)
  get_pools : string -> Outcome (option (list Pool));
  (* response.data of the average price endpoint, for the pair a/b *)
  get_averagePrice : string -> string -> Outcome (option AveragePrice);
  get_token : string -> Outcome (option TokenInfo);
  readdirSync : Outcome (list string);
  readSummary : string -> Outcome Summary;
  now : Z
}.

Definition IO (A : Type) : Type := World -> Outcome A.

Definition ret {A : Type} (a : A) : IO A := fun _ => Returned a.

Definition bind {A B : Type} (m : IO A) (k : A -> IO B) : IO B := fun w =>
  match m w with
  | Thrown e => Thrown e
  | Returned a => k a w
  end.

Definition throw {A : Type} (message : string) : IO A := fun _ => Thrown message.

Definition try_catch {A : Type} (m : IO A) (handler : string -> IO A) : IO A := fun w =>
  match m w with
  | Thrown e => handler e w
  | Returned a => Returned a
  end.

(** [await] of a request answered by the world. *)
Definition await {A : Type} (request : World -> Outcome A) : IO A := request.

Declare Scope io_scope.
Delimit Scope io_scope with io.
Bind Scope io_scope with IO.
Notation "x <- m ;; k" := (bind m (fun x => k))
  (at level 61, m at next level, right associativity) : io_scope.

(** ** Weighted price resolver *)

(** The objects [calculateWeightedPrice] returns: four properties are on
    every one of them, the others only on some. *)
Module PA.
Record t : Type := {
  weightedPrice : Q;
  totalLiquidity : Q;
  filteredOutliers : bool;
  poolCount : Z;
  originalPoolCount : option Z;
  medianUsed : option bool;
  suspiciousLiquidity : option bool;
  priceFromAveragePrice : option bool;
  noPoolsFound : option bool;
  emptySuspiciousPools : option bool;
  error : option string
}.
End PA.

(** A pool with its price. *)
Record PricedPool : Type := {
  pp_dex : string; adaAmount : Q; tokenAmount : Q; price : Q; valid : bool
}.

Definition withPrice (pool : Pool) : PricedPool :=
  let adaAmount := JS.or_zero (token_1_amount pool) in
  let tokenAmount := JS.or_zero (token_2_amount pool) in
  if JS.le adaAmount 0 || JS.le tokenAmount 0 then
    {| pp_dex := dex pool; adaAmount := 0; tokenAmount := 0; price := 0; valid := false |}
  else
    let price := (adaAmount / tokenAmount)%Q in
    {| pp_dex := dex pool; adaAmount := adaAmount; tokenAmount := tokenAmount;
       price := price; valid := true |}.

Definition sumAda (l : list PricedPool) : Q :=
  JS.reduce (fun sum pool => (sum + adaAmount pool)%Q) 0%Q l.

Definition length_Z {A : Type} (l : list A) : Z := Z.of_nat (List.length l).

(** The object built from a price of the average price endpoint when the
    source has no pool. *)
Definition averagePriceResult (p : Q) : PA.t :=
  {| PA.weightedPrice := p;
     PA.totalLiquidity := 0;
     PA.filteredOutliers := false;
     PA.poolCount := 0;
     PA.originalPoolCount := Some 0;
     PA.medianUsed := None;
     PA.suspiciousLiquidity := Some true;
     PA.priceFromAveragePrice := Some true;
     PA.noPoolsFound := None;
     PA.emptySuspiciousPools := None;
     PA.error := None |}.

Local Open Scope io_scope.

(** The branch of an empty or missing pool array: both directions of
    the average price endpoint inside one [try], then the zero price. *)
Definition noPoolData (tokenId : string) : IO PA.t :=
  found <-
    try_catch
      (priceResponse <- await (fun w => get_averagePrice w tokenId "ADA") ;;
       let averagePriceResult1 :=
         match priceResponse with
         | Some data =>
             match JS.truthy_value (price_ba data) with
             | Some p => Some (averagePriceResult p)
             | None => None
             end
         | None => None
         end in
       match averagePriceResult1 with
       | Some r => ret (Some r)
       | None =>
           reversePriceResponse <- await (fun w => get_averagePrice w "ADA" tokenId) ;;
           match reversePriceResponse with
           | Some data =>
               match JS.truthy_value (price_ab data) with
               | Some p => ret (Some (averagePriceResult p))
               | None => ret None
               end
           | None => ret None
           end
       end)
      (fun priceError => ret None) ;;
  match found with
  | Some r => ret r
  | None =>
      ret {| PA.weightedPrice := 0;
             PA.totalLiquidity := 0;
             PA.filteredOutliers := false;
             PA.poolCount := 0;
             PA.originalPoolCount := Some 0;
             PA.medianUsed := None;
             PA.suspiciousLiquidity := Some true;
             PA.priceFromAveragePrice := None;
             PA.noPoolsFound := Some true;
             PA.emptySuspiciousPools := None;
             PA.error := None |}
  end.

(** The branch of a non-empty array none of whose pools is valid. *)
Definition emptyPools (tokenId : string) (pools : list Pool) (attemptedAveragePrice : bool)
  : IO PA.t :=
  found <-
    (if negb attemptedAveragePrice then
       try_catch
         (priceResponse <- await (fun w => get_averagePrice w tokenId "ADA") ;;
          match priceResponse with
          | Some data =>
              match JS.truthy_value (price_ba data) with
              | Some p =>
                ret (Some
                  {| PA.weightedPrice := p;
                     PA.totalLiquidity := 0;
                     PA.filteredOutliers := false;
                     PA.poolCount := 0;
                     PA.originalPoolCount := Some (length_Z pools);
                     PA.medianUsed := Some false;
                     PA.suspiciousLiquidity := Some true;
                     PA.priceFromAveragePrice := Some true;
                     PA.noPoolsFound := None;
                     PA.emptySuspiciousPools := Some true;
                     PA.error := None |})
              | None => ret None
              end
          | None => ret None
          end)
         (fun priceError => ret None)
     else ret None) ;;
  match found with
  | Some r => ret r
  | None =>
      ret {| PA.weightedPrice := 0;
             PA.totalLiquidity := 0;
             PA.filteredOutliers := false;
             PA.poolCount := 0;
             PA.originalPoolCount := Some (length_Z pools);
             PA.medianUsed := None;
             PA.suspiciousLiquidity := Some true;
             PA.priceFromAveragePrice := None;
             PA.noPoolsFound := None;
             PA.emptySuspiciousPools := Some true;
             PA.error := None |}
  end.

Definition isOutlier (pool : PricedPool) : bool :=
  JS.gt (price pool) MAX_REASONABLE_PRICE || JS.lt (price pool) MIN_REASONABLE_PRICE.

Definition inRange (pool : PricedPool) : bool :=
  JS.le (price pool) MAX_REASONABLE_PRICE && JS.ge (price pool) MIN_REASONABLE_PRICE.

(** The median branch; the index is always in range there, reading past
    the end would throw. *)
Definition medianFallback (poolsWithPrices : list PricedPool) : IO PA.t :=
  let sortedPrices := JS.sort (fun a b => (price a - price b)%Q) poolsWithPrices in
  match nth_error sortedPrices (List.length sortedPrices / 2) with
  | None => throw "Cannot read properties of undefined (reading 'price')"
  | Some middle =>
      let medianPrice := price middle in
      let cappedPrice := JS.Math_min medianPrice MAX_REASONABLE_PRICE in
      let totalLiquidity := sumAda poolsWithPrices in
      ret {| PA.weightedPrice := cappedPrice;
             PA.totalLiquidity := totalLiquidity;
             PA.filteredOutliers := true;
             PA.poolCount := length_Z poolsWithPrices;
             PA.originalPoolCount := None;
             PA.medianUsed := Some true;
             PA.suspiciousLiquidity := None;
             PA.priceFromAveragePrice := None;
             PA.noPoolsFound := None;
             PA.emptySuspiciousPools := None;
             PA.error := None |}
  end.

(** The liquidity-weighted average over the reasonable pools. *)
Definition weightedAverage (reasonablePools : list PricedPool) (totalLiquidity : Q) : Q :=
  JS.reduce (fun sum pool =>
               let weight := (adaAmount pool / totalLiquidity)%Q in
               (sum + price pool * weight)%Q) 0%Q reasonablePools.

Definition isSuspicious (reasonablePools : list PricedPool) (totalLiquidity : Q) : bool :=
  if (0 <? length_Z reasonablePools)%Z then
    let sortedByLiquidity :=
      JS.sort (fun a b => (adaAmount b - adaAmount a)%Q) reasonablePools in
    (length_Z reasonablePools =? 1)%Z ||
    match sortedByLiquidity with
    | top :: _ => JS.gt (adaAmount top / totalLiquidity)%Q (95 # 100)
    | [] => false
    end
  else false.

Definition calculateWeightedPrice (tokenId : string) : IO PA.t :=
  try_catch
    (pools <- await (fun w => get_pools w tokenId) ;;
     let attemptedAveragePrice := false in
     match pools with
     | None | Some [] => noPoolData tokenId
     | Some pools =>
         let poolsWithPrices := filter valid (map withPrice pools) in
         if (0 <? length_Z pools)%Z && (length_Z poolsWithPrices =? 0)%Z then
           emptyPools tokenId pools attemptedAveragePrice
         else
           let hasExtremeOutliers := existsb isOutlier poolsWithPrices in
           let reasonablePools :=
             if hasExtremeOutliers then filter inRange poolsWithPrices
             else poolsWithPrices in
           if (length_Z reasonablePools =? 0)%Z then medianFallback poolsWithPrices
           else
             let totalLiquidity := sumAda reasonablePools in
             if JS.eq totalLiquidity 0 then
               ret {| PA.weightedPrice := 0;
                      PA.totalLiquidity := 0;
                      PA.filteredOutliers := hasExtremeOutliers;
                      PA.poolCount := length_Z reasonablePools;
                      PA.originalPoolCount := None;
                      PA.medianUsed := None;
                      PA.suspiciousLiquidity := None;
                      PA.priceFromAveragePrice := None;
                      PA.noPoolsFound := None;
                      PA.emptySuspiciousPools := None;
                      PA.error := None |}
             else
               let suspiciousLiquidity := isSuspicious reasonablePools totalLiquidity in
               let weightedPrice := weightedAverage reasonablePools totalLiquidity in
               ret {| PA.weightedPrice := weightedPrice;
                      PA.totalLiquidity := totalLiquidity;
                      PA.filteredOutliers := hasExtremeOutliers;
                      PA.poolCount := length_Z reasonablePools;
                      PA.originalPoolCount := Some (length_Z pools);
                      PA.medianUsed := Some suspiciousLiquidity;
                      PA.suspiciousLiquidity := Some suspiciousLiquidity;
                      PA.priceFromAveragePrice := Some false;
                      PA.noPoolsFound := None;
                      PA.emptySuspiciousPools := None;
                      PA.error := None |}
     end)
    (fun message =>
       ret {| PA.weightedPrice := 0;
              PA.totalLiquidity := 0;
              PA.filteredOutliers := false;
              PA.poolCount := 0;
              PA.originalPoolCount := None;
              PA.medianUsed := None;
              PA.suspiciousLiquidity := None;
              PA.priceFromAveragePrice := None;
              PA.noPoolsFound := None;
              PA.emptySuspiciousPools := None;
              PA.error := Some message |}).

(** ** Enrichment of one token *)

(** A token summary as loaded from local storage. *)
Module Token.
Record t : Type := {
  token_id : string;
  ticker : option string;
  name : option string;
  circulating_supply : option Q;
  total_supply : option Q
}.
End Token.

(** The [trust_assessment] property of an enhanced token. *)
Record TrustSummary : Type := {
  ts_score : Z;
  ts_level : TrustLevel;
  ts_penalties : list Adjustment;
  ts_bonuses : list Adjustment
}.

(** An element of the array the report is generated from: an enhanced
    token, the error object of a failed enhancement or a bare summary.
    A property an object does not have is [None]. *)
Module ET.
Record t : Type := {
  token_id : string;
  error : option string;
  ticker : option string;
  token_ascii : option string;
  market_cap : option Q;
  price : option Q;
  liquidity : option Q;
  circulating_supply : option Q;
  total_supply : option Q;
  outliers_filtered : option bool;
  pool_count : option Z;
  original_pool_count : option Z;
  median_used : option bool;
  suspicious_liquidity : option bool;
  price_from_average_price : option bool;
  mcap_liquidity_ratio : option Frag;
  token_age : option Q;
  trust_assessment : option TrustSummary;
  honeypot_risk : option bool;
  validation : option Validation.t;
  updated_at : option Z
}.
End ET.

Definition getTokenInfo (tokenId : string) : IO (option TokenInfo) :=
  try_catch (await (fun w => get_token w tokenId)) (fun message => ret None).

(** The loop over the other summaries of the directory; a file that
    cannot be read or parsed is skipped, the first hit ends the loop. *)
Fixpoint scanSimilar (token : Token.t) (circulating marketCap totalLiquidity : Q)
    (files : list string) : IO bool :=
  match files with
  | [] => ret false
  | file :: rest =>
      hit <-
        try_catch
          (similarTokenData <- await (fun w => readSummary w file) ;;
           ret (match summary_ticker similarTokenData, Token.ticker token with
                | Some theirs, Some ours =>
                    JS.truthy_str (Some theirs) && JS.truthy_str (Some ours) &&
                    (JS.str_includes theirs ours || JS.str_includes ours theirs) &&
                    (JS.gt_u (summary_circulating_supply similarTokenData) 0 &&
                     JS.eq circulating 0 &&
                     JS.gt marketCap 1000000 && JS.gt totalLiquidity 100000)
                | _, _ => false
                end))
          (fun err => ret false) ;;
      if hit then ret true else scanSimilar token circulating marketCap totalLiquidity rest
  end.

Definition detectCopycat (token : Token.t) (circulating marketCap totalLiquidity : Q) : IO bool :=
  if JS.truthy_str (Token.ticker token) then
    try_catch
      (files <- await readdirSync ;;
       let similarTokenFiles :=
         filter (fun file => JS.endsWith file "_summary.json" &&
                             negb (JS.startsWith file (Token.token_id token))) files in
       scanSimilar token circulating marketCap totalLiquidity similarTokenFiles)
      (fun err => ret false)
  else ret false.

Definition enhanceTokenData (token : Token.t) : IO ET.t :=
  try_catch
    (tokenInfo <- getTokenInfo (Token.token_id token) ;;
     pa <- calculateWeightedPrice (Token.token_id token) ;;
     let weightedPrice := PA.weightedPrice pa in
     let totalLiquidity := PA.totalLiquidity pa in
     let circulating :=
       if JS.gt_u (Token.circulating_supply token) 0 then JS.or_zero (Token.circulating_supply token)
       else 0%Q in
     let supply :=
       if negb (JS.eq circulating 0) then circulating else JS.or_zero (Token.total_supply token) in
     let marketCap :=
       (weightedPrice * (if negb (JS.eq circulating 0) then circulating else supply))%Q in
     time <- await (fun w => Returned (now w)) ;;
     let tokenAge :=
       match tokenInfo with
       | Some info =>
           match creation_date info with
           | Some creationDate =>
               inject_Z ((time - creationDate) / (1000 * 60 * 60 * 24))
           | None => 0%Q
           end
       | None => 0%Q
       end in
     potentialCopycatDetected <- detectCopycat token circulating marketCap totalLiquidity ;;
     let supplyDiscrepancy := potentialCopycatDetected in
     let scored :=
       calculateTrustScore (Token.token_id token) (PA.poolCount pa) (PA.suspiciousLiquidity pa)
         totalLiquidity marketCap circulating (Token.ticker token) (Some tokenAge)
         (PA.priceFromAveragePrice pa) in
     let trustAssessment :=
       {| TA.score := TA.score scored;
          TA.trustLevel := TA.trustLevel scored;
          TA.isHoneypot := TA.isHoneypot scored;
          TA.penalties := TA.penalties scored;
          TA.bonuses := TA.bonuses scored;
          TA.priceFromAveragePrice := TA.priceFromAveragePrice scored;
          TA.potentialCopycatDetected := Some potentialCopycatDetected;
          TA.supplyDiscrepancy := Some supplyDiscrepancy;
          TA.noPoolsFound := PA.noPoolsFound pa;
          TA.emptySuspiciousPools := PA.emptySuspiciousPools pa;
          TA.circulatingSupply := Some circulating;
          TA.trustScore := TA.trustScore scored;
          TA.reason := TA.reason scored |} in
     let honeypotRisk := TA.isHoneypot trustAssessment || potentialCopycatDetected in
     let validation := validateMarketCap marketCap totalLiquidity trustAssessment in
     let mcapLiquidityRatio :=
       if JS.gt totalLiquidity 0 then Fixed2 (marketCap / totalLiquidity)%Q else Lit "N/A" in
     ret {| ET.token_id := Token.token_id token;
            ET.error := None;
            ET.ticker := Token.ticker token;
            ET.token_ascii := Token.name token;
            ET.market_cap := Some marketCap;
            ET.price := Some weightedPrice;
            ET.liquidity := Some totalLiquidity;
            ET.circulating_supply := Some circulating;
            ET.total_supply := None;
            ET.outliers_filtered := Some (PA.filteredOutliers pa);
            ET.pool_count := Some (PA.poolCount pa);
            ET.original_pool_count := PA.originalPoolCount pa;
            ET.median_used := PA.medianUsed pa;
            ET.suspicious_liquidity := PA.suspiciousLiquidity pa;
            ET.price_from_average_price := PA.priceFromAveragePrice pa;
            ET.mcap_liquidity_ratio := Some mcapLiquidityRatio;
            ET.token_age := Some tokenAge;
            ET.trust_assessment :=
              Some {| ts_score := TA.score trustAssessment;
                      ts_level := TA.trustLevel trustAssessment;
                      ts_penalties := TA.penalties trustAssessment;
                      ts_bonuses := TA.bonuses trustAssessment |};
            ET.honeypot_risk := Some honeypotRisk;
            ET.validation := Some validation;
            ET.updated_at := Some time |})
    (fun message => fun w =>
       Returned
         {| ET.token_id := Token.token_id token;
            ET.error := Some message;
            ET.ticker := None;
            ET.token_ascii := None;
            ET.market_cap := None;
            ET.price := None;
            ET.liquidity := None;
            ET.circulating_supply := None;
            ET.total_supply := None;
            ET.outliers_filtered := None;
            ET.pool_count := None;
            ET.original_pool_count := None;
            ET.median_used := None;
            ET.suspicious_liquidity := None;
            ET.price_from_average_price := None;
            ET.mcap_liquidity_ratio := None;
            ET.token_age := None;
            ET.trust_assessment := None;
            ET.honeypot_risk := None;
            ET.validation := None;
            ET.updated_at := Some (now w) |}).

(** ** Market cap report *)

Record ValidationParameters : Type := {
  min_liquidity_threshold : Q;
  max_mcap_liquidity_ratio : Q;
  min_pools_required : Z
}.

Record Report : Type := {
  total_tokens : nat;
  tokens_with_market_cap : nat;
  tokens_with_price : nat;
  tokens_with_total_supply : nat;
  tokens_with_circulating_supply : nat;
  tokens_with_liquidity : nat;
  tokens_with_filtered_outliers : nat;
  potential_honeypot_tokens : nat;
  tokens_with_invalid_market_caps : nat;
  tokens_with_valid_market_caps : nat;
  validation_parameters : ValidationParameters;
  generated_at : Z;
  top_tokens_by_market_cap_valid : list ET.t
}.

(** [token.trust_assessment && token.trust_assessment.score >= n] *)
Definition scoreAtLeast (n : Z) (token : ET.t) : bool :=
  match ET.trust_assessment token with
  | Some ta => (ts_score ta >=? n)%Z
  | None => false
  end.

Definition scoreBelow (n : Z) (token : ET.t) : bool :=
  match ET.trust_assessment token with
  | Some ta => (ts_score ta <? n)%Z
  | None => false
  end.

(** [b.market_cap - a.market_cap]; with an absent operand the
    difference is NaN, which a sort takes for 0. *)
Definition byMarketCapDesc (a b : ET.t) : Q :=
  match ET.market_cap b, ET.market_cap a with
  | Some y, Some x => (y - x)%Q
  | _, _ => 0%Q
  end.

Definition generateMarketCapReport (enhancedTokens : list ET.t) (w : World) : Report :=
  let HIGH_TRUST_THRESHOLD := 80%Z in
  let MODERATE_TRUST_THRESHOLD := 40%Z in
  let tokensWithMarketCap := filter (fun token => JS.gt_u (ET.market_cap token) 0) enhancedTokens in
  let tokensWithPrice := filter (fun token => JS.gt_u (ET.price token) 0) enhancedTokens in
  let tokensWithTotalSupply :=
    filter (fun token => JS.gt_u (ET.total_supply token) 0) enhancedTokens in
  let tokensWithCirculatingSupply :=
    filter (fun token => JS.gt_u (ET.circulating_supply token) 0) enhancedTokens in
  let tokensWithLiquidity := filter (fun token => JS.gt_u (ET.liquidity token) 0) enhancedTokens in
  let tokensWithFilteredOutliers :=
    filter (fun token => JS.truthy_bool (ET.outliers_filtered token)) enhancedTokens in
  let potentialHoneypotTokens :=
    filter (fun token => JS.truthy_bool (ET.honeypot_risk token)) enhancedTokens in
  let highTrustTokens := filter (scoreAtLeast HIGH_TRUST_THRESHOLD) enhancedTokens in
  let moderateTrustTokens :=
    filter (fun token => scoreAtLeast MODERATE_TRUST_THRESHOLD token &&
                         scoreBelow HIGH_TRUST_THRESHOLD token) enhancedTokens in
  let validMarketCapTokens :=
    filter (fun token => JS.gt_u (ET.market_cap token) 0 &&
                         scoreAtLeast MODERATE_TRUST_THRESHOLD token) enhancedTokens in
  let invalidMarketCapTokens :=
    filter (fun token => JS.gt_u (ET.market_cap token) 0 &&
                         (match ET.trust_assessment token with None => true | Some _ => false end
                          || scoreBelow MODERATE_TRUST_THRESHOLD token)) enhancedTokens in
  let sortedByMarketCap := JS.sort byMarketCapDesc validMarketCapTokens in
  {| total_tokens := List.length enhancedTokens;
     tokens_with_market_cap := List.length tokensWithMarketCap;
     tokens_with_price := List.length tokensWithPrice;
     tokens_with_total_supply := List.length tokensWithTotalSupply;
     tokens_with_circulating_supply := List.length tokensWithCirculatingSupply;
     tokens_with_liquidity := List.length tokensWithLiquidity;
     tokens_with_filtered_outliers := List.length tokensWithFilteredOutliers;
     potential_honeypot_tokens := List.length potentialHoneypotTokens;
     tokens_with_invalid_market_caps := List.length invalidMarketCapTokens;
     tokens_with_valid_market_caps := List.length validMarketCapTokens;
     validation_parameters :=
       {| min_liquidity_threshold := MIN_LIQUIDITY_THRESHOLD;
          max_mcap_liquidity_ratio := MAX_MCAP_LIQUIDITY_RATIO;
          min_pools_required := MIN_POOLS_REQUIRED |};
     generated_at := now w;
     top_tokens_by_market_cap_valid := sortedByMarketCap |}.

(** * The rest of the script

    The legacy check, and the run around the enrichment: loading the
    summaries, the batches, storing the records and [main].  The file
    system is a [Storage]; what a run does beside its requests is the
    list of its [Effect]s. *)

(** ** Legacy honeypot check *)

(** The string a trust level is in the script. *)
Definition levelName (level : TrustLevel) : string :=
  match level with
  | VeryLow => "Very Low"
  | Low => "Low"
  | Moderate => "Moderate"
  | Good => "Good"
  | High => "High"
  end.

(** The object [checkHoneypot] returns. *)
Module HC.
Record t : Type := { isHoneypot : bool; reason : option Message; trustScore : Z }.
End HC.

(** The legacy check: the scorer without age and fallback flag, and for
    a honeypot the reason of the penalty that sorts first by points. *)
Definition checkHoneypot (tokenId : string) (poolCount : Z)
    (suspiciousLiquidity : option bool) (totalLiquidity marketCap circulatingSupply : Q)
    (ticker : option string) : Outcome HC.t :=
  let ticker := match ticker with Some t => Some t | None => Some EmptyString end in
  let trustAssessment :=
    calculateTrustScore tokenId poolCount suspiciousLiquidity totalLiquidity marketCap
      circulatingSupply ticker None None in
  if TA.isHoneypot trustAssessment then
    let reason :=
      [Lit "Low trust score ("; Int (TA.score trustAssessment); Lit "/100, ";
       Lit (levelName (TA.trustLevel trustAssessment)); Lit " trust)"] in
    if (0 <? length_Z (TA.penalties trustAssessment))%Z then
      let sortedPenalties :=
        JS.sort (fun a b => inject_Z (points a - points b)) (TA.penalties trustAssessment) in
      match sortedPenalties with
      | {| reason := firstReason |} :: _ =>
          Returned {| HC.isHoneypot := true;
                      HC.reason := Some (reason ++ Lit ": " :: firstReason);
                      HC.trustScore := TA.score trustAssessment |}
      | [] => Thrown "Cannot read properties of undefined (reading 'reason')"
      end
    else
      Returned {| HC.isHoneypot := true;
                  HC.reason := Some reason;
                  HC.trustScore := TA.score trustAssessment |}
  else
    Returned {| HC.isHoneypot := false;
                HC.reason := None;
                HC.trustScore := TA.score trustAssessment |}.

(** ** Local storage *)

(** A parsed summary file as [loadLocalTokenData] sees it: the object
    may have no [token_id]. *)
Record StoredToken : Type := {
  stored_token_id : option string;
  stored_ticker : option string;
  stored_name : option string;
  stored_circulating_supply : option Q;
  stored_total_supply : option Q
}.

(** A file the script writes: [path.join(SUMMARIES_DIR, file)] with the
    name it is given, or the report file. *)
Inductive Path : Type :=
| InSummaries (file : string)
| MarketCapReport.

(** The file system beside the listing of the summaries directory,
    which the world answers: whether the directory exists, what
    [JSON.parse(fs.readFileSync(filePath, 'utf8'))] gives for a file of
    the directory, and whether the write number [n] of a run, at a path,
    throws. *)
Record Storage : Type := {
  existsSync : bool;
  readTokenFile : string -> Outcome StoredToken;
  writeFileSync : nat -> Path -> Outcome unit
}.

(** What a run leaves behind: the delays between batches, the files
    written, with the value that is serialized, and the exit code of a
    run that ends in [process.exit]. *)
Inductive Content : Type :=
| TokenJSON (token : ET.t)
| ReportJSON (report : Report).

Inductive Effect : Type :=
| Wait (ms : Z)
| WriteFile (path : Path) (content : Content)
| Exit (code : Z).

Definition asToken (id : string) (data : StoredToken) : Token.t :=
  {| Token.token_id := id;
     Token.ticker := stored_ticker data;
     Token.name := stored_name data;
     Token.circulating_supply := stored_circulating_supply data;
     Token.total_supply := stored_total_supply data |}.

(** The loop over the summary files: a file that cannot be read or
    parsed is skipped, and so is one without a [token_id]. *)
Fixpoint loadFiles (s : Storage) (files : list string) (tokens : list Token.t)
  : list Token.t :=
  match files with
  | [] => tokens
  | file :: rest =>
      match readTokenFile s file with
      | Returned data =>
          match stored_token_id data with
          | Some id =>
              if JS.truthy_str (Some id) then loadFiles s rest (tokens ++ [asToken id data])%list
              else loadFiles s rest tokens
          | None => loadFiles s rest tokens
          end
      | Thrown err => loadFiles s rest tokens
      end
  end.

Definition loadLocalTokenData (s : Storage) : IO (list Token.t) :=
  try_catch
    (if negb (existsSync s) then ret []
     else
       listing <- await readdirSync ;;
       let files := filter (fun file => JS.endsWith file "_summary.json") listing in
       ret (loadFiles s files []))
    (fun error => ret []).

(** ** Batches *)

Definition BATCH_DELAY_MS : Z := 2000.

(** The original token data, pushed for a rejected enhancement, seen
    through the properties a record of the results is read by; its
    [name] is none of them. *)
Definition fallbackRecord (token : Token.t) : ET.t :=
  {| ET.token_id := Token.token_id token;
     ET.error := None;
     ET.ticker := Token.ticker token;
     ET.token_ascii := None;
     ET.market_cap := None;
     ET.price := None;
     ET.liquidity := None;
     ET.circulating_supply := Token.circulating_supply token;
     ET.total_supply := Token.total_supply token;
     ET.outliers_filtered := None;
     ET.pool_count := None;
     ET.original_pool_count := None;
     ET.median_used := None;
     ET.suspicious_liquidity := None;
     ET.price_from_average_price := None;
     ET.mcap_liquidity_ratio := None;
     ET.token_age := None;
     ET.trust_assessment := None;
     ET.honeypot_risk := None;
     ET.validation := None;
     ET.updated_at := None |}.

(** [Promise.allSettled] over a batch whose first token is token number
    [i] of the run; [worlds k] is the world the enhancement of token
    number [k] runs in. *)
Fixpoint settleBatch (worlds : nat -> World) (i : nat) (batch : list Token.t) : list ET.t :=
  match batch with
  | [] => []
  | token :: rest =>
      match enhanceTokenData token (worlds i) with
      | Returned value => value
      | Thrown reason => fallbackRecord token
      end :: settleBatch worlds (S i) rest
  end.

Definition slice {A : Type} (l : list A) (from to : nat) : list A :=
  firstn (to - from) (skipn from l).

(** The [for] loop, from index [i] on; [None] when the fuel runs out. *)
Fixpoint batchLoop (fuel : nat) (worlds : nat -> World) (tokens : list Token.t) (i : nat)
    (results : list ET.t) (effects : list Effect) : option (list ET.t * list Effect) :=
  match fuel with
  | O => None
  | S fuel' =>
      if (i <? List.length tokens)%nat then
        let batch := slice tokens i (i + BATCH_SIZE) in
        let batchResults := settleBatch worlds i batch in
        let results := (results ++ batchResults)%list in
        let effects :=
          if (i + BATCH_SIZE <? List.length tokens)%nat
          then (effects ++ [Wait BATCH_DELAY_MS])%list else effects in
        batchLoop fuel' worlds tokens (i + BATCH_SIZE) results effects
      else Some (results, effects)
  end.

Definition batchProcessTokens (worlds : nat -> World) (tokens : list Token.t)
  : option (list ET.t * list Effect) :=
  batchLoop (S (List.length tokens)) worlds tokens 0 [] [].

(** ** Storing the enhanced tokens *)

Definition enhancedFileName (token_id : string) : string :=
  (token_id ++ "_enhanced_refined.json")%string.

(** The [forEach] over the token data; [n] writes were made before.
    The writes made are returned also when a later one throws. *)
Fixpoint storeEnhancedTokenData (s : Storage) (n : nat) (tokenData : list ET.t)
  : list Effect * Outcome unit :=
  match tokenData with
  | [] => ([], Returned tt)
  | token :: rest =>
      if JS.truthy_str (Some (ET.token_id token)) then
        let filePath := InSummaries (enhancedFileName (ET.token_id token)) in
        match writeFileSync s n filePath with
        | Thrown e => ([], Thrown e)
        | Returned _ =>
            let (effects, outcome) := storeEnhancedTokenData s (S n) rest in
            (WriteFile filePath (TokenJSON token) :: effects, outcome)
        end
      else storeEnhancedTokenData s n rest
  end.

(** ** The run of the script *)

(** [main], from the state of the storage and the world at its start,
    the worlds the tokens are enhanced in and the world the report is
    generated in; [None] only when the batches run out of fuel. *)
Definition main (s : Storage) (start : World) (worlds : nat -> World) (finish : World)
  : option (list Effect) :=
  match loadLocalTokenData s start with
  | Thrown error => Some [Exit 1]
  | Returned tokens =>
      if (List.length tokens =? 0)%nat then Some [Exit 1]
      else
        match batchProcessTokens worlds tokens with
        | None => None
        | Some (enhancedTokens, waits) =>
            let (writes, stored) := storeEnhancedTokenData s 0 enhancedTokens in
            match stored with
            | Thrown error => Some (waits ++ writes ++ [Exit 1])%list
            | Returned _ =>
                let report := generateMarketCapReport enhancedTokens finish in
                match writeFileSync s (List.length writes) MarketCapReport with
                | Thrown error => Some (waits ++ writes ++ [Exit 1])%list
                | Returned _ =>
                    Some (waits ++ writes ++ [WriteFile MarketCapReport (ReportJSON report)])%list
                end
            end
        end
  end.

(** * Vocabulary of the properties

    The notions the statements below are written in: what the scorer
    records, the tiers and pools as the specification words them, the
    objects of the resolver's branches, and worlds for the examples. *)

(** The ten steps of the scorer, in the order of the script. *)
Definition steps (tokenId : string) (poolCount : Z) (suspiciousLiquidity : option bool)
    (totalLiquidity marketCap circulatingSupply : Q) (ticker : option string)
    (tokenAge : Q) (priceFromAveragePrice : bool) : list Step :=
  [ whitelistCheck tokenId;
    blacklistCheck tokenId;
    copycatCheck marketCap ticker;
    supplyDiscrepancyCheck totalLiquidity marketCap circulatingSupply;
    manipulationCheck totalLiquidity marketCap circulatingSupply;
    poolCountAssessment poolCount totalLiquidity marketCap circulatingSupply ticker
      priceFromAveragePrice;
    liquidityAssessment totalLiquidity;
    distributionAssessment suspiciousLiquidity totalLiquidity;
    ratioAssessment totalLiquidity marketCap;
    ageAssessment tokenAge ].

Definition sumPoints (l : list Adjustment) : Z :=
  fold_right (fun a s => points a + s) 0 l.

(** What the score holds beyond the recorded points. *)
Definition unrecorded (t : Tally) : Z :=
  score t - sumPoints (penalties t) - sumPoints (bonuses t).

Definition signed (t : Tally) : Prop :=
  Forall (fun a => points a < 0) (penalties t) /\
  Forall (fun a => 0 < points a) (bonuses t).

(** A step is faithful when each change of the score comes with a
    record of the same amount, on the side of its sign. *)
Definition Faithful (f : Step) : Prop :=
  forall t, unrecorded (f t) = unrecorded t /\ (signed t -> signed (f t)).

(** No step reads the tally it updates: what a step records and adds
    is what it records and adds from the initial tally, appended. *)
Definition recordedPenalties (f : Step) : list Adjustment := penalties (f initialTally).
Definition recordedBonuses (f : Step) : list Adjustment := bonuses (f initialTally).
Definition delta (f : Step) : Z := score (f initialTally) - 100.

Definition Appends (f : Step) : Prop :=
  forall t,
    penalties (f t) = penalties t ++ recordedPenalties f /\
    bonuses (f t) = bonuses t ++ recordedBonuses f /\
    score (f t) = score t + delta f.



(** The steps of the scorer without the pool count assessment. *)
Definition otherSteps (tokenId : string) (suspiciousLiquidity : option bool)
    (totalLiquidity marketCap circulatingSupply : Q) (ticker : option string) (tokenAge : Q)
  : list Step :=
  [ whitelistCheck tokenId;
    blacklistCheck tokenId;
    copycatCheck marketCap ticker;
    supplyDiscrepancyCheck totalLiquidity marketCap circulatingSupply;
    manipulationCheck totalLiquidity marketCap circulatingSupply;
    liquidityAssessment totalLiquidity;
    distributionAssessment suspiciousLiquidity totalLiquidity;
    ratioAssessment totalLiquidity marketCap;
    ageAssessment tokenAge ].

(** The reason of the bonus for a good number of pools. *)
Definition goodPoolCount (n : Z) : Message :=
  [Lit "Good number of liquidity pools ("; Int n; Lit ")"].

(** What a lookup of the average price endpoint yields for one field:
    the price when the call returns a body with a truthy field. *)
Definition lookup (w : World) (a b : string) (field : AveragePrice -> option Q) : option Q :=
  match get_averagePrice w a b with
  | Returned (Some data) => JS.truthy_value (field data)
  | _ => None
  end.

Definition lookupThrows (w : World) (a b : string) : bool :=
  match get_averagePrice w a b with
  | Thrown _ => true
  | Returned _ => false
  end.

(** The object of the zero price when the source has no pool. *)
Definition noPoolsResult : PA.t :=
  {| PA.weightedPrice := 0;
     PA.totalLiquidity := 0;
     PA.filteredOutliers := false;
     PA.poolCount := 0;
     PA.originalPoolCount := Some 0;
     PA.medianUsed := None;
     PA.suspiciousLiquidity := Some true;
     PA.priceFromAveragePrice := None;
     PA.noPoolsFound := Some true;
     PA.emptySuspiciousPools := None;
     PA.error := None |}.

(** A world that answers the pools request with [pools] and the two
    directions of the average price request with [forward] and
    [backward]. *)
Definition world (pools : Outcome (option (list Pool)))
    (forward backward : Outcome (option AveragePrice)) : World :=
  {| get_pools := fun _ => pools;
     get_averagePrice := fun a b => if String.eqb b "ADA" then forward else backward;
     get_token := fun _ => Returned None;
     readdirSync := Returned [];
     readSummary := fun _ => Thrown "ENOENT";
     now := 0 |}.

(** The two sides of a pool as the script reads them. *)
Definition baseAmount (pool : Pool) : Q := JS.or_zero (token_1_amount pool).
Definition quoteAmount (pool : Pool) : Q := JS.or_zero (token_2_amount pool).

(** Both sides above zero. *)
Definition usable (pool : Pool) : bool :=
  JS.gt (baseAmount pool) 0 && JS.gt (quoteAmount pool) 0.

(** The object of the zero price when no pool of the array is valid. *)
Definition emptyPoolsResult (pools : list Pool) : PA.t :=
  {| PA.weightedPrice := 0;
     PA.totalLiquidity := 0;
     PA.filteredOutliers := false;
     PA.poolCount := 0;
     PA.originalPoolCount := Some (length_Z pools);
     PA.medianUsed := None;
     PA.suspiciousLiquidity := Some true;
     PA.priceFromAveragePrice := None;
     PA.noPoolsFound := None;
     PA.emptySuspiciousPools := Some true;
     PA.error := None |}.

(** The object of the fallback price when no pool of the array is
    valid. *)
Definition emptyPoolsFallback (pools : list Pool) (p : Q) : PA.t :=
  {| PA.weightedPrice := p;
     PA.totalLiquidity := 0;
     PA.filteredOutliers := false;
     PA.poolCount := 0;
     PA.originalPoolCount := Some (length_Z pools);
     PA.medianUsed := Some false;
     PA.suspiciousLiquidity := Some true;
     PA.priceFromAveragePrice := Some true;
     PA.noPoolsFound := None;
     PA.emptySuspiciousPools := Some true;
     PA.error := None |}.


(** The unit price of a pool: base side over quote side. *)
Definition unitPrice (pool : Pool) : Q := (baseAmount pool / quoteAmount pool)%Q.

(** A pool is reasonable when it is usable and its price lies within
    [MIN_REASONABLE_PRICE, MAX_REASONABLE_PRICE]. *)
Definition reasonable (pool : Pool) : bool :=
  usable pool &&
  (JS.le (unitPrice pool) MAX_REASONABLE_PRICE && JS.ge (unitPrice pool) MIN_REASONABLE_PRICE).

(** The sum of the base sides. *)
Definition liquiditySum (pools : list Pool) : Q :=
  fold_right (fun pool s => (baseAmount pool + s)%Q) 0%Q pools.

(** The sum of price x (liquidity / total). *)
Definition liquidityWeighted (total : Q) (pools : list Pool) : Q :=
  fold_right (fun pool s => (unitPrice pool * (baseAmount pool / total) + s)%Q) 0%Q pools.

(** A token enters the ranked list with a market cap above zero and a
    trust assessment whose score is at least 40. *)
Definition rankable (token : ET.t) : Prop :=
  (exists marketCap, ET.market_cap token = Some marketCap /\ (0 < marketCap)%Q) /\
  (exists ta, ET.trust_assessment token = Some ta /\ 40 <= ts_score ta).

(** [a] is listed before [b]: the market cap of [a] is at least that of
    [b]. *)
Definition marketCapDescending (a b : ET.t) : Prop :=
  match ET.market_cap a, ET.market_cap b with
  | Some x, Some y => (y <= x)%Q
  | _, _ => False
  end.

Definition validMarketCap (token : ET.t) : bool :=
  JS.gt_u (ET.market_cap token) 0 && scoreAtLeast 40 token.

(** The caution message for a low trust score. *)
Definition lowScoreCaution (s : option Z) : Message :=
  [Lit "Low trust score ("; show_uz s; Lit "/100) - exercise caution"].

Definition isCaution (m : Message) : bool :=
  match m with
  | Lit s :: _ => String.eqb s "Low trust score ("
  | _ => false
  end.

(** A step of the validator that records no message of the given kind. *)
Definition Quiet (kind : Message -> bool) (f : Upd Validation.t) : Prop :=
  forall r,
    Forall (fun m => kind m = false) (Validation.reasons r) ->
    Forall (fun m => kind m = false) (Validation.reasons (f r)).

(** A step of the validator that keeps what is recorded. *)
Definition Keeps (f : Upd Validation.t) : Prop :=
  forall r m, In m (Validation.reasons r) -> In m (Validation.reasons (f r)).

Definition isNoPoolsReason (m : Message) : bool :=
  match m with
  | Lit s :: _ =>
      String.eqb s
        "No liquidity pools found despite significant market cap - exercise extreme caution"
  | _ => false
  end.

(** ** Vocabulary of the further properties *)

(** The object of the outer catch. *)
Definition errorResult (message : string) : PA.t :=
  {| PA.weightedPrice := 0;
     PA.totalLiquidity := 0;
     PA.filteredOutliers := false;
     PA.poolCount := 0;
     PA.originalPoolCount := None;
     PA.medianUsed := None;
     PA.suspiciousLiquidity := None;
     PA.priceFromAveragePrice := None;
     PA.noPoolsFound := None;
     PA.emptySuspiciousPools := None;
     PA.error := Some message |}.

(** The object of the median branch. *)
Definition medianResult (poolsWithPrices : list PricedPool) (middle : PricedPool) : PA.t :=
  {| PA.weightedPrice := JS.Math_min (price middle) MAX_REASONABLE_PRICE;
     PA.totalLiquidity := sumAda poolsWithPrices;
     PA.filteredOutliers := true;
     PA.poolCount := length_Z poolsWithPrices;
     PA.originalPoolCount := None;
     PA.medianUsed := Some true;
     PA.suspiciousLiquidity := None;
     PA.priceFromAveragePrice := None;
     PA.noPoolsFound := None;
     PA.emptySuspiciousPools := None;
     PA.error := None |}.

(** The object of the weighted average. *)
Definition weightedResult (pools : list Pool) : PA.t :=
  let reasonablePools := map withPrice (filter reasonable pools) in
  let totalLiquidity := sumAda reasonablePools in
  {| PA.weightedPrice := weightedAverage reasonablePools totalLiquidity;
     PA.totalLiquidity := totalLiquidity;
     PA.filteredOutliers := existsb isOutlier (map withPrice (filter usable pools));
     PA.poolCount := length_Z reasonablePools;
     PA.originalPoolCount := Some (length_Z pools);
     PA.medianUsed := Some (isSuspicious reasonablePools totalLiquidity);
     PA.suspiciousLiquidity := Some (isSuspicious reasonablePools totalLiquidity);
     PA.priceFromAveragePrice := Some false;
     PA.noPoolsFound := None;
     PA.emptySuspiciousPools := None;
     PA.error := None |}.

(** The five ways [calculateWeightedPrice] answers, by what the source
    returned. *)
Inductive Resolved (w : World) (tokenId : string) : PA.t -> Prop :=
| PoolsThrew (message : string) :
    get_pools w tokenId = Thrown message ->
    Resolved w tokenId (errorResult message)
| NoPools :
    get_pools w tokenId = Returned None \/ get_pools w tokenId = Returned (Some []) ->
    Resolved w tokenId
      match lookup w tokenId "ADA" price_ba with
      | Some p => averagePriceResult p
      | None =>
          if lookupThrows w tokenId "ADA" then noPoolsResult
          else match lookup w "ADA" tokenId price_ab with
               | Some p => averagePriceResult p
               | None => noPoolsResult
               end
      end
| AllInvalid (pools : list Pool) :
    get_pools w tokenId = Returned (Some pools) ->
    pools <> [] ->
    filter usable pools = [] ->
    Resolved w tokenId
      match lookup w tokenId "ADA" price_ba with
      | Some p => emptyPoolsFallback pools p
      | None => emptyPoolsResult pools
      end
| AllOutliers (pools : list Pool) (middle : PricedPool) :
    get_pools w tokenId = Returned (Some pools) ->
    filter usable pools <> [] ->
    filter reasonable pools = [] ->
    let poolsWithPrices := map withPrice (filter usable pools) in
    let sortedPrices := JS.sort (fun a b => (price a - price b)%Q) poolsWithPrices in
    nth_error sortedPrices (List.length sortedPrices / 2) = Some middle ->
    Resolved w tokenId (medianResult poolsWithPrices middle)
| Averaged (pools : list Pool) :
    get_pools w tokenId = Returned (Some pools) ->
    filter reasonable pools <> [] ->
    Resolved w tokenId (weightedResult pools).

(** A usable pool whose price is outside the reasonable range. *)
Definition outOfRange (pool : Pool) : Prop :=
  (MAX_REASONABLE_PRICE < unitPrice pool)%Q \/ (unitPrice pool < MIN_REASONABLE_PRICE)%Q.

(** A step of the validator that turns a result invalid exactly when
    [b] holds. *)
Definition Verdict (b : bool) (f : Upd Validation.t) : Prop :=
  forall r, Validation.valid (f r) = Validation.valid r && negb b.


(** The circulating supply [enhanceTokenData] works with: the reported
    one when it is above zero, else 0. *)
Definition circulatingOf (token : Token.t) : Q :=
  if JS.gt_u (Token.circulating_supply token) 0
  then JS.or_zero (Token.circulating_supply token) else 0%Q.

(** The supply the market cap is computed from: the circulating supply,
    else the total supply, else 0. *)
Definition supplyOf (token : Token.t) : Q :=
  if negb (JS.eq (circulatingOf token) 0) then circulatingOf token
  else JS.or_zero (Token.total_supply token).

(** The assessment of the scorer with the five properties
    [enhanceTokenData] attaches. *)
Definition attachFlags (scored : TA.t) (copycat : bool) (pa : PA.t) (circulating : Q) : TA.t :=
  {| TA.score := TA.score scored;
     TA.trustLevel := TA.trustLevel scored;
     TA.isHoneypot := TA.isHoneypot scored;
     TA.penalties := TA.penalties scored;
     TA.bonuses := TA.bonuses scored;
     TA.priceFromAveragePrice := TA.priceFromAveragePrice scored;
     TA.potentialCopycatDetected := Some copycat;
     TA.supplyDiscrepancy := Some copycat;
     TA.noPoolsFound := PA.noPoolsFound pa;
     TA.emptySuspiciousPools := PA.emptySuspiciousPools pa;
     TA.circulatingSupply := Some circulating;
     TA.trustScore := TA.trustScore scored;
     TA.reason := TA.reason scored |}.

(** What [enhanceTokenData] returns for [token], from the assessment
    [pa] of the resolver, the age of the token and the outcome of the
    copycat scan. *)
Record Enhanced (token : Token.t) (pa : PA.t) (tokenAge : Q) (copycat : bool) (e : ET.t)
  : Prop := {
  enhanced_id : ET.token_id e = Token.token_id token;
  enhanced_error : ET.error e = None;
  enhanced_price : ET.price e = Some (PA.weightedPrice pa);
  enhanced_market_cap : ET.market_cap e = Some (PA.weightedPrice pa * supplyOf token)%Q;
  enhanced_liquidity : ET.liquidity e = Some (PA.totalLiquidity pa);
  enhanced_circulating : ET.circulating_supply e = Some (circulatingOf token);
  enhanced_pool_count : ET.pool_count e = Some (PA.poolCount pa);
  enhanced_outliers : ET.outliers_filtered e = Some (PA.filteredOutliers pa);
  enhanced_total_supply : ET.total_supply e = None;
  enhanced_assessment :
    let scored :=
      calculateTrustScore (Token.token_id token) (PA.poolCount pa)
        (PA.suspiciousLiquidity pa) (PA.totalLiquidity pa)
        (PA.weightedPrice pa * supplyOf token)%Q (circulatingOf token)
        (Token.ticker token) (Some tokenAge) (PA.priceFromAveragePrice pa) in
    ET.trust_assessment e =
      Some {| ts_score := TA.score scored; ts_level := TA.trustLevel scored;
              ts_penalties := TA.penalties scored; ts_bonuses := TA.bonuses scored |} /\
    ET.honeypot_risk e = Some (TA.isHoneypot scored || copycat) /\
    ET.validation e =
      Some (validateMarketCap (PA.weightedPrice pa * supplyOf token)%Q
              (PA.totalLiquidity pa)
              (attachFlags scored copycat pa (circulatingOf token)))
}.

(** The tokens the summary files of a listing hold. *)
Definition storedIn (s : Storage) (listing : list string) (token : Token.t) : Prop :=
  exists file data id,
    In file listing /\ JS.endsWith file "_summary.json" = true /\
    readTokenFile s file = Returned data /\
    stored_token_id data = Some id /\ id <> EmptyString /\ token = asToken id data.

(** The write of an enhanced token. *)
Definition tokenWrite (token : ET.t) : Effect :=
  WriteFile (InSummaries (enhancedFileName (ET.token_id token))) (TokenJSON token).

Definition writesAlways (s : Storage) : Prop :=
  forall n path, exists u, writeFileSync s n path = Returned u.

(** The delays of a run from index [i] on. *)
Definition delaysFrom (n i : nat) : list Effect :=
  repeat (Wait BATCH_DELAY_MS) ((n - i - 1) / BATCH_SIZE).

Definition hasId (token : ET.t) : bool := JS.truthy_str (Some (ET.token_id token)).

(** An effect that is a delay or the write of an enhanced token under a
    name the loaders of the summaries do not pick up. *)
Definition besideInputs (e : Effect) : Prop :=
  match e with
  | Wait ms => ms = BATCH_DELAY_MS
  | WriteFile (InSummaries file) (TokenJSON token) =>
      file = enhancedFileName (ET.token_id token) /\
      JS.endsWith file "_summary.json" = false
  | _ => False
  end.

(** A pool with the two amounts given. *)
Definition pool (name : string) (ada tokens : Q) : Pool :=
  {| dex := name; token_1_amount := Some ada; token_2_amount := Some tokens |}.

(** A world whose source answers the pools request with [pools] and
    fails every other request. *)
Definition poolsOnly (pools : list Pool) : World :=
  world (Returned (Some pools)) (Thrown "not asked") (Thrown "not asked").

(** A token summary with an id and a circulating supply. *)
Definition summaryOf (id : string) (circulating : Q) : Token.t :=
  {| Token.token_id := id; Token.ticker := None; Token.name := None;
     Token.circulating_supply := Some circulating; Token.total_supply := None |}.

(** * Properties *)

(** ** The audit trail of the scorer *)

Lemma sumPoints_app (l1 l2 : list Adjustment) :
  sumPoints (l1 ++ l2) = sumPoints l1 + sumPoints l2.
Proof.
  unfold sumPoints; induction l1 as [| a l1 IH]; simpl; lia.
Qed.

Lemma Faithful_andThen (f g : Step) : Faithful f -> Faithful g -> Faithful (andThen f g).
Proof.
  intros Hf Hg t. unfold andThen.
  destruct (Hf t) as [Hu Hs], (Hg (f t)) as [Hu' Hs'].
  split; [congruence | auto].
Qed.

Lemma Faithful_skip : Faithful skip.
Proof. intros t; split; auto. Qed.

Lemma Faithful_when (b : bool) (f : Step) : Faithful f -> Faithful (when b f).
Proof. destruct b; cbn; auto using Faithful_skip. Qed.

Lemma Faithful_if (b : bool) (f g : Step) :
  Faithful f -> Faithful g -> Faithful (if b then f else g).
Proof. destruct b; auto. Qed.

Lemma Faithful_penalty (r : Message) (n : Z) :
  0 < n -> Faithful (andThen (push_penalty r (- n)) (score_sub n)).
Proof.
  intros Hn t; unfold andThen, push_penalty, score_sub, unrecorded, signed;
    cbn [score penalties bonuses].
  rewrite sumPoints_app; unfold sumPoints; cbn. split; [lia |].
  intros [Hp Hb]; split; auto.
  apply Forall_app; split; auto. constructor; cbn; [lia | constructor].
Qed.

Lemma Faithful_bonus (r : Message) (n : Z) :
  0 < n -> Faithful (andThen (push_bonus r n) (score_add n)).
Proof.
  intros Hn t; unfold andThen, push_bonus, score_add, unrecorded, signed;
    cbn [score penalties bonuses].
  rewrite sumPoints_app; unfold sumPoints; cbn. split; [lia |].
  intros [Hp Hb]; split; auto.
  apply Forall_app; split; auto.
Qed.

(** [f ;; g ;; rest] with [f ;; g] a recorded adjustment. *)
Lemma Faithful_penalty_then (r : Message) (n : Z) (rest : Step) :
  0 < n -> Faithful rest ->
  Faithful (andThen (push_penalty r (- n)) (andThen (score_sub n) rest)).
Proof.
  intros Hn Hrest t.
  change (andThen (push_penalty r (- n)) (andThen (score_sub n) rest) t)
    with (rest (andThen (push_penalty r (- n)) (score_sub n) t)).
  destruct (Faithful_penalty r n Hn t) as [Hu Hs].
  destruct (Hrest (andThen (push_penalty r (- n)) (score_sub n) t)) as [Hu' Hs'].
  split; [congruence | auto].
Qed.

Ltac faithful :=
  lazymatch goal with
  | |- Faithful skip => apply Faithful_skip
  | |- Faithful (when _ _) => apply Faithful_when; faithful
  | |- Faithful (if _ then _ else _) => apply Faithful_if; faithful
  | |- Faithful (andThen (push_penalty _ _) (score_sub ?n)) =>
      apply (Faithful_penalty _ n); lia
  | |- Faithful (andThen (push_penalty _ _) (andThen (score_sub ?n) _)) =>
      apply (Faithful_penalty_then _ n); [lia | faithful]
  | |- Faithful (andThen (push_bonus _ _) (score_add _)) =>
      apply Faithful_bonus; lia
  | |- Faithful (andThen _ _) => apply Faithful_andThen; faithful
  end.

Section Blocks.
Variables (tokenId : string) (poolCount : Z) (suspiciousLiquidity : option bool)
  (totalLiquidity marketCap circulatingSupply : Q) (ticker : option string)
  (tokenAge : Q) (priceFromAveragePrice : bool).

Lemma Faithful_whitelistCheck : Faithful (whitelistCheck tokenId).
Proof. unfold whitelistCheck; faithful. Qed.

Lemma Faithful_blacklistCheck : Faithful (blacklistCheck tokenId).
Proof. unfold blacklistCheck; faithful. Qed.

Lemma Faithful_copycatCheck : Faithful (copycatCheck marketCap ticker).
Proof. unfold copycatCheck; faithful. Qed.

Lemma Faithful_supplyDiscrepancyCheck :
  Faithful (supplyDiscrepancyCheck totalLiquidity marketCap circulatingSupply).
Proof. unfold supplyDiscrepancyCheck; faithful. Qed.

Lemma Faithful_manipulationCheck :
  Faithful (manipulationCheck totalLiquidity marketCap circulatingSupply).
Proof. unfold manipulationCheck; cbv zeta; faithful. Qed.

Lemma Faithful_poolCountAssessment :
  Faithful (poolCountAssessment poolCount totalLiquidity marketCap circulatingSupply ticker
              priceFromAveragePrice).
Proof. unfold poolCountAssessment; cbv zeta; faithful. Qed.

Lemma Faithful_liquidityAssessment : Faithful (liquidityAssessment totalLiquidity).
Proof. unfold liquidityAssessment; faithful. Qed.

Lemma Faithful_distributionAssessment :
  Faithful (distributionAssessment suspiciousLiquidity totalLiquidity).
Proof. unfold distributionAssessment; faithful. Qed.

Lemma Faithful_ratioAssessment : Faithful (ratioAssessment totalLiquidity marketCap).
Proof. unfold ratioAssessment; cbv zeta; faithful. Qed.

Lemma Faithful_ageAssessment : Faithful (ageAssessment tokenAge).
Proof. unfold ageAssessment; faithful. Qed.

Lemma Faithful_adjustments :
  Faithful (adjustments tokenId poolCount suspiciousLiquidity totalLiquidity marketCap
              circulatingSupply ticker tokenAge priceFromAveragePrice).
Proof.
  unfold adjustments.
  repeat lazymatch goal with
         | |- Faithful (andThen _ _) => apply Faithful_andThen
         end;
    auto using Faithful_whitelistCheck, Faithful_blacklistCheck, Faithful_copycatCheck,
      Faithful_supplyDiscrepancyCheck, Faithful_manipulationCheck,
      Faithful_poolCountAssessment, Faithful_liquidityAssessment,
      Faithful_distributionAssessment, Faithful_ratioAssessment, Faithful_ageAssessment.
Qed.

End Blocks.

Lemma Appends_skip : Appends skip.
Proof.
  intros t; unfold recordedPenalties, recordedBonuses, delta, skip; cbn.
  rewrite !app_nil_r; repeat split; lia.
Qed.

Lemma recorded_andThen (f g : Step) :
  Appends g ->
  recordedPenalties (andThen f g) = recordedPenalties f ++ recordedPenalties g /\
  recordedBonuses (andThen f g) = recordedBonuses f ++ recordedBonuses g /\
  delta (andThen f g) = delta f + delta g.
Proof.
  intros Hg. unfold recordedPenalties at 1, recordedBonuses at 1, delta at 1, andThen.
  destruct (Hg (f initialTally)) as (Hp & Hb & Hs). rewrite Hp, Hb, Hs.
  unfold recordedPenalties, recordedBonuses, delta. repeat split; lia.
Qed.

Lemma Appends_andThen (f g : Step) : Appends f -> Appends g -> Appends (andThen f g).
Proof.
  intros Hf Hg t.
  destruct (recorded_andThen f g Hg) as (Rp & Rb & Rd). rewrite Rp, Rb, Rd.
  unfold andThen.
  destruct (Hf t) as (Hp & Hb & Hs), (Hg (f t)) as (Hp' & Hb' & Hs').
  rewrite Hp', Hb', Hs', Hp, Hb, Hs, !app_assoc. repeat split; lia.
Qed.

Lemma Appends_assoc (f g h : Step) :
  Appends (andThen (andThen f g) h) -> Appends (andThen f (andThen g h)).
Proof. intros H; exact H. Qed.

Lemma Appends_when (b : bool) (f : Step) : Appends f -> Appends (when b f).
Proof. destruct b; cbn; auto using Appends_skip. Qed.

Lemma Appends_if (b : bool) (f g : Step) : Appends f -> Appends g -> Appends (if b then f else g).
Proof. destruct b; auto. Qed.

Lemma Appends_penalty (r : Message) (p n : Z) :
  Appends (andThen (push_penalty r p) (score_sub n)).
Proof.
  intros t.
  unfold recordedPenalties, recordedBonuses, delta, andThen, push_penalty, push_bonus,
    score_sub, score_add, initialTally; cbn [score penalties bonuses app].
  rewrite app_nil_r; repeat split; lia.
Qed.

Lemma Appends_bonus (r : Message) (p n : Z) :
  Appends (andThen (push_bonus r p) (score_add n)).
Proof.
  intros t.
  unfold recordedPenalties, recordedBonuses, delta, andThen, push_penalty, push_bonus,
    score_sub, score_add, initialTally; cbn [score penalties bonuses app].
  rewrite app_nil_r; repeat split; lia.
Qed.

Ltac appends :=
  lazymatch goal with
  | |- Appends skip => apply Appends_skip
  | |- Appends (when _ _) => apply Appends_when; appends
  | |- Appends (if _ then _ else _) => apply Appends_if; appends
  | |- Appends (andThen (push_penalty _ _) (score_sub _)) => apply Appends_penalty
  | |- Appends (andThen (push_bonus _ _) (score_add _)) => apply Appends_bonus
  | |- Appends (andThen (push_penalty _ _) (andThen (score_sub _) _)) =>
      apply Appends_assoc; apply Appends_andThen; appends
  | |- Appends (andThen _ _) => apply Appends_andThen; appends
  end.

Section Journal.
Variables (tokenId : string) (poolCount : Z) (suspiciousLiquidity : option bool)
  (totalLiquidity marketCap circulatingSupply : Q) (ticker : option string)
  (tokenAge : Q) (priceFromAveragePrice : bool).

Lemma Appends_whitelistCheck : Appends (whitelistCheck tokenId).
Proof. unfold whitelistCheck; appends. Qed.

Lemma Appends_blacklistCheck : Appends (blacklistCheck tokenId).
Proof. unfold blacklistCheck; appends. Qed.

Lemma Appends_copycatCheck : Appends (copycatCheck marketCap ticker).
Proof. unfold copycatCheck; appends. Qed.

Lemma Appends_supplyDiscrepancyCheck :
  Appends (supplyDiscrepancyCheck totalLiquidity marketCap circulatingSupply).
Proof. unfold supplyDiscrepancyCheck; appends. Qed.

Lemma Appends_manipulationCheck :
  Appends (manipulationCheck totalLiquidity marketCap circulatingSupply).
Proof. unfold manipulationCheck; cbv zeta; appends. Qed.

Lemma Appends_poolCountAssessment :
  Appends (poolCountAssessment poolCount totalLiquidity marketCap circulatingSupply ticker
             priceFromAveragePrice).
Proof. unfold poolCountAssessment; cbv zeta; appends. Qed.

Lemma Appends_liquidityAssessment : Appends (liquidityAssessment totalLiquidity).
Proof. unfold liquidityAssessment; appends. Qed.

Lemma Appends_distributionAssessment :
  Appends (distributionAssessment suspiciousLiquidity totalLiquidity).
Proof. unfold distributionAssessment; appends. Qed.

Lemma Appends_ratioAssessment : Appends (ratioAssessment totalLiquidity marketCap).
Proof. unfold ratioAssessment; cbv zeta; appends. Qed.

Lemma Appends_ageAssessment : Appends (ageAssessment tokenAge).
Proof. unfold ageAssessment; appends. Qed.

Lemma Appends_steps :
  Forall Appends
    (steps tokenId poolCount suspiciousLiquidity totalLiquidity marketCap circulatingSupply
       ticker tokenAge priceFromAveragePrice).
Proof.
  unfold steps.
  repeat (apply Forall_cons;
          [ first [ apply Appends_whitelistCheck | apply Appends_blacklistCheck
                  | apply Appends_copycatCheck | apply Appends_supplyDiscrepancyCheck
                  | apply Appends_manipulationCheck | apply Appends_poolCountAssessment
                  | apply Appends_liquidityAssessment | apply Appends_distributionAssessment
                  | apply Appends_ratioAssessment | apply Appends_ageAssessment ] | ]).
  apply Forall_nil.
Qed.

Lemma adjustments_steps (t : Tally) :
  adjustments tokenId poolCount suspiciousLiquidity totalLiquidity marketCap
    circulatingSupply ticker tokenAge priceFromAveragePrice t
  = fold_left (fun acc f => f acc)
      (steps tokenId poolCount suspiciousLiquidity totalLiquidity marketCap circulatingSupply
         ticker tokenAge priceFromAveragePrice) t.
Proof. reflexivity. Qed.

End Journal.

Lemma fold_steps_journal (fs : list Step) :
  Forall Appends fs ->
  forall t,
    let t' := fold_left (fun acc f => f acc) fs t in
    penalties t' = penalties t ++ List.concat (map recordedPenalties fs) /\
    bonuses t' = bonuses t ++ List.concat (map recordedBonuses fs) /\
    score t' = score t + fold_right Z.add 0 (map delta fs).
Proof.
  induction 1 as [| f fs Hf Hfs IH]; intros t; cbn.
  - rewrite !app_nil_r; repeat split; lia.
  - destruct (IH (f t)) as (Hp & Hb & Hs), (Hf t) as (Fp & Fb & Fs).
    cbn in Hp, Hb, Hs. rewrite Hp, Hb, Hs, Fp, Fb, Fs, !app_assoc.
    repeat split; lia.
Qed.

(** The fields of the object [calculateTrustScore] returns, from the
    tally of its adjustments. *)
Lemma calculateTrustScore_fields tokenId poolCount suspiciousLiquidity totalLiquidity
    marketCap circulatingSupply ticker tokenAge priceFromAveragePrice :
  let age := match tokenAge with Some a => a | None => 0%Q end in
  let fallback := match priceFromAveragePrice with Some b => b | None => false end in
  let t := adjustments tokenId poolCount suspiciousLiquidity totalLiquidity marketCap
             circulatingSupply ticker age fallback initialTally in
  let ta := calculateTrustScore tokenId poolCount suspiciousLiquidity totalLiquidity
              marketCap circulatingSupply ticker tokenAge priceFromAveragePrice in
  TA.score ta = Z.max 0 (score t) /\
  TA.penalties ta = penalties t /\
  TA.bonuses ta = bonuses t /\
  (TA.trustLevel ta, TA.isHoneypot ta) = classify totalLiquidity (Z.max 0 (score t)) /\
  TA.priceFromAveragePrice ta = fallback.
Proof.
  cbv zeta. unfold calculateTrustScore.
  set (t := adjustments _ _ _ _ _ _ _ _ _ _).
  unfold floorScore, JS.Math_maxZ; cbn [score penalties bonuses].
  destruct (classify totalLiquidity (Z.max 0 (score t))) as [level honeypot].
  cbn. repeat split.
Qed.

(** The reported score from the recorded points. *)
Lemma score_from_records tokenId poolCount suspiciousLiquidity totalLiquidity marketCap
    circulatingSupply ticker tokenAge priceFromAveragePrice :
  let ta := calculateTrustScore tokenId poolCount suspiciousLiquidity totalLiquidity
              marketCap circulatingSupply ticker tokenAge priceFromAveragePrice in
  TA.score ta = Z.max 0 (100 + sumPoints (TA.bonuses ta) + sumPoints (TA.penalties ta)).
Proof.
  cbv zeta.
  destruct (calculateTrustScore_fields tokenId poolCount suspiciousLiquidity totalLiquidity
              marketCap circulatingSupply ticker tokenAge priceFromAveragePrice)
    as (Hs & Hp & Hb & _).
  rewrite Hs, Hp, Hb.
  match goal with
  | |- context [score (adjustments ?a ?b ?c ?d ?e ?f ?g ?h ?i initialTally)] =>
      destruct (Faithful_adjustments a b c d e f g h i initialTally) as [Hu _]
  end.
  unfold unrecorded in Hu; cbn in Hu. f_equal; lia.
Qed.

(** The returned lists are what the ten steps record, in their order. *)
Lemma records_in_order tokenId poolCount suspiciousLiquidity totalLiquidity marketCap
    circulatingSupply ticker tokenAge priceFromAveragePrice :
  let ta := calculateTrustScore tokenId poolCount suspiciousLiquidity totalLiquidity
              marketCap circulatingSupply ticker tokenAge priceFromAveragePrice in
  let fs := steps tokenId poolCount suspiciousLiquidity totalLiquidity marketCap
              circulatingSupply ticker
              (match tokenAge with Some a => a | None => 0%Q end)
              (match priceFromAveragePrice with Some b => b | None => false end) in
  TA.penalties ta = List.concat (map recordedPenalties fs) /\
  TA.bonuses ta = List.concat (map recordedBonuses fs).
Proof.
  cbv zeta.
  destruct (calculateTrustScore_fields tokenId poolCount suspiciousLiquidity totalLiquidity
              marketCap circulatingSupply ticker tokenAge priceFromAveragePrice)
    as (_ & Hp & Hb & _).
  rewrite Hp, Hb, adjustments_steps.
  match goal with
  | |- context [steps ?a ?b ?c ?d ?e ?f ?g ?h ?i] =>
      destruct (fold_steps_journal _ (Appends_steps a b c d e f g h i) initialTally)
        as (Jp & Jb & _)
  end.
  split; assumption.
Qed.

(** C5. For every input of the scorer, each returned penalty has
    strictly negative points, each returned bonus has strictly positive
    points, and the final score is max(0, 100 + the recorded bonus points
    + the recorded penalty points); the two lists hold, in the order of
    application, what each of the ten steps records. *)
Theorem trust_score_audit_trail :
  forall tokenId poolCount suspiciousLiquidity totalLiquidity marketCap circulatingSupply
         ticker tokenAge priceFromAveragePrice,
    let ta := calculateTrustScore tokenId poolCount suspiciousLiquidity totalLiquidity
                marketCap circulatingSupply ticker tokenAge priceFromAveragePrice in
    let fs := steps tokenId poolCount suspiciousLiquidity totalLiquidity marketCap
                circulatingSupply ticker
                (match tokenAge with Some a => a | None => 0%Q end)
                (match priceFromAveragePrice with Some b => b | None => false end) in
    Forall (fun a => points a < 0) (TA.penalties ta) /\
    Forall (fun a => 0 < points a) (TA.bonuses ta) /\
    TA.score ta = Z.max 0 (100 + sumPoints (TA.bonuses ta) + sumPoints (TA.penalties ta)) /\
    TA.penalties ta = List.concat (map recordedPenalties fs) /\
    TA.bonuses ta = List.concat (map recordedBonuses fs).
Proof.
  intros tokenId poolCount suspiciousLiquidity totalLiquidity marketCap circulatingSupply
    tick tokenAge priceFromAveragePrice ta fs.
  assert (Hsigned : signed {| score := TA.score ta; penalties := TA.penalties ta;
                              bonuses := TA.bonuses ta |}).
  { destruct (calculateTrustScore_fields tokenId poolCount suspiciousLiquidity totalLiquidity
                marketCap circulatingSupply tick tokenAge priceFromAveragePrice)
      as (_ & Hp & Hb & _).
    fold ta in Hp, Hb. unfold signed; cbn [penalties bonuses]. rewrite Hp, Hb.
    match goal with
    | |- context [adjustments ?a ?b ?c ?d ?e ?f ?g ?h ?i initialTally] =>
        destruct (Faithful_adjustments a b c d e f g h i initialTally) as [_ Hs]
    end.
    apply Hs. split; constructor. }
  destruct Hsigned as [Hneg Hpos]. cbn [penalties bonuses] in Hneg, Hpos.
  split; [exact Hneg |]. split; [exact Hpos |].
  split; [apply score_from_records |].
  apply records_in_order.
Qed.

(** ** Comparisons *)

Lemma lt_spec (a b : Q) : JS.lt a b = true <-> (a < b)%Q.
Proof.
  unfold JS.lt. rewrite negb_true_iff, <- not_true_iff_false, Qle_bool_iff.
  split; [apply Qnot_le_lt | apply Qlt_not_le].
Qed.

Lemma lt_false (a b : Q) : JS.lt a b = false <-> (b <= a)%Q.
Proof.
  unfold JS.lt. rewrite negb_false_iff. apply Qle_bool_iff.
Qed.

Lemma gt_spec (a b : Q) : JS.gt a b = true <-> (b < a)%Q.
Proof. apply lt_spec. Qed.

Lemma gt_false (a b : Q) : JS.gt a b = false <-> (a <= b)%Q.
Proof. apply lt_false. Qed.

Lemma le_spec (a b : Q) : JS.le a b = true <-> (a <= b)%Q.
Proof. apply Qle_bool_iff. Qed.

Lemma eq_spec (a b : Q) : JS.eq a b = true <-> (a == b)%Q.
Proof. apply Qeq_bool_iff. Qed.

(** ** Floor and classification of the score *)

(** Case analysis of a step run from the initial tally. *)
Ltac step_cases :=
  unfold delta, recordedPenalties, recordedBonuses, when, andThen, skip, push_penalty,
    push_bonus, score_add, score_sub, initialTally;
  repeat match goal with
         | |- context [if ?b then _ else _] => destruct b
         end;
  cbn [score penalties bonuses].

Lemma delta_whitelistCheck_le tokenId : delta (whitelistCheck tokenId) <= 50.
Proof. unfold whitelistCheck; step_cases; lia. Qed.

Lemma delta_copycatCheck_le marketCap ticker : delta (copycatCheck marketCap ticker) <= 0.
Proof. unfold copycatCheck; step_cases; lia. Qed.

Lemma delta_supplyDiscrepancyCheck_le totalLiquidity marketCap circulatingSupply :
  delta (supplyDiscrepancyCheck totalLiquidity marketCap circulatingSupply) <= 0.
Proof. unfold supplyDiscrepancyCheck; step_cases; lia. Qed.

Lemma delta_manipulationCheck_le totalLiquidity marketCap circulatingSupply :
  delta (manipulationCheck totalLiquidity marketCap circulatingSupply) <= 0.
Proof. unfold manipulationCheck; cbv zeta; step_cases; lia. Qed.

Lemma delta_liquidityAssessment_le totalLiquidity :
  delta (liquidityAssessment totalLiquidity) <= 20.
Proof. unfold liquidityAssessment; step_cases; lia. Qed.

Lemma delta_distributionAssessment_le suspiciousLiquidity totalLiquidity :
  delta (distributionAssessment suspiciousLiquidity totalLiquidity) <= 0.
Proof. unfold distributionAssessment; step_cases; lia. Qed.

Lemma delta_ratioAssessment_le totalLiquidity marketCap :
  delta (ratioAssessment totalLiquidity marketCap) <= 0.
Proof. unfold ratioAssessment; cbv zeta; step_cases; lia. Qed.

Lemma delta_ageAssessment_le tokenAge : delta (ageAssessment tokenAge) <= 15.
Proof. unfold ageAssessment; step_cases; lia. Qed.

Lemma blacklisted_not_trusted tokenId :
  JS.includes HONEYPOT_BLACKLIST tokenId = true -> JS.includes TRUSTED_TOKENS tokenId = false.
Proof.
  unfold JS.includes, HONEYPOT_BLACKLIST; cbn [existsb].
  rewrite !orb_true_iff, !String.eqb_eq.
  intros [-> | [-> | H]]; [reflexivity | reflexivity | discriminate].
Qed.

Lemma delta_blacklisted tokenId :
  JS.includes HONEYPOT_BLACKLIST tokenId = true ->
  delta (whitelistCheck tokenId) = 0 /\ delta (blacklistCheck tokenId) = -100.
Proof.
  intros H. unfold whitelistCheck, blacklistCheck.
  rewrite H, (blacklisted_not_trusted _ H). split; reflexivity.
Qed.

Lemma delta_no_pools totalLiquidity marketCap circulatingSupply ticker :
  delta (poolCountAssessment 0 totalLiquidity marketCap circulatingSupply ticker false) = -80.
Proof. reflexivity. Qed.

(** The score before the floor is 100 plus what the ten steps add. *)
Lemma adjustments_score tokenId poolCount suspiciousLiquidity totalLiquidity marketCap
    circulatingSupply ticker tokenAge priceFromAveragePrice :
  score (adjustments tokenId poolCount suspiciousLiquidity totalLiquidity marketCap
           circulatingSupply ticker tokenAge priceFromAveragePrice initialTally)
  = 100 + fold_right Z.add 0
            (map delta (steps tokenId poolCount suspiciousLiquidity totalLiquidity marketCap
                          circulatingSupply ticker tokenAge priceFromAveragePrice)).
Proof.
  rewrite adjustments_steps.
  apply (fold_steps_journal _
           (Appends_steps tokenId poolCount suspiciousLiquidity totalLiquidity marketCap
              circulatingSupply ticker tokenAge priceFromAveragePrice) initialTally).
Qed.

(** C2. For every input of the scorer the reported score is at least 0
    and decides the classification: below 20 VeryLow and a honeypot; from
    20 and below 40 Low, a honeypot exactly when totalLiquidity < 5000;
    from 40 and below 60 Moderate, from 60 and below 80 Good, from 80 High,
    none of the three a honeypot.  When the recorded adjustments sum to
    -100 or less, and so for a blacklisted token (-100) with zero pools
    priced from its pools (-80), the score is exactly 0, VeryLow and a
    honeypot. *)
Theorem trust_score_classification :
  forall tokenId poolCount suspiciousLiquidity totalLiquidity marketCap circulatingSupply
         ticker tokenAge priceFromAveragePrice,
    let ta := calculateTrustScore tokenId poolCount suspiciousLiquidity totalLiquidity
                marketCap circulatingSupply ticker tokenAge priceFromAveragePrice in
    let s := TA.score ta in
    0 <= s /\
    (s < 20 -> TA.trustLevel ta = VeryLow /\ TA.isHoneypot ta = true) /\
    (20 <= s < 40 ->
       TA.trustLevel ta = Low /\ (TA.isHoneypot ta = true <-> (totalLiquidity < 5000)%Q)) /\
    (40 <= s < 60 -> TA.trustLevel ta = Moderate /\ TA.isHoneypot ta = false) /\
    (60 <= s < 80 -> TA.trustLevel ta = Good /\ TA.isHoneypot ta = false) /\
    (80 <= s -> TA.trustLevel ta = High /\ TA.isHoneypot ta = false) /\
    (sumPoints (TA.bonuses ta) + sumPoints (TA.penalties ta) <= -100 ->
       s = 0 /\ TA.trustLevel ta = VeryLow /\ TA.isHoneypot ta = true) /\
    (JS.includes HONEYPOT_BLACKLIST tokenId = true -> poolCount = 0 ->
     priceFromAveragePrice <> Some true ->
       s = 0 /\ TA.trustLevel ta = VeryLow /\ TA.isHoneypot ta = true).
Proof.
  intros tokenId poolCount suspiciousLiquidity totalLiquidity marketCap circulatingSupply
    tick tokenAge priceFromAveragePrice ta s.
  destruct (calculateTrustScore_fields tokenId poolCount suspiciousLiquidity totalLiquidity
              marketCap circulatingSupply tick tokenAge priceFromAveragePrice)
    as (Hs & Hp & Hb & Hc & _).
  pose proof (score_from_records tokenId poolCount suspiciousLiquidity totalLiquidity
                marketCap circulatingSupply tick tokenAge priceFromAveragePrice) as Hsum.
  cbv zeta in Hsum.
  fold ta in Hs, Hp, Hb, Hc, Hsum. fold s in Hs, Hc, Hsum. rewrite <- Hs in Hc.
  assert (Hclass : forall level honeypot,
             classify totalLiquidity s = (level, honeypot) ->
             TA.trustLevel ta = level /\ TA.isHoneypot ta = honeypot).
  { intros level honeypot E. rewrite E in Hc. inversion Hc; auto. }
  assert (Hzero : s = 0 -> s = 0 /\ TA.trustLevel ta = VeryLow /\ TA.isHoneypot ta = true).
  { intros E; split; [exact E |]. apply Hclass. rewrite E. reflexivity. }
  split; [lia |].
  split; [intros H; apply Hclass; unfold classify;
          destruct (Z.ltb_spec s 20); [reflexivity | lia] |].
  split.
  { intros H.
    destruct (Hclass Low (JS.lt totalLiquidity 5000)) as [Hl Hh].
    - unfold classify. destruct (Z.ltb_spec s 20); [lia |].
      destruct (Z.ltb_spec s 40); [reflexivity | lia].
    - split; [exact Hl |]. rewrite Hh. apply lt_spec. }
  split; [intros H; apply Hclass; unfold classify;
          destruct (Z.ltb_spec s 20); [lia |]; destruct (Z.ltb_spec s 40); [lia |];
          destruct (Z.ltb_spec s 60); [reflexivity | lia] |].
  split; [intros H; apply Hclass; unfold classify;
          destruct (Z.ltb_spec s 20); [lia |]; destruct (Z.ltb_spec s 40); [lia |];
          destruct (Z.ltb_spec s 60); [lia |]; destruct (Z.ltb_spec s 80); [reflexivity | lia] |].
  split; [intros H; apply Hclass; unfold classify;
          destruct (Z.ltb_spec s 20); [lia |]; destruct (Z.ltb_spec s 40); [lia |];
          destruct (Z.ltb_spec s 60); [lia |]; destruct (Z.ltb_spec s 80); [lia | reflexivity] |].
  split; [intros H; apply Hzero; lia |].
  intros Hbl Hpc Hfb. apply Hzero. rewrite Hs.
  set (age := match tokenAge with Some a => a | None => 0%Q end).
  assert (Efb : match priceFromAveragePrice with Some b => b | None => false end = false).
  { destruct priceFromAveragePrice as [[|]|]; [contradiction Hfb | |]; reflexivity. }
  rewrite Efb, Hpc, adjustments_score. unfold steps; cbn [map fold_right].
  destruct (delta_blacklisted _ Hbl) as [Hw Hb']. rewrite Hw, Hb', delta_no_pools.
  pose proof (delta_copycatCheck_le marketCap tick).
  pose proof (delta_supplyDiscrepancyCheck_le totalLiquidity marketCap circulatingSupply).
  pose proof (delta_manipulationCheck_le totalLiquidity marketCap circulatingSupply).
  pose proof (delta_liquidityAssessment_le totalLiquidity).
  pose proof (delta_distributionAssessment_le suspiciousLiquidity totalLiquidity).
  pose proof (delta_ratioAssessment_le totalLiquidity marketCap).
  pose proof (delta_ageAssessment_le age).
  lia.
Qed.

(** The input of the claim's example: a blacklisted token, no pool,
    priced from its pools. *)
Lemma trust_score_classification_witness :
  let ta := calculateTrustScore "addr1w9zru...lfqw" 0 None 0 0 0 None None None in
  TA.score ta = 0 /\ TA.trustLevel ta = VeryLow /\ TA.isHoneypot ta = true.
Proof.
  refine (proj2 (proj2 (proj2 (proj2 (proj2 (proj2 (proj2
    (trust_score_classification "addr1w9zru...lfqw" 0 None 0 0 0 None None None)))))))
    _ _ _).
  - reflexivity.
  - reflexivity.
  - discriminate.
Defined.

(** ** Liquidity tiers *)




(** ** Pool count under the fallback price *)

Lemma fallback_pool_count_idle poolCount totalLiquidity marketCap circulatingSupply ticker :
  poolCount <> 0 ->
  forall t,
    poolCountAssessment poolCount totalLiquidity marketCap circulatingSupply ticker true t = t.
Proof.
  intros H t. unfold poolCountAssessment.
  destruct (Z.eqb_spec poolCount 0); [contradiction | reflexivity].
Qed.

Ltac unfold_steps :=
  unfold whitelistCheck, blacklistCheck, copycatCheck, supplyDiscrepancyCheck,
    manipulationCheck, poolCountAssessment, liquidityAssessment, distributionAssessment,
    ratioAssessment, ageAssessment;
  cbv beta iota zeta.

Lemma fallback_never_good_pool_count tokenId poolCount suspiciousLiquidity totalLiquidity
    marketCap circulatingSupply ticker tokenAge :
  Forall (fun a => forall n, reason a <> goodPoolCount n)
    (List.concat (map recordedBonuses
       (steps tokenId poolCount suspiciousLiquidity totalLiquidity marketCap
          circulatingSupply ticker tokenAge true))).
Proof.
  unfold steps; cbn [map List.concat].
  rewrite !Forall_app; repeat split;
    unfold_steps; step_cases; repeat constructor; intros n; discriminate.
Qed.

(** C10. For every input of the scorer with the price from the fallback
    endpoint and poolCount > 0, the pool count assessment changes nothing:
    the penalties, the bonuses and the score are what the nine other steps
    record and add.  Whatever the pool count, a token priced from the
    fallback endpoint never has the bonus for a good number of pools. *)
Theorem fallback_price_has_no_pool_count_adjustment :
  forall tokenId poolCount suspiciousLiquidity totalLiquidity marketCap circulatingSupply
         ticker tokenAge,
    0 < poolCount ->
    let block :=
      poolCountAssessment poolCount totalLiquidity marketCap circulatingSupply ticker true in
    let ta := calculateTrustScore tokenId poolCount suspiciousLiquidity totalLiquidity
                marketCap circulatingSupply ticker tokenAge (Some true) in
    let others := otherSteps tokenId suspiciousLiquidity totalLiquidity marketCap
                    circulatingSupply ticker
                    (match tokenAge with Some a => a | None => 0%Q end) in
    (forall t, block t = t) /\
    TA.penalties ta = List.concat (map recordedPenalties others) /\
    TA.bonuses ta = List.concat (map recordedBonuses others) /\
    TA.score ta = Z.max 0 (100 + fold_right Z.add 0 (map delta others)) /\
    (forall anyCount,
       Forall (fun a => forall n, reason a <> goodPoolCount n)
         (TA.bonuses (calculateTrustScore tokenId anyCount suspiciousLiquidity totalLiquidity
                        marketCap circulatingSupply ticker tokenAge (Some true)))).
Proof.
  intros tokenId poolCount suspiciousLiquidity totalLiquidity marketCap circulatingSupply
    tick tokenAge Hpc block ta others.
  assert (Hidle : forall t, block t = t)
    by (apply fallback_pool_count_idle; lia).
  assert (Hrp : recordedPenalties block = []) by (unfold recordedPenalties; now rewrite Hidle).
  assert (Hrb : recordedBonuses block = []) by (unfold recordedBonuses; now rewrite Hidle).
  assert (Hd : delta block = 0) by (unfold delta; now rewrite Hidle).
  destruct (records_in_order tokenId poolCount suspiciousLiquidity totalLiquidity marketCap
              circulatingSupply tick tokenAge (Some true)) as (Hp & Hb).
  destruct (calculateTrustScore_fields tokenId poolCount suspiciousLiquidity totalLiquidity
              marketCap circulatingSupply tick tokenAge (Some true)) as (Hs & _).
  fold ta in Hp, Hb, Hs.
  split; [exact Hidle |].
  split; [| split; [| split]].
  - rewrite Hp. unfold steps, others, otherSteps; cbn [map List.concat].
    fold block. rewrite Hrp. reflexivity.
  - rewrite Hb. unfold steps, others, otherSteps; cbn [map List.concat].
    fold block. rewrite Hrb. reflexivity.
  - rewrite Hs, adjustments_score. unfold steps, others, otherSteps; cbn [map fold_right].
    fold block. rewrite Hd. f_equal; lia.
  - intros anyCount.
    destruct (records_in_order tokenId anyCount suspiciousLiquidity totalLiquidity marketCap
                circulatingSupply tick tokenAge (Some true)) as (_ & Hb').
    rewrite Hb'. apply fallback_never_good_pool_count.
Qed.

Lemma fallback_price_has_no_pool_count_adjustment_witness :
  let ta := calculateTrustScore "t" 5 None 0 0 0 (Some "SNEK"%string) None (Some true) in
  TA.penalties ta = [ {| reason := msg "Extremely low liquidity"; points := -70 |} ] /\
  TA.bonuses ta = [] /\
  TA.score ta = 30.
Proof.
  cbv zeta.
  destruct (fallback_price_has_no_pool_count_adjustment
              "t" 5 None 0 0 0 (Some "SNEK"%string) None) as (_ & Hp & Hb & Hs & _).
  - lia.
  - rewrite Hp, Hb, Hs. repeat split.
Defined.

(** ** The resolver without usable pools *)

(** The branch of the empty array, by cases on the two lookups: the
    second is only made when the first returns without a price. *)
Lemma noPoolData_cases (tokenId : string) (w : World) :
  noPoolData tokenId w =
  Returned
    match lookup w tokenId "ADA" price_ba with
    | Some p => averagePriceResult p
    | None =>
        if lookupThrows w tokenId "ADA" then noPoolsResult
        else match lookup w "ADA" tokenId price_ab with
             | Some p => averagePriceResult p
             | None => noPoolsResult
             end
    end.
Proof.
  unfold noPoolData, lookup, lookupThrows, bind, try_catch, await, ret.
  destruct (get_averagePrice w tokenId "ADA") as [e | [data |]]; cbn.
  - reflexivity.
  - destruct (JS.truthy_value (price_ba data)); [reflexivity |].
    destruct (get_averagePrice w "ADA" tokenId) as [e | [data' |]]; cbn;
      try reflexivity.
    destruct (JS.truthy_value (price_ab data')); reflexivity.
  - destruct (get_averagePrice w "ADA" tokenId) as [e | [data' |]]; cbn;
      try reflexivity.
    destruct (JS.truthy_value (price_ab data')); reflexivity.
Qed.

Lemma calculateWeightedPrice_no_pools (tokenId : string) (w : World) :
  get_pools w tokenId = Returned None \/ get_pools w tokenId = Returned (Some []) ->
  calculateWeightedPrice tokenId w = noPoolData tokenId w.
Proof.
  intros H. unfold calculateWeightedPrice, try_catch, bind, await.
  destruct H as [-> | ->]; rewrite noPoolData_cases; reflexivity.
Qed.

(** C6, on the code.  The source answers with an empty array and the
    token/ADA lookup with price_ba = 0.5: the assessment carries the
    fallback price, poolCount 0, the fallback and the suspicious flag, and
    no noPoolsFound property, which only the zero-price object of the
    same branch has. *)
Theorem fallback_price_lacks_noPoolsFound :
  let w := world (Returned (Some []))
                 (Returned (Some {| price_ba := Some (1 # 2); price_ab := None |}))
                 (Thrown "not asked") in
  exists r,
    calculateWeightedPrice "token" w = Returned r /\
    PA.weightedPrice r = (1 # 2)%Q /\
    PA.poolCount r = 0 /\
    PA.priceFromAveragePrice r = Some true /\
    PA.suspiciousLiquidity r = Some true /\
    PA.noPoolsFound r = None /\
    PA.noPoolsFound noPoolsResult = Some true.
Proof.
  eexists. split; [reflexivity |]. repeat split.
Qed.

(** The part of C6 the code does: with no pool array or an empty one,
    the price of the first lookup that returns one is carried with
    poolCount 0 and the fallback and suspicious flags; without a price the
    assessment is the zero price with noPoolsFound. *)
Lemma no_pools_fallback (tokenId : string) (w : World) :
  get_pools w tokenId = Returned None \/ get_pools w tokenId = Returned (Some []) ->
  exists r,
    calculateWeightedPrice tokenId w = Returned r /\
    PA.poolCount r = 0 /\
    PA.suspiciousLiquidity r = Some true /\
    ((exists p, PA.weightedPrice r = p /\ PA.priceFromAveragePrice r = Some true /\
                PA.noPoolsFound r = None /\
                (lookup w tokenId "ADA" price_ba = Some p \/
                 lookup w "ADA" tokenId price_ab = Some p)) \/
     (PA.weightedPrice r = 0%Q /\ PA.noPoolsFound r = Some true)).
Proof.
  intros H. rewrite (calculateWeightedPrice_no_pools _ _ H), noPoolData_cases.
  eexists; split; [reflexivity |].
  destruct (lookup w tokenId "ADA" price_ba) as [p |] eqn:Ef.
  - repeat split. left. exists p. repeat split. now left.
  - destruct (lookupThrows w tokenId "ADA").
    + repeat split. now right.
    + destruct (lookup w "ADA" tokenId price_ab) as [p |] eqn:Eb.
      * repeat split. left. exists p. repeat split. now right.
      * repeat split. now right.
Qed.

(** ** The resolver with pools that are all invalid *)

Lemma valid_withPrice (pool : Pool) : valid (withPrice pool) = usable pool.
Proof.
  unfold withPrice, usable, baseAmount, quoteAmount, JS.gt, JS.lt, JS.le.
  destruct (Qle_bool (JS.or_zero (token_1_amount pool)) 0),
           (Qle_bool (JS.or_zero (token_2_amount pool)) 0); reflexivity.
Qed.

Lemma filter_valid_map (pools : list Pool) :
  filter valid (map withPrice pools) = map withPrice (filter usable pools).
Proof.
  induction pools as [| p pools IH]; [reflexivity |].
  cbn [map filter]. rewrite valid_withPrice.
  destruct (usable p); cbn [map]; now rewrite IH.
Qed.

Lemma all_invalid_branch (tokenId : string) (w : World) (pools : list Pool) :
  get_pools w tokenId = Returned (Some pools) ->
  pools <> [] ->
  forallb (fun pool => negb (usable pool)) pools = true ->
  calculateWeightedPrice tokenId w =
  Returned match lookup w tokenId "ADA" price_ba with
           | Some p => emptyPoolsFallback pools p
           | None => emptyPoolsResult pools
           end.
Proof.
  intros Hp Hne Hall.
  unfold calculateWeightedPrice, try_catch, bind, await. rewrite Hp.
  destruct pools as [| p0 ps]; [contradiction |].
  set (pools := p0 :: ps) in *.
  assert (Hnone : filter valid (map withPrice pools) = []).
  { rewrite filter_valid_map.
    clearbody pools. clear - Hall. induction pools as [| p l IH]; [reflexivity |].
    cbn in Hall. apply andb_true_iff in Hall as [Hp Hl].
    cbn [filter]. apply negb_true_iff in Hp. rewrite Hp. auto. }
  rewrite Hnone.
  assert (Hlen : (0 <? length_Z pools)%Z = true).
  { apply Z.ltb_lt. unfold length_Z, pools. cbn [List.length]. lia. }
  rewrite Hlen. cbn [length_Z List.length Z.of_nat Z.eqb andb].
  unfold emptyPools, lookup, bind, try_catch, await, ret. cbn [negb].
  destruct (get_averagePrice w tokenId "ADA") as [e | [data |]]; try reflexivity.
  destruct (JS.truthy_value (price_ba data)); reflexivity.
Qed.




(** ** Sorting *)

Section SortSpec.
Context {A : Type} (cmp : A -> A -> Q) (P : A -> Prop) (R : A -> A -> Prop).
Hypothesis keep : forall a b, P a -> P b -> JS.gt (cmp a b) 0 = false -> R a b.
Hypothesis swap : forall a b, P a -> P b -> JS.gt (cmp a b) 0 = true -> R b a.
Hypothesis R_trans : forall a b c, R a b -> R b c -> R a c.

Lemma insert_perm (x : A) (l : list A) : Permutation (JS.insert cmp x l) (x :: l).
Proof.
  induction l as [| y l IH]; cbn [JS.insert]; [reflexivity |].
  destruct (JS.gt (cmp x y) 0); [| reflexivity].
  rewrite IH. apply perm_swap.
Qed.

Lemma sort_perm (l : list A) : Permutation (JS.sort cmp l) l.
Proof.
  induction l as [| x l IH]; cbn [JS.sort]; [reflexivity |].
  rewrite insert_perm. now constructor.
Qed.

Lemma insert_sorted (x : A) (l : list A) :
  P x -> Forall P l -> StronglySorted R l -> StronglySorted R (JS.insert cmp x l).
Proof.
  intros Px Pl Hs. induction Hs as [| y l Hs IH Hy]; cbn [JS.insert].
  - repeat constructor.
  - inversion Pl as [| ? ? Py Pl']; subst.
    destruct (JS.gt (cmp x y) 0) eqn:E.
    + constructor; [auto |].
      apply (Permutation_Forall (Permutation_sym (insert_perm x l))).
      constructor; [exact (swap x y Px Py E) | exact Hy].
    + pose proof (keep x y Px Py E) as Rxy.
      constructor; [constructor; assumption |].
      constructor; [exact Rxy |].
      eapply Forall_impl; [| exact Hy]. intros z Ryz. exact (R_trans _ _ _ Rxy Ryz).
Qed.

Lemma sort_sorted (l : list A) : Forall P l -> StronglySorted R (JS.sort cmp l).
Proof.
  induction 1 as [| x l Px Pl IH]; cbn [JS.sort]; [constructor |].
  apply insert_sorted; auto.
  apply (Permutation_Forall (Permutation_sym (sort_perm l))). exact Pl.
Qed.

End SortSpec.

(** ** The weighted average *)

Lemma withPrice_usable (pool : Pool) :
  usable pool = true ->
  withPrice pool =
  {| pp_dex := dex pool; adaAmount := baseAmount pool; tokenAmount := quoteAmount pool;
     price := unitPrice pool; valid := true |}.
Proof.
  intros H. pose proof (valid_withPrice pool) as Hv. rewrite H in Hv.
  unfold withPrice in *. fold (baseAmount pool) (quoteAmount pool) in *.
  destruct (JS.le (baseAmount pool) 0 || JS.le (quoteAmount pool) 0);
    [discriminate Hv | reflexivity].
Qed.

Lemma isOutlier_inRange (x : PricedPool) : isOutlier x = negb (inRange x).
Proof.
  unfold isOutlier, inRange, JS.gt, JS.ge, JS.lt, JS.le.
  now rewrite negb_andb.
Qed.

Lemma no_outlier_filter (l : list PricedPool) :
  existsb isOutlier l = false -> filter inRange l = l.
Proof.
  induction l as [| x l IH]; [reflexivity |].
  cbn [existsb filter]. rewrite orb_false_iff, isOutlier_inRange, negb_false_iff.
  intros [-> Hl]. now rewrite IH.
Qed.

Lemma filter_inRange_map (pools : list Pool) :
  filter inRange (map withPrice (filter usable pools)) = map withPrice (filter reasonable pools).
Proof.
  induction pools as [| p pools IH]; [reflexivity |].
  cbn [filter]. unfold reasonable at 1.
  destruct (usable p) eqn:Hu; cbn [andb map filter]; [| exact IH].
  replace (inRange (withPrice p))
    with (JS.le (unitPrice p) MAX_REASONABLE_PRICE && JS.ge (unitPrice p) MIN_REASONABLE_PRICE)
    by (rewrite (withPrice_usable p Hu); reflexivity).
  destruct (JS.le (unitPrice p) MAX_REASONABLE_PRICE && JS.ge (unitPrice p) MIN_REASONABLE_PRICE);
    cbn [map]; now rewrite IH.
Qed.

(** The reasonable pools of the script are the priced reasonable pools. *)
Lemma reasonablePools_spec (pools : list Pool) :
  let poolsWithPrices := filter valid (map withPrice pools) in
  (if existsb isOutlier poolsWithPrices then filter inRange poolsWithPrices
   else poolsWithPrices)
  = map withPrice (filter reasonable pools).
Proof.
  cbv zeta. rewrite filter_valid_map.
  destruct (existsb isOutlier (map withPrice (filter usable pools))) eqn:E.
  - apply filter_inRange_map.
  - rewrite <- filter_inRange_map. symmetry. now apply no_outlier_filter.
Qed.

Lemma reasonable_usable (pools : list Pool) :
  Forall (fun pool => usable pool = true) (filter reasonable pools).
Proof.
  apply Forall_forall. intros p Hp. apply filter_In in Hp as [_ Hp].
  unfold reasonable in Hp. now apply andb_true_iff in Hp as [Hp _].
Qed.

Lemma sumAda_from (l : list PricedPool) (a : Q) :
  (fold_left (fun sum pool => sum + adaAmount pool) l a
   == a + fold_right (fun pool s => adaAmount pool + s) 0 l)%Q.
Proof.
  revert a; induction l as [| x l IH]; intros a; cbn [fold_left fold_right].
  - ring.
  - rewrite IH. ring.
Qed.

Lemma sumAda_spec (pools : list Pool) :
  Forall (fun pool => usable pool = true) pools ->
  (sumAda (map withPrice pools) == liquiditySum pools)%Q.
Proof.
  intros H. unfold sumAda, JS.reduce. rewrite sumAda_from, Qplus_0_l.
  unfold liquiditySum. induction H as [| p l Hp Hl IH]; cbn [map fold_right]; [reflexivity |].
  rewrite IH, (withPrice_usable p Hp). reflexivity.
Qed.

Lemma weightedAverage_from (l : list PricedPool) (total a : Q) :
  (fold_left (fun sum pool => sum + price pool * (adaAmount pool / total)) l a
   == a + fold_right (fun pool s => price pool * (adaAmount pool / total) + s) 0 l)%Q.
Proof.
  revert a; induction l as [| x l IH]; intros a; cbn [fold_left fold_right].
  - ring.
  - rewrite IH. ring.
Qed.

Lemma weightedAverage_spec (pools : list Pool) (total total' : Q) :
  Forall (fun pool => usable pool = true) pools ->
  (total == total')%Q ->
  (weightedAverage (map withPrice pools) total == liquidityWeighted total' pools)%Q.
Proof.
  intros H Ht. unfold weightedAverage, JS.reduce. cbv zeta.
  rewrite weightedAverage_from, Qplus_0_l.
  unfold liquidityWeighted. induction H as [| p l Hp Hl IH]; cbn [map fold_right]; [reflexivity |].
  rewrite IH, (withPrice_usable p Hp). cbn [price adaAmount]. rewrite Ht. reflexivity.
Qed.

(** The resolver on an array with at least one reasonable pool. *)
Lemma weighted_branch (tokenId : string) (w : World) (pools : list Pool) :
  get_pools w tokenId = Returned (Some pools) ->
  filter reasonable pools <> [] ->
  let reasonablePools := map withPrice (filter reasonable pools) in
  let hasExtremeOutliers := existsb isOutlier (filter valid (map withPrice pools)) in
  let totalLiquidity := sumAda reasonablePools in
  calculateWeightedPrice tokenId w =
  Returned
    (if JS.eq totalLiquidity 0 then
       {| PA.weightedPrice := 0;
          PA.totalLiquidity := 0;
          PA.filteredOutliers := hasExtremeOutliers;
          PA.poolCount := length_Z reasonablePools;
          PA.originalPoolCount := None;
          PA.medianUsed := None;
          PA.suspiciousLiquidity := None;
          PA.priceFromAveragePrice := None;
          PA.noPoolsFound := None;
          PA.emptySuspiciousPools := None;
          PA.error := None |}
     else
       {| PA.weightedPrice := weightedAverage reasonablePools totalLiquidity;
          PA.totalLiquidity := totalLiquidity;
          PA.filteredOutliers := hasExtremeOutliers;
          PA.poolCount := length_Z reasonablePools;
          PA.originalPoolCount := Some (length_Z pools);
          PA.medianUsed := Some (isSuspicious reasonablePools totalLiquidity);
          PA.suspiciousLiquidity := Some (isSuspicious reasonablePools totalLiquidity);
          PA.priceFromAveragePrice := Some false;
          PA.noPoolsFound := None;
          PA.emptySuspiciousPools := None;
          PA.error := None |}).
Proof.
  intros Hp Hne. cbv zeta.
  unfold calculateWeightedPrice, try_catch, bind, await. rewrite Hp.
  destruct pools as [| p0 ps]; [contradiction Hne; reflexivity |].
  set (pools := p0 :: ps) in *.
  pose proof (reasonablePools_spec pools) as Hr. cbv zeta in Hr.
  assert (Hlen : length_Z (map withPrice (filter reasonable pools)) <> 0).
  { unfold length_Z. rewrite length_map.
    destruct (filter reasonable pools); [contradiction Hne; reflexivity | cbn; lia]. }
  assert (Hpw : (length_Z (filter valid (map withPrice pools)) =? 0) = false).
  { apply Z.eqb_neq. rewrite filter_valid_map. unfold length_Z. rewrite length_map.
    intros E. apply Hne.
    destruct (filter usable pools) eqn:Eu; [| cbn in E; lia].
    rewrite <- filter_inRange_map in Hlen. rewrite Eu in Hlen. now contradiction Hlen. }
  rewrite Hpw, andb_false_r, Hr.
  apply Z.eqb_neq in Hlen. rewrite Hlen.
  destruct (JS.eq (sumAda (map withPrice (filter reasonable pools))) 0); reflexivity.
Qed.



(** ** The median fallback *)

Lemma sorted_map_price (l : list PricedPool) :
  StronglySorted (fun a b => (price a <= price b)%Q) l ->
  StronglySorted Qle (map price l).
Proof.
  induction 1 as [| x l Hs IH Hx]; cbn [map]; constructor; auto.
  apply Forall_map. exact Hx.
Qed.

Lemma sort_by_price_sorted (l : list PricedPool) :
  StronglySorted (fun a b => (price a <= price b)%Q)
    (JS.sort (fun a b => (price a - price b)%Q) l).
Proof.
  apply (sort_sorted _ (fun _ => True)).
  - intros a b _ _ H. apply gt_false in H. lra.
  - intros a b _ _ H. apply gt_spec in H. lra.
  - intros a b c. apply Qle_trans.
  - apply Forall_forall. auto.
Qed.

Lemma map_price_withPrice (pools : list Pool) :
  Forall (fun pool => usable pool = true) pools ->
  map price (map withPrice pools) = map unitPrice pools.
Proof.
  induction 1 as [| p l Hp Hl IH]; cbn [map]; [reflexivity |].
  now rewrite IH, (withPrice_usable p Hp).
Qed.

Lemma usable_filter (pools : list Pool) :
  Forall (fun pool => usable pool = true) (filter usable pools).
Proof.
  apply Forall_forall. intros p Hp. now apply filter_In in Hp as [_ Hp].
Qed.

(** The part of C4 the code does.  When the array has usable pools and
    the range filter leaves none, the price is the element at index
    floor(n/2) of the prices sorted ascending, capped at
    MAX_REASONABLE_PRICE; the liquidity is the sum over all usable pools;
    medianUsed and filteredOutliers are set. *)
Lemma median_branch (tokenId : string) (w : World) (pools : list Pool) :
  get_pools w tokenId = Returned (Some pools) ->
  filter usable pools <> [] ->
  filter reasonable pools = [] ->
  exists r sorted median,
    calculateWeightedPrice tokenId w = Returned r /\
    Permutation sorted (map unitPrice (filter usable pools)) /\
    StronglySorted Qle sorted /\
    nth_error sorted (List.length sorted / 2) = Some median /\
    PA.weightedPrice r = JS.Math_min median MAX_REASONABLE_PRICE /\
    (PA.totalLiquidity r == liquiditySum (filter usable pools))%Q /\
    PA.medianUsed r = Some true /\
    PA.filteredOutliers r = true /\
    PA.poolCount r = length_Z (filter usable pools) /\
    PA.noPoolsFound r = None.
Proof.
  intros Hp Hu Hr.
  unfold calculateWeightedPrice, try_catch, bind, await. rewrite Hp.
  destruct pools as [| p0 ps]; [contradiction Hu; reflexivity |].
  set (pools := p0 :: ps) in *.
  pose proof (reasonablePools_spec pools) as Hcode. cbv zeta in Hcode.
  rewrite Hcode, Hr, filter_valid_map.
  set (pw := map withPrice (filter usable pools)).
  assert (Hlen : (List.length pw > 0)%nat).
  { unfold pw. rewrite length_map. destruct (filter usable pools); [now contradiction Hu |].
    cbn; lia. }
  assert (Hz : (length_Z pw =? 0) = false) by (apply Z.eqb_neq; unfold length_Z; lia).
  rewrite Hz, andb_false_r.
  change (length_Z (map withPrice []) =? 0) with true. cbv iota.
  unfold medianFallback.
  set (sortedPrices := JS.sort (fun a b => (price a - price b)%Q) pw).
  assert (Hperm : Permutation sortedPrices pw) by apply sort_perm.
  assert (Hsl : List.length sortedPrices = List.length pw)
    by (apply Permutation_length; exact Hperm).
  destruct (nth_error sortedPrices (List.length sortedPrices / 2)) as [middle |] eqn:En.
  2:{ apply nth_error_None in En.
      pose proof (Nat.div_lt (List.length sortedPrices) 2). lia. }
  exists (PA.Build_t
            (JS.Math_min (price middle) MAX_REASONABLE_PRICE) (sumAda pw) true
            (length_Z pw) None (Some true) None None None None None),
         (map price sortedPrices), (price middle).
  split; [reflexivity |].
  split.
  { rewrite <- (map_price_withPrice _ (usable_filter pools)).
    apply Permutation_map. exact Hperm. }
  split; [apply sorted_map_price, sort_by_price_sorted |].
  split; [rewrite length_map; apply map_nth_error; exact En |].
  split; [reflexivity |].
  split; [apply sumAda_spec, usable_filter |].
  split; [reflexivity |]. split; [reflexivity |]. split; [| reflexivity].
  cbn. unfold pw, length_Z. now rewrite length_map.
Qed.

(** C4, on the code.  One pool with 100 on the base side and 50 on the
    quote side: its price 2 is in range, the resolver takes the weighted
    average, and the returned medianUsed is true, the value of the
    suspicious flag. *)
Theorem median_flag_set_on_weighted_average :
  let pools := [ {| dex := "MINSWAP"; token_1_amount := Some 100%Q;
                    token_2_amount := Some 50%Q |} ] in
  let w := world (Returned (Some pools)) (Thrown "not asked") (Thrown "not asked") in
  filter reasonable pools = pools /\
  exists r,
    calculateWeightedPrice "token" w = Returned r /\
    (PA.weightedPrice r == 2)%Q /\
    (PA.weightedPrice r == liquidityWeighted (liquiditySum pools) pools)%Q /\
    PA.filteredOutliers r = false /\
    PA.suspiciousLiquidity r = Some true /\
    PA.medianUsed r = Some true.
Proof.
  cbv zeta. split; [reflexivity |].
  eexists. split; [reflexivity |]. cbn. repeat split.
Qed.

(** On the weighted average the script returns medianUsed with the
    value of the suspicious flag, whatever the pools. *)
Lemma median_flag_is_suspicious_flag (tokenId : string) (w : World) (pools : list Pool) :
  get_pools w tokenId = Returned (Some pools) ->
  filter reasonable pools <> [] ->
  exists r,
    calculateWeightedPrice tokenId w = Returned r /\
    (PA.medianUsed r = None \/ PA.medianUsed r = PA.suspiciousLiquidity r).
Proof.
  intros Hp Hne. rewrite (weighted_branch tokenId w pools Hp Hne). cbv zeta.
  eexists; split; [reflexivity |].
  destruct (JS.eq _ 0); cbn; auto.
Qed.

(** ** The ranked list of the report *)

Lemma validMarketCap_rankable (token : ET.t) :
  validMarketCap token = true <-> rankable token.
Proof.
  unfold validMarketCap, rankable, JS.gt_u, scoreAtLeast.
  rewrite andb_true_iff. split.
  - intros [Hm Hs]. split.
    + destruct (ET.market_cap token) as [x |]; [| discriminate].
      exists x. split; [reflexivity | now apply gt_spec].
    + destruct (ET.trust_assessment token) as [ta |]; [| discriminate].
      exists ta. split; [reflexivity | now apply Z.geb_le].
  - intros [(x & -> & Hx) (ta & -> & Hta)]. split.
    + now apply gt_spec.
    + now apply Z.geb_le.
Qed.

Lemma marketCapDescending_trans (a b c : ET.t) :
  marketCapDescending a b -> marketCapDescending b c -> marketCapDescending a c.
Proof.
  unfold marketCapDescending.
  destruct (ET.market_cap a), (ET.market_cap b), (ET.market_cap c); try tauto.
  intros H1 H2. now apply Qle_trans with q0.
Qed.

(** C9. For every array of tokens the ranked list of the report holds
    exactly the tokens with a market cap above zero and a trust score of
    at least 40, each as often as in the array, by market cap descending;
    every other token is left out. *)
Theorem report_ranks_valid_tokens_by_market_cap :
  forall (enhancedTokens : list ET.t) (w : World),
    let ranked := top_tokens_by_market_cap_valid (generateMarketCapReport enhancedTokens w) in
    (forall token, In token ranked <-> In token enhancedTokens /\ rankable token) /\
    Permutation ranked (filter validMarketCap enhancedTokens) /\
    StronglySorted marketCapDescending ranked.
Proof.
  intros enhancedTokens w ranked.
  assert (Hperm : Permutation ranked (filter validMarketCap enhancedTokens))
    by apply sort_perm.
  split; [| split; [exact Hperm |]].
  - intros token. rewrite <- validMarketCap_rankable, <- filter_In.
    split; apply Permutation_in; [exact Hperm | now apply Permutation_sym].
  - apply (sort_sorted _ (fun token => exists x, ET.market_cap token = Some x)).
    + intros a b [x Ha] [y Hb] H. unfold byMarketCapDesc, marketCapDescending in *.
      rewrite Ha, Hb in *. apply gt_false in H. lra.
    + intros a b [x Ha] [y Hb] H. unfold byMarketCapDesc, marketCapDescending in *.
      rewrite Ha, Hb in *. apply gt_spec in H. lra.
    + apply marketCapDescending_trans.
    + apply Forall_forall. intros token Ht. apply filter_In in Ht as [_ Ht].
      apply validMarketCap_rankable in Ht as [(x & Hx & _) _]. now exists x.
Qed.

(** ** The caution of the validator *)

Section QuietSteps.
Variable kind : Message -> bool.

Lemma Quiet_skip : Quiet kind skip.
Proof. intros r H; exact H. Qed.

Lemma Quiet_andThen (f g : Upd Validation.t) :
  Quiet kind f -> Quiet kind g -> Quiet kind (andThen f g).
Proof. intros Hf Hg r H. apply Hg, Hf, H. Qed.

Lemma Quiet_when (b : bool) (f : Upd Validation.t) : Quiet kind f -> Quiet kind (when b f).
Proof. destruct b; cbn; auto using Quiet_skip. Qed.

Lemma Quiet_if (b : bool) (f g : Upd Validation.t) :
  Quiet kind f -> Quiet kind g -> Quiet kind (if b then f else g).
Proof. destruct b; auto. Qed.

Lemma Quiet_invalidate : Quiet kind Validation.invalidate.
Proof. intros r H; exact H. Qed.

Lemma Quiet_push (m : Message) : kind m = false -> Quiet kind (Validation.push m).
Proof.
  intros Hm r H. cbn. apply Forall_app; split; [exact H |]. now constructor.
Qed.

End QuietSteps.

Lemma Keeps_skip : Keeps skip.
Proof. intros r m H; exact H. Qed.

Lemma Keeps_andThen (f g : Upd Validation.t) : Keeps f -> Keeps g -> Keeps (andThen f g).
Proof. intros Hf Hg r m H. apply Hg, Hf, H. Qed.

Lemma Keeps_when (b : bool) (f : Upd Validation.t) : Keeps f -> Keeps (when b f).
Proof. destruct b; cbn; auto using Keeps_skip. Qed.

Lemma Keeps_invalidate : Keeps Validation.invalidate.
Proof. intros r m H; exact H. Qed.

Lemma Keeps_push (m : Message) : Keeps (Validation.push m).
Proof. intros r m' H. cbn. apply in_or_app. now left. Qed.

Ltac quiet :=
  lazymatch goal with
  | |- Quiet _ skip => apply Quiet_skip
  | |- Quiet _ Validation.invalidate => apply Quiet_invalidate
  | |- Quiet _ (Validation.push _) => apply Quiet_push; reflexivity
  | |- Quiet _ (when false _) => apply Quiet_skip
  | |- Quiet _ (when _ _) => apply Quiet_when; quiet
  | |- Quiet _ (if _ then _ else _) => apply Quiet_if; quiet
  | |- Quiet _ (andThen _ _) => apply Quiet_andThen; quiet
  end.

Ltac keeps :=
  lazymatch goal with
  | |- Keeps skip => apply Keeps_skip
  | |- Keeps Validation.invalidate => apply Keeps_invalidate
  | |- Keeps (Validation.push _) => apply Keeps_push
  | |- Keeps (when _ _) => apply Keeps_when; keeps
  | |- Keeps (andThen _ _) => apply Keeps_andThen; keeps
  end.

(** The validator records the caution only from the [trustScore]
    property of the assessment: without it, no reason is the caution. *)
Lemma caution_needs_trustScore (marketCap totalLiquidity : Q) (trustAssessment : TA.t) :
  TA.trustScore trustAssessment = None ->
  Forall (fun m => isCaution m = false)
    (Validation.reasons (validateMarketCap marketCap totalLiquidity trustAssessment)).
Proof.
  intros H. unfold validateMarketCap. rewrite H. cbn [JS.lt_uz].
  match goal with
  | |- Forall _ (Validation.reasons (?f ?r)) =>
      assert (Hq : Quiet isCaution f); [| apply Hq; constructor]
  end.
  cbv zeta. quiet.
Qed.

(** With the property present, below 40 and no honeypot flag, the
    caution is among the reasons. *)
Lemma caution_from_trustScore (marketCap totalLiquidity : Q) (trustAssessment : TA.t)
    (s : Z) :
  TA.isHoneypot trustAssessment = false ->
  TA.trustScore trustAssessment = Some s ->
  s < 40 ->
  In (lowScoreCaution (Some s))
    (Validation.reasons (validateMarketCap marketCap totalLiquidity trustAssessment)).
Proof.
  intros Hh Hs Hlt. unfold validateMarketCap. rewrite Hh, Hs. cbn [JS.lt_uz].
  apply Z.ltb_lt in Hlt. rewrite Hlt.
  repeat match goal with
         | |- In _ (Validation.reasons (andThen ?f ?g ?r)) =>
             change (andThen f g r) with (g (f r))
         end.
  match goal with
  | |- In _ (Validation.reasons (?last (when true ?push ?r))) =>
      assert (Hk : Keeps last); [| apply Hk]
  end.
  - keeps.
  - cbn. apply in_or_app. right. now left.
Qed.

(** The scorer never sets the property the validator reads. *)
Lemma scorer_sets_no_trustScore tokenId poolCount suspiciousLiquidity totalLiquidity
    marketCap circulatingSupply ticker tokenAge priceFromAveragePrice :
  TA.trustScore (calculateTrustScore tokenId poolCount suspiciousLiquidity totalLiquidity
                   marketCap circulatingSupply ticker tokenAge priceFromAveragePrice) = None.
Proof.
  unfold calculateTrustScore. now destruct (classify _ _).
Qed.

(** C1, on the code.  The example of the specification: market cap
    100,000, liquidity 10,000 and the assessment the scorer returns for a
    token without pools that is older than a year, score 35 and no
    honeypot.  The validation is valid and has no reason at all: the
    validator reads the score under [trustScore], the scorer returns it
    under [score]. *)
Theorem low_score_caution_missing_for_scored_token :
  let trustAssessment :=
    calculateTrustScore "token" 0 None 10000 100000 1000 (Some "SNEK"%string)
      (Some 400%Q) None in
  let validation := validateMarketCap 100000 10000 trustAssessment in
  TA.score trustAssessment = 35 /\
  TA.trustLevel trustAssessment = Low /\
  TA.isHoneypot trustAssessment = false /\
  TA.trustScore trustAssessment = None /\
  Validation.valid validation = true /\
  Validation.reasons validation = [] /\
  ~ In (lowScoreCaution (Some 35)) (Validation.reasons validation).
Proof.
  cbv zeta. repeat split. intros H. exact H.
Qed.

(** What [enhanceTokenData] passes to the validator. *)
Lemma enhanced_validation (token : Token.t) (w : World) (e : ET.t) (v : Validation.t) :
  enhanceTokenData token w = Returned e ->
  ET.validation e = Some v ->
  exists pa marketCap trustAssessment,
    calculateWeightedPrice (Token.token_id token) w = Returned pa /\
    (marketCap == 0 \/ ~ PA.weightedPrice pa == 0)%Q /\
    TA.trustScore trustAssessment = None /\
    TA.noPoolsFound trustAssessment = PA.noPoolsFound pa /\
    v = validateMarketCap marketCap (PA.totalLiquidity pa) trustAssessment.
Proof.
  unfold enhanceTokenData, try_catch, bind, await, ret.
  destruct (getTokenInfo (Token.token_id token) w) as [msg0 | tokenInfo];
    [intros H; inversion H; subst e; discriminate |].
  destruct (calculateWeightedPrice (Token.token_id token) w) as [msg1 | pa];
    [intros H; inversion H; subst e; discriminate |].
  match goal with
  | |- context [detectCopycat ?t ?c ?m ?l w] => destruct (detectCopycat t c m l w) as [msg2 | hit]
  end; [intros H; inversion H; subst e; discriminate |].
  intros H Hv. inversion H; subst e; clear H. cbn [ET.validation] in Hv.
  inversion Hv; subst v; clear Hv.
  eexists pa, _, _. split; [reflexivity |].
  split; [| split; [| split; [| reflexivity]]].
  - destruct (Qeq_dec (PA.weightedPrice pa) 0) as [E | E]; [left | now right].
    rewrite E. ring.
  - cbn [TA.trustScore]. apply scorer_sets_no_trustScore.
  - reflexivity.
Qed.

(** No token the script enhances gets the caution, whatever its score. *)
Lemma enhanced_token_never_cautioned (token : Token.t) (w : World) (e : ET.t)
    (v : Validation.t) :
  enhanceTokenData token w = Returned e ->
  ET.validation e = Some v ->
  Forall (fun m => isCaution m = false) (Validation.reasons v).
Proof.
  intros He Hv.
  destruct (enhanced_validation token w e v He Hv) as (pa & mc & ta & _ & _ & Hts & _ & ->).
  now apply caution_needs_trustScore.
Qed.

(** A blacklisted token with three balanced pools, older than a year:
    score 25, no honeypot, valid and without a reason. *)
Lemma enhanced_low_score_without_caution :
  let pool := fun amount : Q =>
    {| dex := "MINSWAP"; token_1_amount := Some amount; token_2_amount := Some amount |} in
  let w :=
    {| get_pools := fun _ => Returned (Some [pool 4000%Q; pool 3000%Q; pool 3000%Q]);
       get_averagePrice := fun _ _ => Thrown "not asked";
       get_token := fun _ => Returned (Some {| creation_date := Some 0 |});
       readdirSync := Returned [];
       readSummary := fun _ => Thrown "ENOENT";
       now := 400 * (1000 * 60 * 60 * 24) |} in
  let token :=
    {| Token.token_id := "addr1w9zru...lfqw";
       Token.ticker := Some "SNEK"%string;
       Token.name := Some "Snek"%string;
       Token.circulating_supply := Some 100000%Q;
       Token.total_supply := Some 100000%Q |} in
  exists e ta v,
    enhanceTokenData token w = Returned e /\
    ET.trust_assessment e = Some ta /\ ts_score ta = 25 /\ ts_level ta = Low /\
    ET.honeypot_risk e = Some false /\
    ET.validation e = Some v /\
    Validation.valid v = true /\ Validation.reasons v = [].
Proof.
  cbv zeta. eexists _, _, _. split; [vm_compute; reflexivity |].
  cbn. repeat split.
Qed.

(** The noPoolsFound property only comes with the zero price. *)
Lemma noPoolsFound_only_at_zero_price (tokenId : string) (w : World) (r : PA.t) :
  calculateWeightedPrice tokenId w = Returned r ->
  PA.noPoolsFound r = Some true ->
  PA.weightedPrice r = 0%Q.
Proof.
  destruct (get_pools w tokenId) as [e | [[| p0 ps] |]] eqn:Hp.
  - unfold calculateWeightedPrice, try_catch, bind, await, ret. rewrite Hp.
    intros H; inversion H; subst r; discriminate.
  - rewrite (calculateWeightedPrice_no_pools tokenId w (or_intror Hp)), noPoolData_cases.
    intros H; inversion H; subst r; clear H.
    destruct (lookup w tokenId "ADA" price_ba); [discriminate |].
    destruct (lookupThrows w tokenId "ADA"); [reflexivity |].
    destruct (lookup w "ADA" tokenId price_ab); [discriminate | reflexivity].
  - destruct (filter usable (p0 :: ps)) as [| u us] eqn:Hu.
    + rewrite (all_invalid_branch tokenId w (p0 :: ps) Hp).
      * intros H; inversion H; subst r.
        destruct (lookup w tokenId "ADA" price_ba); discriminate.
      * discriminate.
      * apply forallb_forall. intros p Hin. apply negb_true_iff.
        destruct (usable p) eqn:E; [| reflexivity].
        assert (Hf : In p (filter usable (p0 :: ps))) by (apply filter_In; auto).
        rewrite Hu in Hf. contradiction.
    + destruct (filter reasonable (p0 :: ps)) as [| k ks] eqn:Hk.
      * destruct (median_branch tokenId w (p0 :: ps) Hp)
          as (r' & _ & _ & Hr' & _ & _ & _ & _ & _ & _ & _ & _ & Hnone).
        { rewrite Hu; discriminate. }
        { exact Hk. }
        rewrite Hr'. intros H; inversion H; subst r. rewrite Hnone. discriminate.
      * rewrite (weighted_branch tokenId w (p0 :: ps) Hp); [| rewrite Hk; discriminate].
        cbv zeta. intros H; inversion H; subst r; clear H.
        destruct (JS.eq _ 0); discriminate.
  - rewrite (calculateWeightedPrice_no_pools tokenId w (or_introl Hp)), noPoolData_cases.
    intros H; inversion H; subst r; clear H.
    destruct (lookup w tokenId "ADA" price_ba); [discriminate |].
    destruct (lookupThrows w tokenId "ADA"); [reflexivity |].
    destruct (lookup w "ADA" tokenId price_ab); [discriminate | reflexivity].
Qed.

(** The rule of the validator on noPoolsFound asks for a market cap
    above 1,000,000, and the property only comes with the price 0: no
    enhanced token ever gets its reason. *)
Lemma noPoolsFound_rule_never_fires (token : Token.t) (w : World) (e : ET.t)
    (v : Validation.t) :
  enhanceTokenData token w = Returned e ->
  ET.validation e = Some v ->
  Forall (fun m => isNoPoolsReason m = false) (Validation.reasons v).
Proof.
  intros He Hv.
  destruct (enhanced_validation token w e v He Hv)
    as (pa & mc & ta & Hpa & Hmc & _ & Hnp & ->).
  assert (Hrule : JS.truthy_bool (TA.noPoolsFound ta) && JS.gt mc 1000000 = false).
  { rewrite Hnp. destruct (PA.noPoolsFound pa) as [[|] |] eqn:E; try reflexivity.
    cbn [JS.truthy_bool andb]. apply gt_false.
    destruct Hmc as [Hz | Hnz].
    - rewrite Hz. discriminate.
    - exfalso. apply Hnz.
      rewrite (noPoolsFound_only_at_zero_price _ _ _ Hpa E). reflexivity. }
  unfold validateMarketCap. rewrite Hrule.
  match goal with
  | |- Forall _ (Validation.reasons (?f ?r)) =>
      assert (Hq : Quiet isNoPoolsReason f); [| apply Hq; constructor]
  end.
  cbv zeta. quiet.
Qed.

(** * Further properties

    ** The cases of the resolver *)

Lemma usable_positive (pool : Pool) :
  usable pool = true -> (0 < baseAmount pool)%Q /\ (0 < quoteAmount pool)%Q.
Proof.
  unfold usable. rewrite andb_true_iff, !gt_spec. tauto.
Qed.

Lemma liquiditySum_nonneg (pools : list Pool) :
  Forall (fun pool => usable pool = true) pools -> (0 <= liquiditySum pools)%Q.
Proof.
  unfold liquiditySum. induction 1 as [| p l Hp Hl IH]; cbn [fold_right]; [lra |].
  apply usable_positive in Hp. lra.
Qed.

Lemma liquiditySum_positive (pools : list Pool) :
  Forall (fun pool => usable pool = true) pools -> pools <> [] ->
  (0 < liquiditySum pools)%Q.
Proof.
  intros H Hne. destruct H as [| p l Hp Hl]; [contradiction |].
  pose proof (liquiditySum_nonneg l Hl) as Hn.
  apply usable_positive in Hp. unfold liquiditySum in *. cbn [fold_right]. lra.
Qed.

Lemma kept_liquidity_positive (pools : list Pool) :
  filter reasonable pools <> [] ->
  (0 < sumAda (map withPrice (filter reasonable pools)))%Q.
Proof.
  intros Hne. rewrite (sumAda_spec _ (reasonable_usable pools)).
  apply liquiditySum_positive; [apply reasonable_usable | exact Hne].
Qed.

Lemma forallb_not_usable (pools : list Pool) :
  filter usable pools = [] -> forallb (fun pool => negb (usable pool)) pools = true.
Proof.
  intros Hu. apply forallb_forall. intros p Hin. apply negb_true_iff.
  destruct (usable p) eqn:E; [| reflexivity].
  assert (Hf : In p (filter usable pools)) by (apply filter_In; auto).
  rewrite Hu in Hf. contradiction.
Qed.

Lemma median_shape (tokenId : string) (w : World) (pools : list Pool) :
  get_pools w tokenId = Returned (Some pools) ->
  filter usable pools <> [] ->
  filter reasonable pools = [] ->
  let poolsWithPrices := map withPrice (filter usable pools) in
  let sortedPrices := JS.sort (fun a b => (price a - price b)%Q) poolsWithPrices in
  exists middle,
    nth_error sortedPrices (List.length sortedPrices / 2) = Some middle /\
    calculateWeightedPrice tokenId w = Returned (medianResult poolsWithPrices middle).
Proof.
  intros Hp Hu Hr. cbv zeta.
  unfold calculateWeightedPrice, try_catch, bind, await. rewrite Hp.
  destruct pools as [| p0 ps]; [contradiction Hu; reflexivity |].
  set (pools := p0 :: ps) in *.
  pose proof (reasonablePools_spec pools) as Hcode. cbv zeta in Hcode.
  rewrite Hcode, Hr, filter_valid_map.
  set (pw := map withPrice (filter usable pools)).
  assert (Hlen : (List.length pw > 0)%nat).
  { unfold pw. rewrite length_map. destruct (filter usable pools); [now contradiction Hu |].
    cbn; lia. }
  assert (Hz : (length_Z pw =? 0) = false) by (apply Z.eqb_neq; unfold length_Z; lia).
  rewrite Hz, andb_false_r.
  change (length_Z (map withPrice []) =? 0) with true. cbv iota.
  unfold medianFallback.
  set (sortedPrices := JS.sort (fun a b => (price a - price b)%Q) pw).
  assert (Hsl : List.length sortedPrices = List.length pw)
    by (apply Permutation_length, sort_perm).
  destruct (nth_error sortedPrices (List.length sortedPrices / 2)) as [middle |] eqn:En.
  - exists middle. split; reflexivity.
  - apply nth_error_None in En.
    pose proof (Nat.div_lt (List.length sortedPrices) 2). lia.
Qed.

Lemma weighted_shape (tokenId : string) (w : World) (pools : list Pool) :
  get_pools w tokenId = Returned (Some pools) ->
  filter reasonable pools <> [] ->
  calculateWeightedPrice tokenId w = Returned (weightedResult pools).
Proof.
  intros Hp Hne. rewrite (weighted_branch tokenId w pools Hp Hne). cbv zeta.
  pose proof (kept_liquidity_positive pools Hne) as Hpos.
  destruct (JS.eq (sumAda (map withPrice (filter reasonable pools))) 0) eqn:E.
  - apply eq_spec in E. lra.
  - unfold weightedResult. now rewrite filter_valid_map.
Qed.

(** Every call of the resolver returns, in one of the five ways. *)
Lemma resolver_cases (tokenId : string) (w : World) :
  exists r, calculateWeightedPrice tokenId w = Returned r /\ Resolved w tokenId r.
Proof.
  destruct (get_pools w tokenId) as [message | [pools |]] eqn:Hp.
  - exists (errorResult message). split; [| now constructor].
    unfold calculateWeightedPrice, try_catch, bind, await, ret. now rewrite Hp.
  - destruct pools as [| p0 ps].
    + eexists. split; [| apply NoPools; now right].
      rewrite (calculateWeightedPrice_no_pools tokenId w (or_intror Hp)).
      apply noPoolData_cases.
    + set (pools := p0 :: ps) in *.
      destruct (filter usable pools) as [| u us] eqn:Hu.
      * eexists. split; [| apply (AllInvalid w tokenId pools Hp); [discriminate | exact Hu]].
        apply all_invalid_branch; [exact Hp | discriminate |].
        now apply forallb_not_usable.
      * destruct (filter reasonable pools) as [| k ks] eqn:Hk.
        -- destruct (median_shape tokenId w pools Hp) as (middle & Hn & Hr).
           { rewrite Hu; discriminate. }
           { exact Hk. }
           eexists. split; [exact Hr |].
           apply (AllOutliers w tokenId pools middle Hp); [rewrite Hu; discriminate | exact Hk |].
           exact Hn.
        -- eexists. split; [apply (weighted_shape tokenId w pools Hp); rewrite Hk; discriminate |].
           apply Averaged; [exact Hp | rewrite Hk; discriminate].
  - eexists. split; [| apply NoPools; now left].
    rewrite (calculateWeightedPrice_no_pools tokenId w (or_introl Hp)).
    apply noPoolData_cases.
Qed.

(** ** Errors and bounds of the resolved price *)

Lemma reasonable_in_range (pool : Pool) :
  reasonable pool = true ->
  usable pool = true /\
  (MIN_REASONABLE_PRICE <= unitPrice pool)%Q /\ (unitPrice pool <= MAX_REASONABLE_PRICE)%Q.
Proof.
  unfold reasonable, JS.ge. rewrite !andb_true_iff, !le_spec. tauto.
Qed.

Lemma liquidityWeighted_bounds (total : Q) (pools : list Pool) :
  (0 < total)%Q ->
  Forall (fun pool => reasonable pool = true) pools ->
  (MIN_REASONABLE_PRICE * (liquiditySum pools / total) <= liquidityWeighted total pools)%Q /\
  (liquidityWeighted total pools <= MAX_REASONABLE_PRICE * (liquiditySum pools / total))%Q.
Proof.
  intros Ht H. unfold liquiditySum, liquidityWeighted.
  induction H as [| p l Hp Hl IH]; cbn [fold_right].
  - unfold Qdiv. rewrite Qmult_0_l, !Qmult_0_r. split; apply Qle_refl.
  - apply reasonable_in_range in Hp as (Hu & Hlo & Hhi).
    apply usable_positive in Hu as [Hb _].
    destruct IH as [IHlo IHhi].
    set (S := fold_right (fun pool s => (baseAmount pool + s)%Q) 0%Q l) in *.
    set (W := fold_right (fun pool s => (unitPrice pool * (baseAmount pool / total) + s)%Q) 0%Q l) in *.
    assert (Hx : (0 <= baseAmount p / total)%Q).
    { apply Qle_shift_div_l; [exact Ht | lra]. }
    assert (Hsplit : forall c, (c * ((baseAmount p + S) / total)
                                == c * (baseAmount p / total) + c * (S / total))%Q).
    { intros c. field. lra. }
    rewrite !Hsplit.
    pose proof (Qmult_le_compat_r _ _ (baseAmount p / total) Hlo Hx).
    pose proof (Qmult_le_compat_r _ _ (baseAmount p / total) Hhi Hx).
    lra.
Qed.

Lemma in_sorted_usable (pools : list Pool) (x : PricedPool) :
  In x (JS.sort (fun a b => (price a - price b)%Q) (map withPrice (filter usable pools))) ->
  exists pool, In pool pools /\ usable pool = true /\ price x = unitPrice pool /\
               adaAmount x = baseAmount pool.
Proof.
  intros Hin.
  apply (Permutation_in _ (sort_perm _ _)) in Hin.
  apply in_map_iff in Hin as (pool & <- & Hp).
  apply filter_In in Hp as [Hp Hu].
  exists pool. rewrite (withPrice_usable pool Hu). auto.
Qed.

Lemma unitPrice_positive (pool : Pool) : usable pool = true -> (0 < unitPrice pool)%Q.
Proof.
  intros Hu. apply usable_positive in Hu as [Hb Hq].
  unfold unitPrice. apply Qlt_shift_div_l; [exact Hq | lra].
Qed.

Lemma Math_min_spec (a b : Q) :
  (JS.Math_min a b <= a)%Q /\ (JS.Math_min a b <= b)%Q /\
  (JS.Math_min a b = a \/ JS.Math_min a b = b).
Proof.
  unfold JS.Math_min. destruct (JS.lt b a) eqn:E.
  - apply lt_spec in E. repeat split; try lra. now right.
  - apply lt_false in E. repeat split; try lra. now left.
Qed.

(** X1. The weighted price resolver returns an object for every token and every answer of the source; it never throws. The object carries an error exactly when the pools request threw, the error being the message of that failure, and then price, liquidity and pool count are 0 and neither [priceFromAveragePrice] nor [noPoolsFound] is on the object. *)
Theorem resolver_error_only_from_pools_request :
  forall (tokenId : string) (w : World),
  exists r,
    calculateWeightedPrice tokenId w = Returned r /\
    (forall message, PA.error r = Some message <-> get_pools w tokenId = Thrown message) /\
    (PA.error r <> None ->
     PA.weightedPrice r = 0%Q /\ PA.totalLiquidity r = 0%Q /\ PA.poolCount r = 0 /\
     PA.priceFromAveragePrice r = None /\ PA.noPoolsFound r = None).
Proof.
  intros tokenId w. destruct (resolver_cases tokenId w) as (r & Hr & Hcase).
  exists r. split; [exact Hr |].
  destruct Hcase as [message Hp | Hp | pools Hp Hne Hu | pools middle Hp Hu Hk pw sp Hn
                    | pools Hp Hne].
  - split; [| intros _; repeat split].
    intros m. cbn. rewrite Hp. split; intros H; inversion H; reflexivity.
  - assert (He : PA.error
                   match lookup w tokenId "ADA" price_ba with
                   | Some p => averagePriceResult p
                   | None =>
                       if lookupThrows w tokenId "ADA" then noPoolsResult
                       else match lookup w "ADA" tokenId price_ab with
                            | Some p => averagePriceResult p
                            | None => noPoolsResult
                            end
                   end = None).
    { destruct (lookup w tokenId "ADA" price_ba); [reflexivity |].
      destruct (lookupThrows w tokenId "ADA"); [reflexivity |].
      destruct (lookup w "ADA" tokenId price_ab); reflexivity. }
    rewrite He. split; [| intros H; now contradiction H].
    intros m. split; [discriminate |]. destruct Hp as [Hp | Hp]; rewrite Hp; discriminate.
  - assert (He : PA.error match lookup w tokenId "ADA" price_ba with
                          | Some p => emptyPoolsFallback pools p
                          | None => emptyPoolsResult pools
                          end = None)
      by (destruct (lookup w tokenId "ADA" price_ba); reflexivity).
    rewrite He. split; [| intros H; now contradiction H].
    intros m. split; [discriminate | rewrite Hp; discriminate].
  - cbn [PA.error medianResult]. split; [| intros H; now contradiction H].
    intros m. split; [discriminate | rewrite Hp; discriminate].
  - cbn [PA.error weightedResult]. split; [| intros H; now contradiction H].
    intros m. split; [discriminate | rewrite Hp; discriminate].
Qed.

Lemma weighted_price_bounds (pools : list Pool) :
  filter reasonable pools <> [] ->
  (MIN_REASONABLE_PRICE <= PA.weightedPrice (weightedResult pools))%Q /\
  (PA.weightedPrice (weightedResult pools) <= MAX_REASONABLE_PRICE)%Q /\
  (0 < PA.totalLiquidity (weightedResult pools))%Q.
Proof.
  intros Hne.
  pose proof (kept_liquidity_positive pools Hne) as Hpos.
  pose proof (sumAda_spec _ (reasonable_usable pools)) as Hsum.
  assert (Hall : Forall (fun pool => reasonable pool = true) (filter reasonable pools)).
  { apply Forall_forall. intros p Hin. now apply filter_In in Hin. }
  destruct (liquidityWeighted_bounds _ (filter reasonable pools) Hpos Hall) as [Hlo Hhi].
  assert (Hone : (liquiditySum (filter reasonable pools)
                  / sumAda (map withPrice (filter reasonable pools)) == 1)%Q).
  { rewrite <- Hsum. field. lra. }
  rewrite Hone, Qmult_1_r in Hlo, Hhi.
  pose proof (weightedAverage_spec (filter reasonable pools)
                (sumAda (map withPrice (filter reasonable pools)))
                (sumAda (map withPrice (filter reasonable pools)))
                (reasonable_usable pools) (Qeq_refl _)) as Hw.
  cbn [PA.weightedPrice PA.totalLiquidity weightedResult].
  rewrite Hw. repeat split; assumption.
Qed.

Lemma median_price_bounds (pools : list Pool) (middle : PricedPool) :
  let poolsWithPrices := map withPrice (filter usable pools) in
  let sortedPrices := JS.sort (fun a b => (price a - price b)%Q) poolsWithPrices in
  nth_error sortedPrices (List.length sortedPrices / 2) = Some middle ->
  (0 < PA.weightedPrice (medianResult poolsWithPrices middle))%Q /\
  (PA.weightedPrice (medianResult poolsWithPrices middle) <= MAX_REASONABLE_PRICE)%Q /\
  (0 <= PA.totalLiquidity (medianResult poolsWithPrices middle))%Q.
Proof.
  cbv zeta. intros Hn.
  cbn [PA.weightedPrice PA.totalLiquidity medianResult].
  destruct (in_sorted_usable pools middle (nth_error_In _ _ Hn)) as (pool & _ & Hu & Hprice & _).
  pose proof (unitPrice_positive pool Hu) as Hpos.
  destruct (Math_min_spec (price middle) MAX_REASONABLE_PRICE) as (_ & Hle & [E | E]).
  - split; [rewrite E, Hprice; exact Hpos |]. split; [exact Hle |].
    rewrite (sumAda_spec _ (usable_filter pools)). apply liquiditySum_nonneg, usable_filter.
  - split; [rewrite E; reflexivity |]. split; [exact Hle |].
    rewrite (sumAda_spec _ (usable_filter pools)). apply liquiditySum_nonneg, usable_filter.
Qed.


(** ** Flags of the resolver *)

Lemma isOutlier_withPrice (pool : Pool) :
  usable pool = true -> (isOutlier (withPrice pool) = true <-> outOfRange pool).
Proof.
  intros Hu. rewrite (withPrice_usable pool Hu). unfold isOutlier, outOfRange. cbn [price].
  now rewrite orb_true_iff, gt_spec, lt_spec.
Qed.

Lemma not_reasonable_outOfRange (pool : Pool) :
  usable pool = true -> (reasonable pool = false <-> outOfRange pool).
Proof.
  intros Hu. rewrite <- (isOutlier_withPrice pool Hu), isOutlier_inRange.
  unfold reasonable. rewrite Hu, (withPrice_usable pool Hu). cbn [andb].
  unfold inRange; cbn [price]. now rewrite negb_true_iff.
Qed.







(** X5. When pools with both amounts above zero exist and every one of them is priced outside the reasonable range, the returned price is the price of one of these pools capped at [MAX_REASONABLE_PRICE]: it is [MAX_REASONABLE_PRICE] itself or lies strictly between 0 and [MIN_REASONABLE_PRICE]. Liquidity and pool count are taken over all pools with both amounts above zero, and neither [originalPoolCount] nor [suspiciousLiquidity] is on the object. *)
Theorem median_price_is_extreme :
  forall (tokenId : string) (w : World) (pools : list Pool),
    get_pools w tokenId = Returned (Some pools) ->
    filter usable pools <> [] ->
    filter reasonable pools = [] ->
    exists r,
      calculateWeightedPrice tokenId w = Returned r /\
      (PA.weightedPrice r = MAX_REASONABLE_PRICE \/
       (0 < PA.weightedPrice r)%Q /\ (PA.weightedPrice r < MIN_REASONABLE_PRICE)%Q) /\
      (exists pool, In pool pools /\ usable pool = true /\ outOfRange pool /\
                    PA.weightedPrice r = JS.Math_min (unitPrice pool) MAX_REASONABLE_PRICE) /\
      (PA.totalLiquidity r == liquiditySum (filter usable pools))%Q /\
      PA.poolCount r = length_Z (filter usable pools) /\
      PA.originalPoolCount r = None /\
      PA.suspiciousLiquidity r = None.
Proof.
  intros tokenId w pools Hp Hu Hk.
  destruct (median_shape tokenId w pools Hp Hu Hk) as (middle & Hn & Hr).
  eexists. split; [exact Hr |].
  cbn [medianResult PA.weightedPrice PA.totalLiquidity PA.poolCount PA.originalPoolCount
       PA.suspiciousLiquidity].
  destruct (in_sorted_usable pools middle (nth_error_In _ _ Hn))
    as (pool & Hin & Hup & Hprice & _).
  assert (Hout : outOfRange pool).
  { apply not_reasonable_outOfRange; [exact Hup |].
    destruct (reasonable pool) eqn:E; [| reflexivity].
    assert (Hf : In pool (filter reasonable pools)) by (apply filter_In; auto).
    rewrite Hk in Hf. contradiction. }
  pose proof (unitPrice_positive pool Hup) as Hpos.
  rewrite Hprice.
  split; [| split; [| split; [| split; [| split; reflexivity]]]].
  - unfold JS.Math_min. destruct Hout as [Hhi | Hlo].
    + apply lt_spec in Hhi. rewrite Hhi. now left.
    + assert (E : JS.lt MAX_REASONABLE_PRICE (unitPrice pool) = false).
      { apply lt_false. unfold MIN_REASONABLE_PRICE, MAX_REASONABLE_PRICE in *. lra. }
      rewrite E. right. split; assumption.
  - exists pool. repeat split; auto.
  - apply sumAda_spec, usable_filter.
  - unfold length_Z. now rewrite length_map.
Qed.

Lemma median_price_is_extreme_witness :
  let pools := [pool "MINSWAP" 5000 1; pool "SUNDAESWAP" 1 5000000] in
  exists r,
    calculateWeightedPrice "token" (poolsOnly pools) = Returned r /\
    (PA.weightedPrice r = MAX_REASONABLE_PRICE \/
     (0 < PA.weightedPrice r)%Q /\ (PA.weightedPrice r < MIN_REASONABLE_PRICE)%Q) /\
    PA.poolCount r = 2 /\ PA.suspiciousLiquidity r = None.
Proof.
  cbv zeta.
  destruct (median_price_is_extreme "token"
              (poolsOnly [pool "MINSWAP" 5000 1; pool "SUNDAESWAP" 1 5000000])
              [pool "MINSWAP" 5000 1; pool "SUNDAESWAP" 1 5000000] eq_refl)
    as (r & Hr & Hprice & _ & _ & Hcount & _ & Hs).
  - discriminate.
  - reflexivity.
  - exists r. auto.
Defined.

(** X6. When the source has no pool for the token and the average price request for the pair token/ADA throws, the resolver does not ask for the pair ADA/token: it returns the zero price object with [noPoolsFound], whatever the source would answer for the reverse pair. *)
Theorem thrown_lookup_ends_fallback :
  forall (tokenId : string) (w : World) (message : string),
    get_pools w tokenId = Returned None \/ get_pools w tokenId = Returned (Some []) ->
    get_averagePrice w tokenId "ADA" = Thrown message ->
    calculateWeightedPrice tokenId w = Returned noPoolsResult.
Proof.
  intros tokenId w message Hp Hf.
  rewrite (calculateWeightedPrice_no_pools tokenId w Hp), noPoolData_cases.
  unfold lookup, lookupThrows. now rewrite Hf.
Qed.

Lemma thrown_lookup_ends_fallback_witness :
  calculateWeightedPrice "token"
    (world (Returned (Some [])) (Thrown "timeout") (Returned (Some {| price_ba := None; price_ab := Some 2%Q |})))
  = Returned noPoolsResult.
Proof.
  apply (thrown_lookup_ends_fallback "token" _ "timeout"); [right |]; reflexivity.
Defined.

(** ** Bounds of the trust score *)

(** The score of [calculateTrustScore] as the floored sum of the steps. *)
Lemma score_as_sum tokenId poolCount suspiciousLiquidity totalLiquidity marketCap
    circulatingSupply ticker tokenAge priceFromAveragePrice :
  let age := match tokenAge with Some a => a | None => 0%Q end in
  let fallback := match priceFromAveragePrice with Some b => b | None => false end in
  TA.score (calculateTrustScore tokenId poolCount suspiciousLiquidity totalLiquidity
              marketCap circulatingSupply ticker tokenAge priceFromAveragePrice)
  = Z.max 0
      (100 + (delta (whitelistCheck tokenId) +
              (delta (blacklistCheck tokenId) +
               (delta (copycatCheck marketCap ticker) +
                (delta (supplyDiscrepancyCheck totalLiquidity marketCap circulatingSupply) +
                 (delta (manipulationCheck totalLiquidity marketCap circulatingSupply) +
                  (delta (poolCountAssessment poolCount totalLiquidity marketCap
                            circulatingSupply ticker fallback) +
                   (delta (liquidityAssessment totalLiquidity) +
                    (delta (distributionAssessment suspiciousLiquidity totalLiquidity) +
                     (delta (ratioAssessment totalLiquidity marketCap) +
                      (delta (ageAssessment age) + 0))))))))))).
Proof.
  cbv zeta.
  destruct (calculateTrustScore_fields tokenId poolCount suspiciousLiquidity totalLiquidity
              marketCap circulatingSupply ticker tokenAge priceFromAveragePrice) as (Hs & _).
  rewrite Hs, adjustments_score. reflexivity.
Qed.

Lemma classified tokenId poolCount suspiciousLiquidity totalLiquidity marketCap
    circulatingSupply ticker tokenAge priceFromAveragePrice :
  let ta := calculateTrustScore tokenId poolCount suspiciousLiquidity totalLiquidity
              marketCap circulatingSupply ticker tokenAge priceFromAveragePrice in
  (TA.trustLevel ta, TA.isHoneypot ta) = classify totalLiquidity (TA.score ta).
Proof.
  cbv zeta.
  destruct (calculateTrustScore_fields tokenId poolCount suspiciousLiquidity totalLiquidity
              marketCap circulatingSupply ticker tokenAge priceFromAveragePrice)
    as (Hs & _ & _ & Hc & _).
  now rewrite Hs.
Qed.

Lemma delta_blacklistCheck_le tokenId : delta (blacklistCheck tokenId) <= 0.
Proof. unfold blacklistCheck; step_cases; lia. Qed.

Lemma delta_poolCountAssessment_le poolCount totalLiquidity marketCap circulatingSupply ticker
    fallback :
  delta (poolCountAssessment poolCount totalLiquidity marketCap circulatingSupply ticker
           fallback) <= 10.
Proof. unfold poolCountAssessment; cbv zeta; step_cases; lia. Qed.

Lemma delta_not_trusted tokenId :
  JS.includes TRUSTED_TOKENS tokenId = false -> delta (whitelistCheck tokenId) = 0.
Proof. intros H. unfold whitelistCheck. rewrite H. reflexivity. Qed.

Ltac fives :=
  step_cases;
  match goal with
  | |- (5 | ?e) => let v := eval vm_compute in e in
                   change (5 | v); exists (v / 5); reflexivity
  end.

Section MultiplesOfFive.
Variables (tokenId : string) (poolCount : Z) (suspiciousLiquidity : option bool)
  (totalLiquidity marketCap circulatingSupply : Q) (ticker : option string)
  (tokenAge : Q) (priceFromAveragePrice : bool).

Lemma steps_multiples_of_five :
  Forall (fun f => (5 | delta f))
    (steps tokenId poolCount suspiciousLiquidity totalLiquidity marketCap circulatingSupply
       ticker tokenAge priceFromAveragePrice).
Proof.
  unfold steps. repeat (apply Forall_cons; [unfold_steps; fives |]). apply Forall_nil.
Qed.

End MultiplesOfFive.

Lemma sum_multiple_of_five (l : list Z) :
  Forall (fun d => (5 | d)) l -> (5 | fold_right Z.add 0 l).
Proof.
  induction 1 as [| d l Hd Hl IH]; cbn [fold_right].
  - exists 0; reflexivity.
  - now apply Z.divide_add_r.
Qed.

(** X7. The trust score is at least 0, at most 195 and a multiple of 5; it is not capped at 100. A token outside the whitelist scores at most 145. The bound 195 is reached, by the whitelisted token with three pools, a liquidity of 200000 ADA and an age of 400 days. *)
Theorem trust_score_bounds :
  forall tokenId poolCount suspiciousLiquidity totalLiquidity marketCap circulatingSupply
         ticker tokenAge priceFromAveragePrice,
    let s := TA.score (calculateTrustScore tokenId poolCount suspiciousLiquidity
                         totalLiquidity marketCap circulatingSupply ticker tokenAge
                         priceFromAveragePrice) in
    0 <= s <= 195 /\
    (5 | s) /\
    (JS.includes TRUSTED_TOKENS tokenId = false -> s <= 145) /\
    TA.score (calculateTrustScore
                "5b26e685cc5c9ad630bde3e3cd48c694436671f3d25df53777ca60ef4e564c"
                3 None 200000 0 0 None (Some 400%Q) None) = 195.
Proof.
  intros tokenId poolCount suspiciousLiquidity totalLiquidity marketCap circulatingSupply
    tick tokenAge priceFromAveragePrice s.
  pose proof (score_as_sum tokenId poolCount suspiciousLiquidity totalLiquidity marketCap
                circulatingSupply tick tokenAge priceFromAveragePrice) as Hs.
  cbv zeta in Hs. fold s in Hs.
  set (age := match tokenAge with Some a => a | None => 0%Q end) in *.
  set (fallback := match priceFromAveragePrice with Some b => b | None => false end) in *.
  pose proof (delta_whitelistCheck_le tokenId).
  pose proof (delta_blacklistCheck_le tokenId).
  pose proof (delta_copycatCheck_le marketCap tick).
  pose proof (delta_supplyDiscrepancyCheck_le totalLiquidity marketCap circulatingSupply).
  pose proof (delta_manipulationCheck_le totalLiquidity marketCap circulatingSupply).
  pose proof (delta_poolCountAssessment_le poolCount totalLiquidity marketCap
                circulatingSupply tick fallback).
  pose proof (delta_liquidityAssessment_le totalLiquidity).
  pose proof (delta_distributionAssessment_le suspiciousLiquidity totalLiquidity).
  pose proof (delta_ratioAssessment_le totalLiquidity marketCap).
  pose proof (delta_ageAssessment_le age).
  split; [lia |]. split; [| split; [| reflexivity]].
  - assert (Hsum : (5 | fold_right Z.add 0
                           (map delta
                              (steps tokenId poolCount suspiciousLiquidity totalLiquidity
                                 marketCap circulatingSupply tick age fallback)))).
    { apply sum_multiple_of_five. apply Forall_map. apply steps_multiples_of_five. }
    unfold steps in Hsum; cbn [map fold_right] in Hsum.
    rewrite Hs. apply Z.max_case; [exists 0; reflexivity |].
    apply Z.divide_add_r; [exists 20; reflexivity | exact Hsum].
  - intros Hn. rewrite (delta_not_trusted _ Hn) in Hs. lia.
Qed.

(** ** Whitelist, unpriced tokens and the legacy check *)

Lemma trusted_not_blacklisted tokenId :
  JS.includes TRUSTED_TOKENS tokenId = true -> JS.includes HONEYPOT_BLACKLIST tokenId = false.
Proof.
  unfold JS.includes, TRUSTED_TOKENS; cbn [existsb].
  rewrite orb_false_r, String.eqb_eq. intros ->. reflexivity.
Qed.

(** X8. On the same other inputs, a whitelisted token gets exactly the penalties of a token that is on neither list, and its bonuses with the whitelist bonus of 50 points in front; its score is the sum of the other token's adjustments plus 50, floored at 0. *)
Theorem whitelist_adds_one_bonus :
  forall trusted other poolCount suspiciousLiquidity totalLiquidity marketCap
         circulatingSupply ticker tokenAge priceFromAveragePrice,
    JS.includes TRUSTED_TOKENS trusted = true ->
    JS.includes TRUSTED_TOKENS other = false ->
    JS.includes HONEYPOT_BLACKLIST other = false ->
    let ta := calculateTrustScore trusted poolCount suspiciousLiquidity totalLiquidity
                marketCap circulatingSupply ticker tokenAge priceFromAveragePrice in
    let ta' := calculateTrustScore other poolCount suspiciousLiquidity totalLiquidity
                 marketCap circulatingSupply ticker tokenAge priceFromAveragePrice in
    TA.penalties ta = TA.penalties ta' /\
    TA.bonuses ta =
      {| reason := msg "Token is in trusted whitelist"; points := 50 |} :: TA.bonuses ta' /\
    TA.score ta =
      Z.max 0 (100 + sumPoints (TA.bonuses ta') + sumPoints (TA.penalties ta') + 50).
Proof.
  intros trusted other poolCount suspiciousLiquidity totalLiquidity marketCap
    circulatingSupply tick tokenAge priceFromAveragePrice Ht Ho Hb ta ta'.
  pose proof (trusted_not_blacklisted _ Ht) as Htb.
  destruct (records_in_order trusted poolCount suspiciousLiquidity totalLiquidity marketCap
              circulatingSupply tick tokenAge priceFromAveragePrice) as [Hp Hbn].
  destruct (records_in_order other poolCount suspiciousLiquidity totalLiquidity marketCap
              circulatingSupply tick tokenAge priceFromAveragePrice) as [Hp' Hbn'].
  fold ta in Hp, Hbn. fold ta' in Hp', Hbn'.
  unfold steps in Hp, Hbn, Hp', Hbn'. cbn [map List.concat] in Hp, Hbn, Hp', Hbn'.
  unfold whitelistCheck, blacklistCheck in Hp, Hbn, Hp', Hbn'.
  rewrite Ht, Htb in Hp, Hbn. rewrite Ho, Hb in Hp', Hbn'.
  assert (Ep : TA.penalties ta = TA.penalties ta') by (rewrite Hp, Hp'; reflexivity).
  assert (Eb : TA.bonuses ta =
               {| reason := msg "Token is in trusted whitelist"; points := 50 |}
               :: TA.bonuses ta') by (rewrite Hbn, Hbn'; reflexivity).
  split; [exact Ep |]. split; [exact Eb |].
  pose proof (score_from_records trusted poolCount suspiciousLiquidity totalLiquidity
                marketCap circulatingSupply tick tokenAge priceFromAveragePrice) as Hs.
  cbv zeta in Hs. fold ta in Hs. rewrite Hs, Ep, Eb.
  unfold sumPoints at 1. cbn [fold_right points]. fold (sumPoints (TA.bonuses ta')).
  f_equal. lia.
Qed.

Lemma whitelist_adds_one_bonus_witness :
  let trusted := "5b26e685cc5c9ad630bde3e3cd48c694436671f3d25df53777ca60ef4e564c"%string in
  let ta := calculateTrustScore trusted 3 None 200000 0 0 None (Some 400%Q) None in
  let ta' := calculateTrustScore "token" 3 None 200000 0 0 None (Some 400%Q) None in
  TA.penalties ta = TA.penalties ta' /\
  TA.bonuses ta =
    {| reason := msg "Token is in trusted whitelist"; points := 50 |} :: TA.bonuses ta' /\
  TA.score ta =
    Z.max 0 (100 + sumPoints (TA.bonuses ta') + sumPoints (TA.penalties ta') + 50).
Proof.
  apply (whitelist_adds_one_bonus
           "5b26e685cc5c9ad630bde3e3cd48c694436671f3d25df53777ca60ef4e564c" "token");
    reflexivity.
Defined.

Lemma delta_extremely_low totalLiquidity :
  (totalLiquidity < 100)%Q -> delta (liquidityAssessment totalLiquidity) = -70.
Proof.
  intros H. apply lt_spec in H. unfold liquidityAssessment. rewrite H. reflexivity.
Qed.

Lemma delta_fallback_no_pools totalLiquidity marketCap circulatingSupply ticker :
  delta (poolCountAssessment 0 totalLiquidity marketCap circulatingSupply ticker true) <= -10.
Proof. unfold poolCountAssessment; cbv zeta; cbn [Z.eqb]; step_cases; lia. Qed.

Lemma no_pools_low_liquidity :
  forall tokenId suspiciousLiquidity totalLiquidity marketCap circulatingSupply ticker
         tokenAge priceFromAveragePrice,
    (totalLiquidity < 100)%Q ->
    priceFromAveragePrice <> Some true \/ JS.includes TRUSTED_TOKENS tokenId = false ->
    let ta := calculateTrustScore tokenId 0 suspiciousLiquidity totalLiquidity marketCap
                circulatingSupply ticker tokenAge priceFromAveragePrice in
    TA.isHoneypot ta = true /\
    TA.score ta <= 35 /\
    (priceFromAveragePrice <> Some true -> TA.score ta <= 15 /\ TA.trustLevel ta = VeryLow).
Proof.
  intros tokenId suspiciousLiquidity totalLiquidity marketCap circulatingSupply tick
    tokenAge priceFromAveragePrice Hl Hor ta.
  pose proof (score_as_sum tokenId 0 suspiciousLiquidity totalLiquidity marketCap
                circulatingSupply tick tokenAge priceFromAveragePrice) as Hs.
  pose proof (classified tokenId 0 suspiciousLiquidity totalLiquidity marketCap
                circulatingSupply tick tokenAge priceFromAveragePrice) as Hc.
  cbv zeta in Hs, Hc. fold ta in Hs, Hc.
  set (age := match tokenAge with Some a => a | None => 0%Q end) in *.
  rewrite (delta_extremely_low _ Hl) in Hs.
  pose proof (delta_whitelistCheck_le tokenId).
  pose proof (delta_blacklistCheck_le tokenId).
  pose proof (delta_copycatCheck_le marketCap tick).
  pose proof (delta_supplyDiscrepancyCheck_le totalLiquidity marketCap circulatingSupply).
  pose proof (delta_manipulationCheck_le totalLiquidity marketCap circulatingSupply).
  pose proof (delta_distributionAssessment_le suspiciousLiquidity totalLiquidity).
  pose proof (delta_ratioAssessment_le totalLiquidity marketCap).
  pose proof (delta_ageAssessment_le age).
  assert (Hlow : JS.lt totalLiquidity 5000 = true) by (apply lt_spec; lra).
  assert (Hhoney : TA.score ta <= 35 -> TA.isHoneypot ta = true).
  { intros Hle. unfold classify in Hc. rewrite Hlow in Hc.
    destruct (Z.ltb_spec (TA.score ta) 20); [now inversion Hc |].
    destruct (Z.ltb_spec (TA.score ta) 40); [now inversion Hc | lia]. }
  destruct priceFromAveragePrice as [[|] |].
  - destruct Hor as [Hor | Hnt]; [now contradiction Hor |].
    pose proof (delta_fallback_no_pools totalLiquidity marketCap circulatingSupply tick).
    rewrite (delta_not_trusted _ Hnt) in Hs.
    assert (Hle : TA.score ta <= 35) by lia.
    split; [now apply Hhoney |]. split; [exact Hle |]. intros Hn; now contradiction Hn.
  - rewrite delta_no_pools in Hs.
    assert (Hle : TA.score ta <= 15) by lia.
    split; [apply Hhoney; lia |]. split; [lia |]. intros _. split; [exact Hle |].
    unfold classify in Hc. destruct (Z.ltb_spec (TA.score ta) 20); [now inversion Hc | lia].
  - rewrite delta_no_pools in Hs.
    assert (Hle : TA.score ta <= 15) by lia.
    split; [apply Hhoney; lia |]. split; [lia |]. intros _. split; [exact Hle |].
    unfold classify in Hc. destruct (Z.ltb_spec (TA.score ta) 20); [now inversion Hc | lia].
Qed.

(** X9. A token with a pool count of 0 and a liquidity below 100 ADA is classified as a honeypot with a score of at most 35, unless it is whitelisted and priced by the average price endpoint; when the price is not from the average price endpoint, the score is at most 15 and the level is Very Low. *)
Theorem unpriced_tokens_are_honeypots :
  forall tokenId suspiciousLiquidity totalLiquidity marketCap circulatingSupply ticker
         tokenAge priceFromAveragePrice,
    (totalLiquidity < 100)%Q ->
    priceFromAveragePrice <> Some true \/ JS.includes TRUSTED_TOKENS tokenId = false ->
    let ta := calculateTrustScore tokenId 0 suspiciousLiquidity totalLiquidity marketCap
                circulatingSupply ticker tokenAge priceFromAveragePrice in
    TA.isHoneypot ta = true /\
    TA.score ta <= 35 /\
    (priceFromAveragePrice <> Some true -> TA.score ta <= 15 /\ TA.trustLevel ta = VeryLow).
Proof. exact no_pools_low_liquidity. Qed.

Lemma unpriced_tokens_are_honeypots_witness :
  let ta := calculateTrustScore "token" 0 (Some true) 0 0 1000000 None (Some 0%Q) None in
  TA.isHoneypot ta = true /\
  TA.score ta <= 35 /\
  (@None bool <> Some true -> TA.score ta <= 15 /\ TA.trustLevel ta = VeryLow).
Proof.
  apply (unpriced_tokens_are_honeypots "token" (Some true) 0 0 1000000 None (Some 0%Q) None);
    [reflexivity | left; discriminate].
Defined.

Lemma sumPoints_nonneg (l : list Adjustment) :
  Forall (fun a => 0 < points a) l -> 0 <= sumPoints l.
Proof.
  unfold sumPoints. induction 1 as [| a l Ha Hl IH]; cbn [fold_right]; lia.
Qed.

Lemma bonuses_positive tokenId poolCount suspiciousLiquidity totalLiquidity marketCap
    circulatingSupply ticker tokenAge priceFromAveragePrice :
  Forall (fun a => 0 < points a)
    (TA.bonuses (calculateTrustScore tokenId poolCount suspiciousLiquidity totalLiquidity
                   marketCap circulatingSupply ticker tokenAge priceFromAveragePrice)).
Proof.
  destruct (calculateTrustScore_fields tokenId poolCount suspiciousLiquidity totalLiquidity
              marketCap circulatingSupply ticker tokenAge priceFromAveragePrice)
    as (_ & _ & Hb & _).
  rewrite Hb.
  match goal with
  | |- context [adjustments ?a ?b ?c ?d ?e ?f ?g ?h ?i initialTally] =>
      destruct (Faithful_adjustments a b c d e f g h i initialTally) as [_ Hs]
  end.
  apply Hs. split; constructor.
Qed.

Lemma sort_by_points_sorted (l : list Adjustment) :
  StronglySorted (fun a b => points a <= points b)
    (JS.sort (fun a b => inject_Z (points a - points b)) l).
Proof.
  apply (sort_sorted _ (fun _ => True)).
  - intros a b _ _ H. apply gt_false in H.
    change 0%Q with (inject_Z 0) in H. rewrite <- Zle_Qle in H. lia.
  - intros a b _ _ H. apply gt_spec in H.
    change 0%Q with (inject_Z 0) in H. rewrite <- Zlt_Qlt in H. lia.
  - intros a b c. lia.
  - apply Forall_forall. auto.
Qed.

(** X10. [checkHoneypot] always returns; its verdict and score are those of the scorer called without age and fallback flag, the ticker defaulting to the empty string. A token that is no honeypot has no reason. A honeypot always has at least one penalty, and its reason is the score line followed by the reason of a penalty with the lowest points. *)
Theorem legacy_check_names_most_severe_penalty :
  forall tokenId poolCount suspiciousLiquidity totalLiquidity marketCap circulatingSupply
         ticker,
    let ta := calculateTrustScore tokenId poolCount suspiciousLiquidity totalLiquidity
                marketCap circulatingSupply
                (match ticker with Some t => Some t | None => Some EmptyString end)
                None None in
    exists r,
      checkHoneypot tokenId poolCount suspiciousLiquidity totalLiquidity marketCap
        circulatingSupply ticker = Returned r /\
      HC.isHoneypot r = TA.isHoneypot ta /\
      HC.trustScore r = TA.score ta /\
      (TA.isHoneypot ta = false -> HC.reason r = None) /\
      (TA.isHoneypot ta = true ->
       exists worst,
         In worst (TA.penalties ta) /\
         (forall p, In p (TA.penalties ta) -> points worst <= points p) /\
         HC.reason r =
           Some ([Lit "Low trust score ("; Int (TA.score ta); Lit "/100, ";
                  Lit (levelName (TA.trustLevel ta)); Lit " trust)"]
                 ++ Lit ": " :: reason worst)).
Proof.
  intros tokenId poolCount suspiciousLiquidity totalLiquidity marketCap circulatingSupply
    tick ta.
  unfold checkHoneypot. fold ta.
  destruct (TA.isHoneypot ta) eqn:Hh.
  2:{ eexists. split; [reflexivity |]. repeat split. discriminate. }
  assert (Hne : TA.penalties ta <> []).
  { intros E.
    pose proof (score_from_records tokenId poolCount suspiciousLiquidity totalLiquidity
                  marketCap circulatingSupply
                  (match tick with Some t => Some t | None => Some EmptyString end)
                  None None) as Hs.
    pose proof (bonuses_positive tokenId poolCount suspiciousLiquidity totalLiquidity
                  marketCap circulatingSupply
                  (match tick with Some t => Some t | None => Some EmptyString end)
                  None None) as Hb.
    pose proof (classified tokenId poolCount suspiciousLiquidity totalLiquidity
                  marketCap circulatingSupply
                  (match tick with Some t => Some t | None => Some EmptyString end)
                  None None) as Hc.
    cbv zeta in Hs, Hc. fold ta in Hs, Hb, Hc.
    apply sumPoints_nonneg in Hb. rewrite E in Hs. change (sumPoints []) with 0 in Hs.
    assert (Hbig : 100 <= TA.score ta) by lia.
    unfold classify in Hc.
    destruct (Z.ltb_spec (TA.score ta) 20); [lia |].
    destruct (Z.ltb_spec (TA.score ta) 40); [lia |].
    destruct (Z.ltb_spec (TA.score ta) 60); [lia |].
    destruct (Z.ltb_spec (TA.score ta) 80); [lia |].
    inversion Hc. congruence. }
  assert (Hlen : (0 <? length_Z (TA.penalties ta)) = true).
  { apply Z.ltb_lt. unfold length_Z. destruct (TA.penalties ta); [now contradiction Hne |].
    cbn [List.length]. lia. }
  rewrite Hlen.
  pose proof (sort_perm (fun a b => inject_Z (points a - points b)) (TA.penalties ta)) as Hperm.
  pose proof (sort_by_points_sorted (TA.penalties ta)) as Hsorted.
  destruct (JS.sort (fun a b => inject_Z (points a - points b)) (TA.penalties ta))
    as [| first rest] eqn:Es.
  { apply Permutation_nil in Hperm. contradiction. }
  destruct first as [firstReason firstPoints].
  eexists. split; [reflexivity |]. cbn [HC.isHoneypot HC.trustScore HC.reason].
  repeat split; [discriminate |].
  intros _. exists {| reason := firstReason; points := firstPoints |}.
  split; [| split; [| reflexivity]].
  - apply (Permutation_in _ Hperm). now left.
  - intros p Hp. apply (Permutation_in _ (Permutation_sym Hperm)) in Hp.
    destruct Hp as [<- | Hp]; [lia |].
    inversion Hsorted as [| ? ? _ Hall]; subst.
    rewrite Forall_forall in Hall. now apply Hall.
Qed.

(** ** The verdict of the validator *)

Lemma Verdict_skip : Verdict false skip.
Proof. intros r. cbn. now rewrite andb_true_r. Qed.

Lemma Verdict_push (m : Message) : Verdict false (Validation.push m).
Proof. intros r. cbn. now rewrite andb_true_r. Qed.

Lemma Verdict_invalidate : Verdict true Validation.invalidate.
Proof. intros r. cbn. now rewrite andb_false_r. Qed.

Lemma Verdict_andThen (b c : bool) (f g : Upd Validation.t) :
  Verdict b f -> Verdict c g -> Verdict (b || c) (andThen f g).
Proof.
  intros Hf Hg r. unfold andThen. rewrite Hg, Hf, negb_orb. now rewrite andb_assoc.
Qed.

Lemma Verdict_when (cond b : bool) (f : Upd Validation.t) :
  Verdict b f -> Verdict (cond && b) (when cond f).
Proof. intros Hf. destruct cond; cbn [when andb]; [exact Hf | apply Verdict_skip]. Qed.

Lemma Verdict_if (cond b c : bool) (f g : Upd Validation.t) :
  Verdict b f -> Verdict c g -> Verdict (if cond then b else c) (if cond then f else g).
Proof. destruct cond; auto. Qed.

Ltac verdict :=
  lazymatch goal with
  | |- Verdict _ skip => apply Verdict_skip
  | |- Verdict _ Validation.invalidate => apply Verdict_invalidate
  | |- Verdict _ (Validation.push _) => apply Verdict_push
  | |- Verdict _ (when _ _) => apply Verdict_when; verdict
  | |- Verdict _ (if _ then _ else _) => apply Verdict_if; verdict
  | |- Verdict _ (andThen _ _) => apply Verdict_andThen; verdict
  end.








Lemma zero_supply_test (supply : option Q) :
  (match supply with Some c => JS.eq c 0 | None => false end
   || negb (JS.truthy_num supply)) = negb (JS.truthy_num supply).
Proof.
  destruct supply as [c |]; cbn; [| reflexivity].
  now destruct (JS.eq c 0).
Qed.

(** The verdict of the validator as one boolean. *)
Lemma valid_formula (marketCap totalLiquidity : Q) (trustAssessment : TA.t) :
  Validation.valid (validateMarketCap marketCap totalLiquidity trustAssessment) =
    negb (JS.truthy_bool (TA.emptySuspiciousPools trustAssessment)
          || JS.truthy_bool (TA.supplyDiscrepancy trustAssessment)
          || (JS.gt totalLiquidity 0 && JS.gt marketCap 0
              && JS.gt (marketCap / totalLiquidity) 100000)
          || TA.isHoneypot trustAssessment
          || (JS.gt marketCap 5000000
              && negb (JS.truthy_num (TA.circulatingSupply trustAssessment)))).
Proof.
  unfold validateMarketCap. rewrite zero_supply_test. cbv zeta.
  match goal with
  | |- Validation.valid (?f ?r) = _ =>
      eassert (Hv : Verdict _ f) by verdict;
      rewrite (Hv r); clear Hv
  end.
  cbn [Validation.valid andb]. f_equal.
  assert (Hr : JS.gt (marketCap / totalLiquidity) (MAX_MCAP_LIQUIDITY_RATIO * 10) = true ->
               JS.gt (marketCap / totalLiquidity) MAX_MCAP_LIQUIDITY_RATIO = true).
  { rewrite !gt_spec. unfold MAX_MCAP_LIQUIDITY_RATIO. lra. }
  assert (Hm : JS.gt marketCap 5000000 = true -> JS.gt marketCap 1000000 = true).
  { rewrite !gt_spec. lra. }
  change (MAX_MCAP_LIQUIDITY_RATIO * 10)%Q with 100000%Q in *.
  cbn [orb]. rewrite ?andb_true_r, ?andb_false_r, ?orb_false_r, ?orb_false_l.
  destruct (JS.gt (marketCap / totalLiquidity) 100000) eqn:E2;
    [rewrite ?(Hr eq_refl) | rewrite ?andb_false_r];
    (destruct (JS.gt marketCap 5000000) eqn:E5;
     [rewrite ?(Hm eq_refl) | rewrite ?andb_false_r]);
    destruct (TA.isHoneypot trustAssessment);
    repeat first [ rewrite andb_true_r | rewrite andb_false_r | rewrite orb_false_r
                 | rewrite orb_true_r | progress cbn [orb andb negb] ];
    try reflexivity;
    destruct (JS.truthy_bool (TA.emptySuspiciousPools trustAssessment)),
             (JS.truthy_bool (TA.supplyDiscrepancy trustAssessment)),
             (JS.gt totalLiquidity 0 && JS.gt marketCap 0),
             (negb (JS.truthy_num (TA.circulatingSupply trustAssessment)));
    reflexivity.
Qed.


(** ** Enrichment of one token *)

Lemma getTokenInfo_returns (tokenId : string) (w : World) :
  exists info, getTokenInfo tokenId w = Returned info.
Proof.
  unfold getTokenInfo, try_catch, await, ret.
  destruct (get_token w tokenId); eauto.
Qed.

Lemma scanSimilar_returns (token : Token.t) (circulating marketCap totalLiquidity : Q)
    (files : list string) (w : World) :
  exists hit, scanSimilar token circulating marketCap totalLiquidity files w = Returned hit.
Proof.
  induction files as [| file rest IH]; cbn [scanSimilar].
  - now exists false.
  - unfold bind, try_catch, await, ret.
    destruct (readSummary w file) as [e | data].
    + exact IH.
    + match goal with |- context [if ?b then _ else _] => destruct b end; [now exists true |].
      exact IH.
Qed.

Lemma detectCopycat_returns (token : Token.t) (circulating marketCap totalLiquidity : Q)
    (w : World) :
  exists hit, detectCopycat token circulating marketCap totalLiquidity w = Returned hit.
Proof.
  unfold detectCopycat.
  destruct (JS.truthy_str (Token.ticker token)); [| now exists false].
  unfold try_catch, bind, await, ret.
  destruct (readdirSync w) as [e | files]; [now exists false |].
  match goal with
  | |- context [scanSimilar ?t ?c ?m ?l ?fs w] =>
      destruct (scanSimilar_returns t c m l fs w) as [hit ->]
  end.
  now exists hit.
Qed.

(** Every call of [enhanceTokenData] returns the enhanced object. *)
Lemma enhance_shape (token : Token.t) (w : World) :
  exists pa tokenAge copycat e,
    calculateWeightedPrice (Token.token_id token) w = Returned pa /\
    enhanceTokenData token w = Returned e /\
    Enhanced token pa tokenAge copycat e.
Proof.
  destruct (getTokenInfo_returns (Token.token_id token) w) as [info Hinfo].
  destruct (resolver_cases (Token.token_id token) w) as (pa & Hpa & _).
  unfold enhanceTokenData, try_catch, bind, await, ret.
  rewrite Hinfo, Hpa.
  match goal with
  | |- context [detectCopycat ?t ?c ?m ?l w] =>
      destruct (detectCopycat_returns t c m l w) as [hit Hhit]; rewrite Hhit
  end.
  eexists pa, _, hit, _. split; [reflexivity |]. split; [reflexivity |].
  assert (Hcap : (if negb (JS.eq (circulatingOf token) 0) then circulatingOf token
                  else if negb (JS.eq (circulatingOf token) 0) then circulatingOf token
                       else JS.or_zero (Token.total_supply token)) = supplyOf token).
  { unfold supplyOf. now destruct (negb (JS.eq (circulatingOf token) 0)). }
  fold (circulatingOf token). rewrite Hcap.
  constructor; try reflexivity.
  cbv zeta. repeat split.
Qed.

Lemma lookup_nonzero (w : World) (a b : string) (field : AveragePrice -> option Q) (p : Q) :
  lookup w a b field = Some p -> ~ (p == 0)%Q.
Proof.
  unfold lookup. destruct (get_averagePrice w a b) as [e | [data |]]; try discriminate.
  unfold JS.truthy_value. destruct (field data) as [x |]; [| discriminate].
  destruct (JS.eq x 0) eqn:E; [discriminate |].
  intros H; inversion H; subst. intros Hz. apply eq_spec in Hz. congruence.
Qed.

(** A resolved price of zero comes from one of the three objects
    without pools. *)
Lemma zero_price_shape (w : World) (tokenId : string) (pa : PA.t) :
  Resolved w tokenId pa ->
  (PA.weightedPrice pa == 0)%Q ->
  PA.weightedPrice pa = 0%Q /\ PA.totalLiquidity pa = 0%Q /\ PA.poolCount pa = 0 /\
  PA.priceFromAveragePrice pa = None.
Proof.
  intros Hcase Hz.
  destruct Hcase as [message Hp | Hp | pools Hp Hne Hu | pools middle Hp Hu Hk pw sp Hn
                    | pools Hp Hne].
  - repeat split.
  - destruct (lookup w tokenId "ADA" price_ba) as [p |] eqn:E1.
    { exfalso. exact (lookup_nonzero _ _ _ _ _ E1 Hz). }
    destruct (lookupThrows w tokenId "ADA"); [repeat split |].
    destruct (lookup w "ADA" tokenId price_ab) as [p |] eqn:E2; [| repeat split].
    exfalso. exact (lookup_nonzero _ _ _ _ _ E2 Hz).
  - destruct (lookup w tokenId "ADA" price_ba) as [p |] eqn:E1; [| repeat split].
    exfalso. exact (lookup_nonzero _ _ _ _ _ E1 Hz).
  - exfalso. destruct (median_price_bounds pools middle Hn) as (Hpos & _).
    subst pw. rewrite Hz in Hpos. discriminate Hpos.
  - exfalso. destruct (weighted_price_bounds pools Hne) as (Hlo & _).
    rewrite Hz in Hlo. apply Hlo. reflexivity.
Qed.

Lemma honeypot_invalid (marketCap totalLiquidity : Q) (trustAssessment : TA.t) :
  TA.isHoneypot trustAssessment = true ->
  Validation.valid (validateMarketCap marketCap totalLiquidity trustAssessment) = false.
Proof.
  intros H. rewrite valid_formula, H. now rewrite orb_true_r.
Qed.

Lemma copycat_invalid (marketCap totalLiquidity : Q) (trustAssessment : TA.t) :
  TA.supplyDiscrepancy trustAssessment = Some true ->
  Validation.valid (validateMarketCap marketCap totalLiquidity trustAssessment) = false.
Proof.
  intros H. rewrite valid_formula, H. cbn [JS.truthy_bool]. now rewrite orb_true_r.
Qed.

(** X12. [enhanceTokenData] returns for every token summary and every world an object with the id of the token and no [error] property; the error object of its [catch] is never built. The market cap is the price times the circulating supply when that is above zero, and otherwise times the total supply, or times 0 when that is absent as well. *)
Theorem enhancement_never_fails :
  forall (token : Token.t) (w : World),
  exists e price,
    enhanceTokenData token w = Returned e /\
    ET.token_id e = Token.token_id token /\
    ET.error e = None /\
    ET.price e = Some price /\
    ET.market_cap e = Some (price * supplyOf token)%Q /\
    (forall c, Token.circulating_supply token = Some c -> (0 < c)%Q -> supplyOf token = c) /\
    ((forall c, Token.circulating_supply token = Some c -> (c <= 0)%Q) ->
     supplyOf token = JS.or_zero (Token.total_supply token)).
Proof.
  intros token w.
  destruct (enhance_shape token w) as (pa & age & hit & e & _ & He & Hshape).
  exists e, (PA.weightedPrice pa).
  split; [exact He |]. split; [apply Hshape |]. split; [apply Hshape |].
  split; [apply Hshape |]. split; [apply Hshape |].
  unfold supplyOf, circulatingOf, JS.gt_u, JS.or_zero. split.
  - intros c Hc Hpos. rewrite Hc. apply gt_spec in Hpos as Hgt. rewrite Hgt.
    assert (E : JS.eq c 0 = false).
    { destruct (JS.eq c 0) eqn:E; [| reflexivity]. apply eq_spec in E. lra. }
    now rewrite E, E.
  - intros Hall. destruct (Token.circulating_supply token) as [c |]; [| reflexivity].
    assert (Hgt : JS.gt c 0 = false) by (apply gt_false; now apply Hall).
    rewrite Hgt. reflexivity.
Qed.

(** X13. An enhanced token whose price is 0 has a market cap of 0, [honeypot_risk] true, an invalid validation and a trust level of Very Low with a score of at most 15; the report does not rank it. *)
Theorem unpriced_token_is_flagged :
  forall (token : Token.t) (w : World) (e : ET.t) (price : Q),
    enhanceTokenData token w = Returned e ->
    ET.price e = Some price ->
    (price == 0)%Q ->
    ET.market_cap e = Some (0 * supplyOf token)%Q /\
    ET.honeypot_risk e = Some true /\
    (exists v, ET.validation e = Some v /\ Validation.valid v = false) /\
    (exists ta, ET.trust_assessment e = Some ta /\ ts_level ta = VeryLow /\ ts_score ta <= 15) /\
    validMarketCap e = false.
Proof.
  intros token w e price He Hprice Hz.
  assert (Hcases := resolver_cases (Token.token_id token) w).
  destruct Hcases as (pa' & Hpa' & Hcase).
  destruct (enhance_shape token w) as (pa & age & hit & e' & Hpa & He' & Hshape).
  rewrite He in He'. inversion He'; subst e'; clear He'.
  rewrite Hpa in Hpa'. inversion Hpa'; subst pa'; clear Hpa'.
  destruct Hshape as [_ _ Hp Hmc _ _ _ _ _ Hta]. cbv zeta in Hta.
  rewrite Hprice in Hp. inversion Hp; subst price; clear Hp.
  destruct (zero_price_shape _ _ _ Hcase Hz) as (Hw0 & Hl0 & Hc0 & Hf0).
  rewrite Hw0, Hl0, Hc0, Hf0 in *.
  destruct Hta as (Hts & Hrisk & Hval).
  match type of Hts with
  | context [calculateTrustScore ?a 0 ?c ?d ?e0 ?f ?g ?h ?i] =>
      destruct (no_pools_low_liquidity a c d e0 f g h i) as (Hh & _ & Hlow);
      [reflexivity | left; discriminate |]
  end.
  cbv zeta in Hh, Hlow. destruct Hlow as [Hle Hlevel]; [discriminate |].
  split; [exact Hmc |].
  split; [rewrite Hrisk, Hh; reflexivity |].
  split; [eexists; split; [exact Hval |]; apply honeypot_invalid; exact Hh |].
  split; [eexists; split; [exact Hts |]; split; [exact Hlevel | exact Hle] |].
  unfold validMarketCap. rewrite Hmc. cbn [JS.gt_u].
  assert (E : JS.gt (0 * supplyOf token) 0 = false).
  { apply gt_false. rewrite Qmult_0_l. discriminate. }
  now rewrite E.
Qed.

Lemma unpriced_token_is_flagged_witness :
  let token := summaryOf "token" 1000000 in
  let w := world (Returned None) (Returned None) (Returned None) in
  exists e,
    enhanceTokenData token w = Returned e /\
    ET.honeypot_risk e = Some true /\
    validMarketCap e = false.
Proof.
  cbv zeta.
  assert (He : exists e,
             enhanceTokenData (summaryOf "token" 1000000)
               (world (Returned None) (Returned None) (Returned None)) = Returned e /\
             ET.price e = Some 0%Q).
  { eexists. split; lazy; reflexivity. }
  destruct He as (e & He & Hp).
  destruct (unpriced_token_is_flagged _ _ e 0%Q He Hp) as (_ & Hrisk & _ & _ & Hvalid);
    [reflexivity |].
  exists e. auto.
Defined.

(** X14. An enhanced token that passes the filter of the ranked list of the report has a trust score of at least 40, with level Moderate, Good or High, and a price that is not 0. If it carries [honeypot_risk] all the same, which only the copycat scan can cause, its validation is invalid. *)
Theorem ranked_token_is_trusted :
  forall (token : Token.t) (w : World) (e : ET.t),
    enhanceTokenData token w = Returned e ->
    validMarketCap e = true ->
    (exists ta, ET.trust_assessment e = Some ta /\ 40 <= ts_score ta /\
                (ts_level ta = Moderate \/ ts_level ta = Good \/ ts_level ta = High)) /\
    (exists price, ET.price e = Some price /\ ~ (price == 0)%Q) /\
    (ET.honeypot_risk e = Some true ->
     exists v, ET.validation e = Some v /\ Validation.valid v = false).
Proof.
  intros token w e He Hvalid.
  destruct (enhance_shape token w) as (pa & age & hit & e' & Hpa & He' & Hshape).
  rewrite He in He'. inversion He'; subst e'; clear He'.
  destruct Hshape as [_ _ Hp Hmc _ _ _ _ _ Hta]. cbv zeta in Hta.
  destruct Hta as (Hts & Hrisk & Hval).
  unfold validMarketCap, scoreAtLeast in Hvalid. rewrite Hts, Hmc in Hvalid.
  cbn [JS.gt_u ts_score] in Hvalid. apply andb_true_iff in Hvalid as [Hcap Hscore].
  apply Z.geb_le in Hscore. apply gt_spec in Hcap.
  match type of Hts with
  | context [calculateTrustScore ?a ?b ?c ?d ?e0 ?f ?g ?h ?i] =>
      pose proof (classified a b c d e0 f g h i) as Hc; cbv zeta in Hc;
      set (scored := calculateTrustScore a b c d e0 f g h i) in *
  end.
  assert (Hlevel : (TA.trustLevel scored = Moderate \/ TA.trustLevel scored = Good \/
                    TA.trustLevel scored = High) /\ TA.isHoneypot scored = false).
  { unfold classify in Hc.
    destruct (Z.ltb_spec (TA.score scored) 20); [lia |].
    destruct (Z.ltb_spec (TA.score scored) 40); [lia |].
    destruct (Z.ltb_spec (TA.score scored) 60); [inversion Hc; auto |].
    destruct (Z.ltb_spec (TA.score scored) 80); inversion Hc; auto. }
  destruct Hlevel as [Hlevel Hhoney].
  split; [eexists; split; [exact Hts |]; split; [exact Hscore | exact Hlevel] |].
  split.
  - eexists; split; [exact Hp |]. intros Hz. rewrite Hz, Qmult_0_l in Hcap.
    discriminate Hcap.
  - intros Hr. rewrite Hrisk, Hhoney in Hr. cbn [orb] in Hr. inversion Hr; subst hit.
    eexists; split; [exact Hval |]. apply copycat_invalid. reflexivity.
Qed.

Lemma ranked_token_is_trusted_witness :
  let token := summaryOf "token" 1000000 in
  let w := poolsOnly [pool "MINSWAP" 40000 20000; pool "SUNDAESWAP" 30000 15000;
                      pool "WINGRIDERS" 30000 15000] in
  exists e ta,
    enhanceTokenData token w = Returned e /\
    ET.trust_assessment e = Some ta /\ 40 <= ts_score ta.
Proof.
  cbv zeta.
  assert (He : exists e,
             enhanceTokenData (summaryOf "token" 1000000)
               (poolsOnly [pool "MINSWAP" 40000 20000; pool "SUNDAESWAP" 30000 15000;
                           pool "WINGRIDERS" 30000 15000]) = Returned e /\
             validMarketCap e = true).
  { eexists. split; lazy; reflexivity. }
  destruct He as (e & He & Hv).
  destruct (ranked_token_is_trusted _ _ e He Hv) as ((ta & Hta & Hscore & _) & _).
  exists e, ta. auto.
Defined.

(** ** Counters and ranking of the report *)

Lemma filter_length_le {A : Type} (f : A -> bool) (l : list A) :
  (List.length (filter f l) <= List.length l)%nat.
Proof.
  induction l as [| x l IH]; cbn [filter List.length]; [lia |].
  destruct (f x); cbn [List.length]; lia.
Qed.


Lemma sort_of_sorted {A : Type} (cmp : A -> A -> Q) (R : A -> A -> Prop) (l : list A) :
  (forall a b, R a b -> JS.gt (cmp a b) 0 = false) ->
  StronglySorted R l -> JS.sort cmp l = l.
Proof.
  intros Hkeep Hs. induction Hs as [| x l Hs IH Hx]; cbn [JS.sort]; [reflexivity |].
  rewrite IH. destruct l as [| y l']; [reflexivity |].
  cbn [JS.insert]. inversion Hx as [| ? ? Rxy _]; subst. now rewrite (Hkeep x y Rxy).
Qed.

Lemma descending_keeps (a b : ET.t) :
  marketCapDescending a b -> JS.gt (byMarketCapDesc a b) 0 = false.
Proof.
  unfold marketCapDescending, byMarketCapDesc.
  destruct (ET.market_cap a) as [x |], (ET.market_cap b) as [y |]; try tauto.
  intros H. apply gt_false. lra.
Qed.

Lemma ranked_is_sorted (enhancedTokens : list ET.t) :
  StronglySorted marketCapDescending
    (JS.sort byMarketCapDesc (filter validMarketCap enhancedTokens)).
Proof.
  apply (sort_sorted _ (fun token => exists x, ET.market_cap token = Some x)).
  - intros a b [x Ha] [y Hb] H. unfold byMarketCapDesc, marketCapDescending in *.
    rewrite Ha, Hb in *. apply gt_false in H. lra.
  - intros a b [x Ha] [y Hb] H. unfold byMarketCapDesc, marketCapDescending in *.
    rewrite Ha, Hb in *. apply gt_spec in H. lra.
  - apply marketCapDescending_trans.
  - apply Forall_forall. intros token Ht. apply filter_In in Ht as [_ Ht].
    apply validMarketCap_rankable in Ht as [(x & Hx & _) _]. now exists x.
Qed.

Lemma filter_all {A : Type} (f : A -> bool) (l : list A) :
  Forall (fun x => f x = true) l -> filter f l = l.
Proof.
  induction 1 as [| x l Hx _ IH]; cbn [filter]; [reflexivity |]. now rewrite Hx, IH.
Qed.


(** X16. A report generated from the ranked list of a report ranks the same tokens in the same order, counts all of them as valid and none as invalid. *)
Theorem report_ranking_is_stable_under_rerun :
  forall (enhancedTokens : list ET.t) (w w' : World),
    let ranked := top_tokens_by_market_cap_valid (generateMarketCapReport enhancedTokens w) in
    top_tokens_by_market_cap_valid (generateMarketCapReport ranked w') = ranked /\
    tokens_with_valid_market_caps (generateMarketCapReport ranked w') = List.length ranked /\
    tokens_with_invalid_market_caps (generateMarketCapReport ranked w') = 0%nat.
Proof.
  intros enhancedTokens w w' ranked.
  assert (Hperm : Permutation ranked (filter validMarketCap enhancedTokens))
    by apply sort_perm.
  assert (Hall : Forall (fun token => validMarketCap token = true) ranked).
  { apply Forall_forall. intros token Hin.
    apply (Permutation_in _ Hperm) in Hin. now apply filter_In in Hin. }
  assert (Hsorted : StronglySorted marketCapDescending ranked) by apply ranked_is_sorted.
  assert (Hvalid : filter validMarketCap ranked = ranked) by (now apply filter_all).
  unfold generateMarketCapReport at 1 2 3; cbv zeta;
    cbn [top_tokens_by_market_cap_valid tokens_with_valid_market_caps
         tokens_with_invalid_market_caps].
  fold validMarketCap. change (filter (fun token => JS.gt_u (ET.market_cap token) 0 &&
      scoreAtLeast 40 token) ranked) with (filter validMarketCap ranked).
  rewrite Hvalid.
  split; [exact (sort_of_sorted _ _ _ descending_keeps Hsorted) |].
  split; [reflexivity |].
  clear Hperm Hsorted Hvalid. induction Hall as [| token l Ht _ IH]; [reflexivity |].
  cbn [filter]. unfold validMarketCap in Ht. apply andb_true_iff in Ht as [Hcap Hscore].
  rewrite Hcap. unfold scoreAtLeast, scoreBelow in *.
  destruct (ET.trust_assessment token) as [ta |]; [| discriminate].
  rewrite Z.geb_leb in Hscore. rewrite Z.ltb_antisym, Hscore. cbn. exact IH.
Qed.

(** ** Loading the summaries *)

Lemma loadFiles_acc (s : Storage) (files : list string) (tokens : list Token.t) :
  loadFiles s files tokens = (tokens ++ loadFiles s files [])%list.
Proof.
  revert tokens. induction files as [| file rest IH]; intros tokens; cbn [loadFiles].
  - now rewrite app_nil_r.
  - destruct (readTokenFile s file) as [err | data]; [apply IH |].
    destruct (stored_token_id data) as [id |]; [| apply IH].
    destruct (JS.truthy_str (Some id)); [| apply IH].
    rewrite IH, (IH ([] ++ _)%list). now rewrite <- app_assoc.
Qed.

Lemma truthy_str_nonempty (id : string) : JS.truthy_str (Some id) = true <-> id <> EmptyString.
Proof.
  destruct id; cbn [JS.truthy_str]; split; intros H; congruence.
Qed.

Lemma loadFiles_spec (s : Storage) (files : list string) (token : Token.t) :
  In token (loadFiles s files []) <->
  exists file data id,
    In file files /\ readTokenFile s file = Returned data /\
    stored_token_id data = Some id /\ id <> EmptyString /\ token = asToken id data.
Proof.
  induction files as [| file rest IH]; cbn [loadFiles].
  - split; [intros [] | intros (f & _ & _ & [] & _)].
  - assert (Hskip : (forall data id, readTokenFile s file = Returned data ->
                       stored_token_id data = Some id -> id = EmptyString) ->
                    In token (loadFiles s rest []) <->
                    exists file0 data id,
                      In file0 (file :: rest) /\ readTokenFile s file0 = Returned data /\
                      stored_token_id data = Some id /\ id <> EmptyString /\ token = asToken id data).
    { intros Hno. rewrite IH. split.
      - intros (f & d & i & Hin & H). exists f, d, i. split; [now right | exact H].
      - intros (f & d & i & [<- | Hin] & Hr & Hid & Hne & Ht).
        + exfalso. apply Hne. exact (Hno d i Hr Hid).
        + exists f, d, i. auto. }
    destruct (readTokenFile s file) as [err | data] eqn:Er.
    { apply Hskip. intros; discriminate. }
    destruct (stored_token_id data) as [id |] eqn:Eid.
    2:{ apply Hskip. intros d i Hd Hi. inversion Hd; subst. congruence. }
    destruct (JS.truthy_str (Some id)) eqn:Et.
    2:{ apply Hskip. intros d i Hd Hi. inversion Hd; subst d. rewrite Eid in Hi.
        inversion Hi; subst i. destruct id; [reflexivity | discriminate Et]. }
    rewrite loadFiles_acc. cbn [app In]. rewrite IH. split.
    + intros [<- | (f & d & i & Hin & H)].
      * exists file, data, id. repeat split; auto. now apply truthy_str_nonempty.
      * exists f, d, i. split; [now right | exact H].
    + intros (f & d & i & [<- | Hin] & Hr & Hid & Hne & Ht).
      * left. rewrite Er in Hr. inversion Hr; subst d. rewrite Eid in Hid.
        inversion Hid; subst i. now symmetry.
      * right. exists f, d, i. auto.
Qed.

Lemma loadFiles_length (s : Storage) (files : list string) :
  (List.length (loadFiles s files []) <= List.length files)%nat.
Proof.
  induction files as [| file rest IH]; cbn [loadFiles List.length]; [lia |].
  destruct (readTokenFile s file) as [err | data]; [lia |].
  destruct (stored_token_id data) as [id |]; [| lia].
  destruct (JS.truthy_str (Some id)); [| lia].
  rewrite loadFiles_acc. cbn [app List.length]. lia.
Qed.

(** X17. [loadLocalTokenData] never throws. It returns no token when the summaries directory is missing or cannot be listed. Otherwise its tokens are exactly the contents of the listed files whose name ends in [_summary.json], that can be read and parsed and that hold a non-empty [token_id], at most one per listed file; every loaded token has a non-empty id. *)
Theorem loading_never_fails_and_keeps_identified_tokens :
  forall (s : Storage) (w : World),
  exists tokens,
    loadLocalTokenData s w = Returned tokens /\
    (existsSync s = false -> tokens = []) /\
    (forall message, readdirSync w = Thrown message -> tokens = []) /\
    (forall listing, existsSync s = true -> readdirSync w = Returned listing ->
       (forall token, In token tokens <-> storedIn s listing token) /\
       (List.length tokens <= List.length listing)%nat) /\
    (forall token, In token tokens -> Token.token_id token <> EmptyString).
Proof.
  intros s w. unfold loadLocalTokenData, try_catch, bind, await, ret.
  destruct (existsSync s) eqn:Ee; cbn [negb].
  2:{ exists []. split; [reflexivity |]. split; [reflexivity |]. split; [reflexivity |].
      split; [discriminate | intros token []]. }
  destruct (readdirSync w) as [message | listing] eqn:El.
  { exists []. split; [reflexivity |]. split; [reflexivity |]. split; [reflexivity |].
    split; [discriminate | intros token []]. }
  eexists. split; [reflexivity |].
  split; [discriminate |]. split; [discriminate |].
  assert (Hspec : forall token,
            In token (loadFiles s (filter (fun file => JS.endsWith file "_summary.json") listing) [])
            <-> storedIn s listing token).
  { intros token. rewrite loadFiles_spec. unfold storedIn. split.
    - intros (f & d & i & Hin & H). apply filter_In in Hin as [Hin Hf].
      exists f, d, i. auto.
    - intros (f & d & i & Hin & Hf & H). exists f, d, i. split; [| exact H].
      apply filter_In. auto. }
  split.
  - intros listing' _ Hl. inversion Hl; subst listing'. split; [exact Hspec |].
    etransitivity; [apply loadFiles_length | apply filter_length_le].
  - intros token Hin. apply Hspec in Hin as (f & d & i & _ & _ & _ & _ & Hne & ->).
    exact Hne.
Qed.

(** ** Batches *)

Lemma settleBatch_split (worlds : nat -> World) (k : nat) :
  forall (l : list Token.t) (i : nat),
    settleBatch worlds i l =
    (settleBatch worlds i (firstn k l) ++ settleBatch worlds (i + k) (skipn k l))%list.
Proof.
  induction k as [| k IH]; intros l i.
  - cbn [firstn skipn settleBatch app]. now rewrite Nat.add_0_r.
  - destruct l as [| token l]; [reflexivity |].
    cbn [firstn skipn settleBatch app]. f_equal.
    rewrite (IH l (S i)). now rewrite Nat.add_succ_r.
Qed.

Lemma settleBatch_length (worlds : nat -> World) (l : list Token.t) (i : nat) :
  List.length (settleBatch worlds i l) = List.length l.
Proof.
  revert i. induction l as [| token l IH]; intros i; cbn [settleBatch List.length];
    [reflexivity | now rewrite IH].
Qed.

Lemma settleBatch_nth (worlds : nat -> World) (l : list Token.t) :
  forall (i k : nat) (token : Token.t),
    nth_error l k = Some token ->
    exists pa tokenAge copycat e,
      nth_error (settleBatch worlds i l) k = Some e /\
      enhanceTokenData token (worlds (i + k)%nat) = Returned e /\
      Enhanced token pa tokenAge copycat e.
Proof.
  induction l as [| x l IH]; intros i k token Hk.
  - destruct k; discriminate Hk.
  - destruct k as [| k]; cbn [nth_error settleBatch] in *.
    + inversion Hk; subst x. rewrite Nat.add_0_r.
      destruct (enhance_shape token (worlds i)) as (pa & age & hit & e & _ & He & Hs).
      exists pa, age, hit, e. rewrite He. auto.
    + destruct (IH (S i) k token Hk) as (pa & age & hit & e & Hn & He & Hs).
      exists pa, age, hit, e. rewrite Nat.add_succ_r. auto.
Qed.

Lemma settleBatch_In (worlds : nat -> World) (l : list Token.t) (i : nat) (e : ET.t) :
  In e (settleBatch worlds i l) ->
  exists token pa tokenAge copycat, In token l /\ Enhanced token pa tokenAge copycat e.
Proof.
  revert i. induction l as [| x l IH]; intros i; cbn [settleBatch In]; [intros [] |].
  intros [<- | Hin].
  - destruct (enhance_shape x (worlds i)) as (pa & age & hit & e & _ & He & Hs).
    rewrite He. exists x, pa, age, hit. auto.
  - destruct (IH _ Hin) as (token & pa & age & hit & Ht & Hs).
    exists token, pa, age, hit. auto.
Qed.

Lemma batchLoop_spec (worlds : nat -> World) (tokens : list Token.t) (fuel : nat) :
  forall (i : nat) (results : list ET.t) (effects : list Effect),
    (List.length tokens - i < fuel)%nat ->
    batchLoop fuel worlds tokens i results effects =
    Some ((results ++ settleBatch worlds i (skipn i tokens))%list,
          (effects ++ delaysFrom (List.length tokens) i)%list).
Proof.
  induction fuel as [| fuel IH]; intros i results effects Hfuel; [lia |].
  cbn [batchLoop]. destruct (Nat.ltb_spec i (List.length tokens)) as [Hi | Hi].
  - rewrite IH by (unfold BATCH_SIZE; lia).
    unfold slice. replace (i + BATCH_SIZE - i)%nat with BATCH_SIZE by lia.
    rewrite (settleBatch_split worlds BATCH_SIZE (skipn i tokens) i).
    rewrite skipn_skipn, (Nat.add_comm BATCH_SIZE i), <- app_assoc.
    f_equal. f_equal.
    unfold delaysFrom.
    destruct (Nat.ltb_spec (i + BATCH_SIZE) (List.length tokens)) as [Hn | Hn].
    + rewrite <- app_assoc. f_equal.
      replace ((List.length tokens - i - 1) / BATCH_SIZE)%nat
        with (S ((List.length tokens - (i + BATCH_SIZE) - 1) / BATCH_SIZE)).
      * reflexivity.
      * replace (List.length tokens - i - 1)%nat
          with ((List.length tokens - (i + BATCH_SIZE) - 1) + 1 * BATCH_SIZE)%nat by lia.
        rewrite Nat.div_add by (unfold BATCH_SIZE; lia). lia.
    + f_equal.
      rewrite (Nat.div_small (List.length tokens - i - 1)) by lia.
      rewrite (Nat.div_small (List.length tokens - (i + BATCH_SIZE) - 1))
        by (unfold BATCH_SIZE in *; lia).
      reflexivity.
  - rewrite skipn_all2 by lia. cbn [settleBatch]. unfold delaysFrom.
    replace (List.length tokens - i - 1)%nat with 0%nat by lia.
    rewrite Nat.Div0.div_0_l.
    cbn [repeat]. now rewrite !app_nil_r.
Qed.

Lemma batchProcessTokens_spec (worlds : nat -> World) (tokens : list Token.t) :
  batchProcessTokens worlds tokens =
  Some (settleBatch worlds 0 tokens, delaysFrom (List.length tokens) 0).
Proof.
  unfold batchProcessTokens. rewrite batchLoop_spec by lia. reflexivity.
Qed.

(** X18. [batchProcessTokens] terminates for every array of tokens and returns one record per token, in the order of the tokens: record number k is what [enhanceTokenData] returns for token number k, has its id and no error, so the fallback to the original token is never taken. The run waits [BATCH_DELAY_MS] once between two batches of [BATCH_SIZE], that is (n - 1) / 10 times for n tokens, and not after the last batch. *)
Theorem batches_return_one_enhanced_record_per_token :
  forall (worlds : nat -> World) (tokens : list Token.t),
  exists results effects,
    batchProcessTokens worlds tokens = Some (results, effects) /\
    List.length results = List.length tokens /\
    (forall k token, nth_error tokens k = Some token ->
       exists e, nth_error results k = Some e /\
                 enhanceTokenData token (worlds k) = Returned e /\
                 ET.token_id e = Token.token_id token /\ ET.error e = None) /\
    effects = repeat (Wait BATCH_DELAY_MS) ((List.length tokens - 1) / BATCH_SIZE).
Proof.
  intros worlds tokens. rewrite batchProcessTokens_spec.
  eexists _, _. split; [reflexivity |].
  split; [apply settleBatch_length |]. split.
  - intros k token Hk.
    destruct (settleBatch_nth worlds tokens 0 k token Hk) as (pa & age & hit & e & Hn & He & Hs).
    exists e. repeat split; [exact Hn | exact He | apply Hs | apply Hs].
  - unfold delaysFrom. now rewrite Nat.sub_0_r.
Qed.

Lemma circulating_positive (token : Token.t) :
  JS.gt (circulatingOf token) 0 = JS.gt_u (Token.circulating_supply token) 0.
Proof.
  unfold circulatingOf, JS.gt_u, JS.or_zero.
  destruct (Token.circulating_supply token) as [c |]; [| reflexivity].
  destruct (JS.gt c 0) eqn:Eg; [| reflexivity].
  destruct (JS.eq c 0) eqn:Ee; [| exact Eg].
  apply gt_spec in Eg. apply eq_spec in Ee. lra.
Qed.

Lemma settled_supply_counts (worlds : nat -> World) (tokens : list Token.t) (i : nat) :
  filter (fun token => JS.gt_u (ET.total_supply token) 0) (settleBatch worlds i tokens) = [] /\
  List.length (filter (fun token => JS.gt_u (ET.circulating_supply token) 0)
                 (settleBatch worlds i tokens)) =
  List.length (filter (fun token => JS.gt_u (Token.circulating_supply token) 0) tokens).
Proof.
  revert i. induction tokens as [| token rest IH]; intros i; [split; reflexivity |].
  destruct (IH (S i)) as [Htotal Hcirc].
  cbn [settleBatch filter].
  destruct (enhance_shape token (worlds i)) as (pa & age & hit & e & _ & He & Hs).
  rewrite He. destruct Hs as [_ _ _ _ _ Hc _ _ Ht _].
  rewrite Ht, Hc. cbn [JS.gt_u]. rewrite circulating_positive. split; [exact Htotal |].
  destruct (JS.gt_u (Token.circulating_supply token) 0); cbn [List.length]; now rewrite Hcirc.
Qed.

(** X19. The report of the records of [batchProcessTokens] counts every token given, counts no token as having a total supply, since an enhanced record has no [total_supply] property, and counts as tokens with a circulating supply exactly the given tokens whose circulating supply is above zero. *)
Theorem run_report_never_counts_total_supply :
  forall (worlds : nat -> World) (tokens : list Token.t) (w : World),
  exists results effects,
    batchProcessTokens worlds tokens = Some (results, effects) /\
    let report := generateMarketCapReport results w in
    total_tokens report = List.length tokens /\
    tokens_with_total_supply report = 0%nat /\
    tokens_with_circulating_supply report =
      List.length (filter (fun token => JS.gt_u (Token.circulating_supply token) 0) tokens).
Proof.
  intros worlds tokens w. rewrite batchProcessTokens_spec.
  eexists _, _. split; [reflexivity |]. cbv zeta.
  unfold generateMarketCapReport; cbv zeta;
    cbn [total_tokens tokens_with_total_supply tokens_with_circulating_supply].
  destruct (settled_supply_counts worlds tokens 0) as [Htotal Hcirc].
  rewrite Htotal, Hcirc. split; [apply settleBatch_length |]. split; reflexivity.
Qed.

(** ** Stored files and the run *)

Lemma length_append (a b : string) :
  String.length (a ++ b) = (String.length a + String.length b)%nat.
Proof. induction a as [| c a IH]; cbn; [reflexivity | now rewrite IH]. Qed.

Lemma substring_append (a b : string) (k m : nat) :
  String.substring (String.length a + k) m (a ++ b) = String.substring k m b.
Proof. induction a as [| c a IH]; cbn; [reflexivity | exact IH]. Qed.

Lemma enhanced_name_is_no_summary (token_id : string) :
  JS.endsWith (enhancedFileName token_id) "_summary.json" = false.
Proof.
  unfold JS.endsWith, enhancedFileName. rewrite length_append.
  change (String.length "_enhanced_refined.json") with 22%nat.
  change (String.length "_summary.json") with 13%nat.
  replace (String.length token_id + 22 - 13)%nat with (String.length token_id + 9)%nat by lia.
  rewrite substring_append. cbn [String.substring]. apply andb_false_r.
Qed.

Lemma tokenWrite_besideInputs (token : ET.t) : besideInputs (tokenWrite token).
Proof.
  unfold tokenWrite, besideInputs. split; [reflexivity | apply enhanced_name_is_no_summary].
Qed.

Lemma store_prefix (s : Storage) (tokenData : list ET.t) :
  forall n,
  exists rest,
    map tokenWrite (filter hasId tokenData) =
      (fst (storeEnhancedTokenData s n tokenData) ++ rest)%list /\
    ((exists u, snd (storeEnhancedTokenData s n tokenData) = Returned u) -> rest = []).
Proof.
  induction tokenData as [| token data IH]; intros n; cbn [storeEnhancedTokenData filter map].
  - exists []. split; [reflexivity | auto].
  - unfold hasId at 1. destruct (JS.truthy_str (Some (ET.token_id token))); [| apply IH].
    destruct (writeFileSync s n _) as [e | u].
    + eexists. cbn [fst snd app]. split; [reflexivity |]. intros [u Hu]. discriminate Hu.
    + destruct (IH (S n)) as (rest & Hw & Hr).
      destruct (storeEnhancedTokenData s (S n) data) as [effects outcome].
      cbn [fst snd] in *. exists rest. cbn [map app]. split; [| exact Hr].
      fold (tokenWrite token). now rewrite Hw.
Qed.

Lemma store_all (s : Storage) (tokenData : list ET.t) :
  writesAlways s ->
  forall n,
    storeEnhancedTokenData s n tokenData = (map tokenWrite (filter hasId tokenData), Returned tt).
Proof.
  intros Hw. induction tokenData as [| token data IH]; intros n;
    cbn [storeEnhancedTokenData filter map]; [reflexivity |].
  unfold hasId at 1. destruct (JS.truthy_str (Some (ET.token_id token))); [| apply IH].
  destruct (Hw n (InSummaries (enhancedFileName (ET.token_id token)))) as [u ->].
  rewrite IH. reflexivity.
Qed.

Lemma store_writes_beside_inputs (s : Storage) (tokenData : list ET.t) (n : nat) :
  Forall besideInputs (fst (storeEnhancedTokenData s n tokenData)).
Proof.
  destruct (store_prefix s tokenData n) as (rest & Hw & _).
  assert (Hall : Forall besideInputs (map tokenWrite (filter hasId tokenData))).
  { apply Forall_forall. intros e He. apply in_map_iff in He as (token & <- & _).
    apply tokenWrite_besideInputs. }
  rewrite Hw in Hall. now apply Forall_app in Hall.
Qed.

(** X20. [storeEnhancedTokenData] writes the files of the tokens with a non-empty id in the order of the array, each under the id followed by [_enhanced_refined.json] and with the token as content; the writes made are a prefix of these, and all of them when the function returns, which it does when no write throws. No file written has a name ending in [_summary.json], so none is picked up by the loaders of the summaries. *)
Theorem stored_files_follow_the_tokens :
  forall (s : Storage) (n : nat) (tokenData : list ET.t),
  exists rest,
    map tokenWrite (filter hasId tokenData) =
      (fst (storeEnhancedTokenData s n tokenData) ++ rest)%list /\
    ((exists u, snd (storeEnhancedTokenData s n tokenData) = Returned u) -> rest = []) /\
    (writesAlways s -> snd (storeEnhancedTokenData s n tokenData) = Returned tt) /\
    (forall file content,
       In (WriteFile (InSummaries file) content) (fst (storeEnhancedTokenData s n tokenData)) ->
       JS.endsWith file "_summary.json" = false).
Proof.
  intros s n tokenData. destruct (store_prefix s tokenData n) as (rest & Hw & Hr).
  exists rest. split; [exact Hw |]. split; [exact Hr |]. split.
  - intros Ha. now rewrite (store_all s tokenData Ha n).
  - intros file content Hin.
    pose proof (store_writes_beside_inputs s tokenData n) as Hall.
    rewrite Forall_forall in Hall. specialize (Hall _ Hin). cbn [besideInputs] in Hall.
    destruct content; [apply Hall | contradiction].
Qed.

Lemma delays_beside_inputs (n i : nat) : Forall besideInputs (delaysFrom n i).
Proof.
  unfold delaysFrom. apply Forall_forall. intros e He. apply repeat_spec in He. now subst e.
Qed.

Lemma loadLocalTokenData_returns (s : Storage) (w : World) :
  exists tokens, loadLocalTokenData s w = Returned tokens /\
                 Forall (fun token => Token.token_id token <> EmptyString) tokens.
Proof.
  unfold loadLocalTokenData, try_catch, bind, await, ret.
  destruct (existsSync s); cbn [negb]; [| now exists []].
  destruct (readdirSync w) as [message | listing]; [now exists [] |].
  eexists. split; [reflexivity |]. apply Forall_forall. intros token Hin.
  apply loadFiles_spec in Hin as (f & d & i & _ & _ & _ & Hne & ->). exact Hne.
Qed.

Lemma settled_have_ids (worlds : nat -> World) (tokens : list Token.t) (i : nat) :
  Forall (fun token => Token.token_id token <> EmptyString) tokens ->
  filter hasId (settleBatch worlds i tokens) = settleBatch worlds i tokens.
Proof.
  intros Hall. apply filter_all. apply Forall_forall. intros e He.
  apply settleBatch_In in He as (token & pa & age & hit & Hin & Hs).
  rewrite Forall_forall in Hall. unfold hasId. destruct Hs as [Hid _ _ _ _ _ _ _ _ _].
  rewrite Hid. apply truthy_str_nonempty. now apply Hall.
Qed.

(** X21. Every run of [main] terminates, and its last effect is either the exit with code 1 or the write of the report of the records of the batches; before it the run only waits between batches and writes enhanced token files, none under a name ending in [_summary.json]. A run that loads no token exits with code 1 without any write. *)
Theorem run_ends_with_the_report_or_a_failure :
  forall (s : Storage) (start : World) (worlds : nat -> World) (finish : World),
  exists tokens body final,
    loadLocalTokenData s start = Returned tokens /\
    main s start worlds finish = Some (body ++ [final])%list /\
    Forall besideInputs body /\
    (final = Exit 1 \/
     exists results effects,
       batchProcessTokens worlds tokens = Some (results, effects) /\
       final = WriteFile MarketCapReport (ReportJSON (generateMarketCapReport results finish))) /\
    (tokens = [] -> body = [] /\ final = Exit 1).
Proof.
  intros s start worlds finish.
  destruct (loadLocalTokenData_returns s start) as (tokens & Hload & Hids).
  unfold main. rewrite Hload, batchProcessTokens_spec.
  exists tokens.
  destruct tokens as [| token tokens]; cbn [List.length Nat.eqb].
  { exists [], (Exit 1). split; [reflexivity |]. split; [reflexivity |].
    split; [constructor |]. split; [now left | auto]. }
  set (all := token :: tokens) in *.
  pose proof (store_writes_beside_inputs s (settleBatch worlds 0 all) 0) as Hwrites.
  pose proof (delays_beside_inputs (S (List.length tokens)) 0) as Hdelays.
  destruct (storeEnhancedTokenData s 0 (settleBatch worlds 0 all)) as [writes stored].
  cbn [fst] in Hwrites.
  assert (Hbody : Forall besideInputs (delaysFrom (S (List.length tokens)) 0 ++ writes)%list)
    by (apply Forall_app; auto).
  destruct stored as [error | u].
  - eexists _, (Exit 1). split; [reflexivity |]. rewrite app_assoc.
    split; [reflexivity |]. split; [exact Hbody |]. split; [now left | discriminate].
  - destruct (writeFileSync s (List.length writes) MarketCapReport) as [error | u'].
    + eexists _, (Exit 1). split; [reflexivity |]. rewrite app_assoc.
      split; [reflexivity |]. split; [exact Hbody |]. split; [now left | discriminate].
    + eexists _, _. split; [reflexivity |]. rewrite app_assoc.
      split; [reflexivity |]. split; [exact Hbody |]. split; [| discriminate].
      right. exists (settleBatch worlds 0 all), (delaysFrom (List.length all) 0).
      split; [apply batchProcessTokens_spec | reflexivity].
Qed.

(** X22. When no write throws and at least one token is loaded, the run of [main] waits between the batches, then writes one enhanced file per loaded token, in order, then the report of these records, and does not exit with a failure. *)
Theorem successful_run_stores_every_token_then_the_report :
  forall (s : Storage) (start : World) (worlds : nat -> World) (finish : World)
         (tokens : list Token.t),
    writesAlways s ->
    loadLocalTokenData s start = Returned tokens ->
    tokens <> [] ->
    exists results,
      batchProcessTokens worlds tokens =
        Some (results, repeat (Wait BATCH_DELAY_MS) ((List.length tokens - 1) / BATCH_SIZE)) /\
      List.length results = List.length tokens /\
      main s start worlds finish =
        Some (repeat (Wait BATCH_DELAY_MS) ((List.length tokens - 1) / BATCH_SIZE) ++
              map tokenWrite results ++
              [WriteFile MarketCapReport (ReportJSON (generateMarketCapReport results finish))])%list.
Proof.
  intros s start worlds finish tokens Hw Hload Hne.
  destruct (loadLocalTokenData_returns s start) as (tokens' & Hload' & Hids).
  rewrite Hload in Hload'. inversion Hload'; subst tokens'; clear Hload'.
  exists (settleBatch worlds 0 tokens).
  assert (Hd : delaysFrom (List.length tokens) 0 =
               repeat (Wait BATCH_DELAY_MS) ((List.length tokens - 1) / BATCH_SIZE)).
  { unfold delaysFrom. now rewrite Nat.sub_0_r. }
  rewrite <- Hd.
  split; [apply batchProcessTokens_spec |]. split; [apply settleBatch_length |].
  unfold main. rewrite Hload, batchProcessTokens_spec.
  destruct tokens as [| token tokens]; [congruence |]. cbn [List.length Nat.eqb].
  rewrite (store_all s _ Hw 0), (settled_have_ids worlds _ 0 Hids).
  destruct (Hw (List.length (map tokenWrite (settleBatch worlds 0 (token :: tokens))))
              MarketCapReport) as [u ->].
  reflexivity.
Qed.

Lemma successful_run_stores_every_token_then_the_report_witness :
  let s := {| existsSync := true;
              readTokenFile := fun file =>
                Returned {| stored_token_id := Some "token"%string; stored_ticker := None;
                            stored_name := None; stored_circulating_supply := Some 1000000%Q;
                            stored_total_supply := None |};
              writeFileSync := fun n path => Returned tt |} in
  let start := {| get_pools := fun _ => Returned None;
                  get_averagePrice := fun _ _ => Returned None;
                  get_token := fun _ => Returned None;
                  readdirSync := Returned ["token_summary.json"%string; "notes.txt"%string];
                  readSummary := fun _ => Thrown "ENOENT";
                  now := 0 |} in
  exists results,
    List.length results = 1%nat /\
    main s start (fun _ => start) start =
      Some (map tokenWrite results ++
            [WriteFile MarketCapReport (ReportJSON (generateMarketCapReport results start))])%list.
Proof.
  cbv zeta.
  match goal with
  | |- exists results, _ /\ main ?s ?start ?worlds ?finish = _ =>
      destruct (successful_run_stores_every_token_then_the_report s start worlds finish
                  [summaryOf "token" 1000000])
        as (results & _ & Hlen & Hmain)
  end.
  - intros n path. now exists tt.
  - reflexivity.
  - discriminate.
  - exists results. split; [exact Hlen | exact Hmain].
Defined.
